(** * RAGForge: chunker, embedder contract, collection store and retrieval merge

    A shallow embedding of the Python sources

    - [LearningPhase/chunking_logic.py]   (word-window chunker),
    - [vectordb_chat/utils/text_utils.py] (paragraph-aware chunker),
    - [vectordb_chat/vectordb/embedder.py],
    - [vectordb_chat/vectordb/index_manager.py],
    - [vectordb_chat/pages/2_Chat.py]     (context and messages of a turn),
    - [LearningPhase/vector_storage.py] and
      [LearningPhase/query_and_retrieval.py],

    together with the properties of the specification that concern them.

    Conventions.  Python [int] is [Z].  A Python [str] is a [string] whose
    characters are read as code points below 256.  A raised exception is the
    [Raise] constructor of [result].  Similarity scores (float32 in FAISS)
    are rationals: only their order matters to the code modelled here.
    Paths are the strings that [pathlib] prints. *)

From Stdlib Require Import QArith Ascii.
From stdpp Require Import gmap strings list fin_maps sorting.

Open Scope string_scope.
Open Scope Z_scope.

(** ** Exceptions and results *)

Inductive exn :=
  | ValueError (msg : string)
  | IndexError (msg : string)
  | AssertionError (msg : string)
  | FileNotFoundError (path : string)
  | PermissionError (path : string)
  | JSONDecodeError (msg : string)
  | RuntimeError (msg : string).

Inductive result (A : Type) :=
  | Ok (a : A)
  | Raise (e : exn).
Arguments Ok {A} a.
Arguments Raise {A} e.

#[global] Instance result_ret : MRet result := fun A a => Ok a.

#[global] Instance result_bind : MBind result := fun A B k r =>
  match r with
  | Ok a => k a
  | Raise e => Raise e
  end.

(** [try: r except Exception: h] *)
Definition try_except {A} (r : result A) (h : exn -> result A) : result A :=
  match r with
  | Ok a => Ok a
  | Raise e => h e
  end.

Definition is_ok {A} (r : result A) : bool :=
  match r with Ok _ => true | Raise _ => false end.

(** ** Python built-ins used by the sources *)

Module Py.

Definition len {A} (l : list A) : Z := Z.of_nat (length l).

(** [str.isspace] on one code point below 256: TAB..CR, FS..US, SPACE,
    NEL (0x85) and NBSP (0xA0). *)
Definition is_space (c : ascii) : bool :=
  let n := nat_of_ascii c in
  ((9 <=? n)%nat && (n <=? 13)%nat)
  || ((28 <=? n)%nat && (n <=? 32)%nat)
  || (n =? 133)%nat || (n =? 160)%nat.

Definition is_empty (s : string) : bool :=
  match s with EmptyString => true | String _ _ => false end.

Fixpoint lstrip (s : string) : string :=
  match s with
  | EmptyString => EmptyString
  | String c r => if is_space c then lstrip r else s
  end.

Fixpoint rstrip (s : string) : string :=
  match s with
  | EmptyString => EmptyString
  | String c r =>
      let r' := rstrip r in
      if is_space c && is_empty r' then EmptyString else String c r'
  end.

(** [s.strip()] *)
Definition strip (s : string) : string := rstrip (lstrip s).

(** [str.lower] on one code point below 256: A-Z and the Latin-1 capitals
    0xC0..0xDE (the multiplication sign 0xD7 apart) move up by 32. *)
Definition lower_char (c : ascii) : ascii :=
  let n := nat_of_ascii c in
  if ((65 <=? n)%nat && (n <=? 90)%nat)
     || ((192 <=? n)%nat && (n <=? 222)%nat && negb (n =? 215)%nat)
  then ascii_of_nat (n + 32) else c.

Fixpoint lower (s : string) : string :=
  match s with
  | EmptyString => EmptyString
  | String c r => String (lower_char c) (lower r)
  end.

(** The rest of the string is at a word boundary: it is over, or it goes
    on with whitespace. *)
Definition at_boundary (s : string) : bool :=
  match s with
  | EmptyString => true
  | String c _ => is_space c
  end.

Definition push_char (c : ascii) (closes : bool) (ws : list string)
  : list string :=
  if closes then String c EmptyString :: ws
  else match ws with
       | w :: ws' => String c w :: ws'
       | [] => [String c EmptyString]
       end.

(** [s.split()]: the maximal runs of non-whitespace characters. *)
Fixpoint split (s : string) : list string :=
  match s with
  | EmptyString => []
  | String c r =>
      if is_space c then split r
      else push_char c (at_boundary r) (split r)
  end.

(** [s.split(sep)] for a one-character separator: never the empty list. *)
Fixpoint split_on (sep : ascii) (s : string) : list string :=
  match s with
  | EmptyString => [EmptyString]
  | String c r =>
      if Ascii.eqb c sep then EmptyString :: split_on sep r
      else match split_on sep r with
           | w :: ws => String c w :: ws
           | [] => [String c EmptyString]
           end
  end.

(** [re.sub(p + '+', rep, s)] where [p] matches single characters: every
    maximal run of matching characters becomes one [rep]. *)
Fixpoint re_sub_runs (p : ascii -> bool) (rep : ascii) (in_run : bool)
  (s : string) : string :=
  match s with
  | EmptyString => EmptyString
  | String c r =>
      if p c then
        if in_run then re_sub_runs p rep true r
        else String rep (re_sub_runs p rep true r)
      else String c (re_sub_runs p rep false r)
  end.

(** The line feed, ['\n']. *)
Definition LF : ascii := "010"%char.

(** [sep.join(l)] *)
Definition join (sep : string) (l : list string) : string :=
  String.concat sep l.

(** Where a slice bound lands in a list of [n] elements. *)
Definition clamp (n i : Z) : Z :=
  if i <? 0 then Z.max 0 (i + n) else Z.min i n.

(** [l[start:stop]] *)
Definition slice {A} (l : list A) (start stop : Z) : list A :=
  let n := len l in
  let a := clamp n start in
  let b := clamp n stop in
  take (Z.to_nat (b - a)) (drop (Z.to_nat a) l).

(** [l[i]]: negative positions count from the end. *)
Definition index {A} (l : list A) (i : Z) : result A :=
  let j := if i <? 0 then i + len l else i in
  if (j <? 0) || (len l <=? j) then Raise (IndexError "list index out of range")
  else match l !! Z.to_nat j with
       | Some x => Ok x
       | None => Raise (IndexError "list index out of range")
       end.

(** The [n] values [a], [a + step], [a + 2 step], ... *)
Fixpoint range_from (a step : Z) (n : nat) : list Z :=
  match n with
  | O => []
  | S n' => a :: range_from (a + step) step n'
  end.

(** [range(start, stop, step)] *)
Definition range (start stop step : Z) : result (list Z) :=
  if step =? 0 then Raise (ValueError "range() arg 3 must not be zero")
  else if 0 <? step then
    Ok (range_from start step (Z.to_nat ((stop - start + step - 1) / step)))
  else
    Ok (range_from start step (Z.to_nat ((start - stop - step - 1) / (- step)))).

End Py.

(** ** LearningPhase/chunking_logic.py *)

(** The body of [for i in range(0, total_words, size - overlap)], with its
    [break]. *)
Fixpoint chunk_loop (words : list string) (size total_words : Z)
  (starts : list Z) : list string :=
  match starts with
  | [] => []
  | i :: rest =>
      let chunk_words := Py.slice words i (i + size) in
      let chunk_text := Py.join " " chunk_words in
      chunk_text ::
        (if total_words <=? i + size then []
         else chunk_loop words size total_words rest)
  end.

(** [re.sub(r'\s+', ' ', text).strip()] followed by [.split()] *)
Definition text_words (text : string) : list string :=
  let clean_text := Py.strip (Py.re_sub_runs Py.is_space " " false text) in
  Py.split clean_text.

Definition educational_chunk_logic (text : string) (size overlap : Z)
  : result (list string) :=
  let words := text_words text in
  let total_words := Py.len words in
  starts ← Py.range 0 total_words (size - overlap);
  Ok (chunk_loop words size total_words starts).

(** ** vectordb_chat/utils/text_utils.py *)

(** [not s.strip()] *)
Definition is_blank (s : string) : bool := Py.is_empty (Py.strip s).

Definition clean_text (text : string) : string :=
  let text := Py.re_sub_runs Py.is_space " " false text in
  let text := Py.re_sub_runs (fun c => Ascii.eqb c Py.LF) Py.LF false text in
  Py.strip text.

(** The three locals that the paragraph loop of [chunk_text] updates. *)
Record chunker := {
  chunks : list string;
  current_chunk : list string;
  current_length : Z
}.

Definition is_nil {A} (l : list A) : bool :=
  match l with [] => true | _ :: _ => false end.

Definition word_count (s : string) : Z := Py.len (Py.split s).

Definition sum_Z (l : list Z) : Z := foldr Z.add 0 l.

(** One round of [for para in paragraphs]. *)
Definition chunk_para (chunk_size overlap : Z) (st : chunker) (para : string)
  : result chunker :=
  let para_tokens := word_count para in
  if chunk_size <? para_tokens then
    let words := Py.split para in
    starts ← Py.range 0 (Py.len words) (chunk_size - overlap);
    let pieces :=
      map (fun i => Py.join " " (Py.slice words i (i + chunk_size))) starts in
    Ok {| chunks := (chunks st ++ pieces)%list;
          current_chunk := current_chunk st;
          current_length := current_length st |}
  else
    let st1 :=
      if (chunk_size <? current_length st + para_tokens)
         && negb (is_nil (current_chunk st)) then
        let saved :=
          (chunks st ++ [Py.join (String Py.LF "") (current_chunk st)])%list in
        if (0 <? overlap) && negb (is_nil (current_chunk st)) then
          let cc := current_chunk st in
          let last_sentences :=
            if 2 <=? Py.len cc then Py.slice cc (-2) (Py.len cc)
            else Py.slice cc (-1) (Py.len cc) in
          {| chunks := saved;
             current_chunk := last_sentences;
             current_length := sum_Z (map word_count last_sentences) |}
        else
          {| chunks := saved; current_chunk := []; current_length := 0 |}
      else st in
    Ok {| chunks := chunks st1;
          current_chunk := (current_chunk st1 ++ [para])%list;
          current_length := current_length st1 + para_tokens |}.

Fixpoint chunk_paras (chunk_size overlap : Z) (st : chunker)
  (paragraphs : list string) : result chunker :=
  match paragraphs with
  | [] => Ok st
  | para :: rest =>
      st' ← chunk_para chunk_size overlap st para;
      chunk_paras chunk_size overlap st' rest
  end.

Definition chunk_text (text : string) (chunk_size overlap : Z)
  : result (list string) :=
  if Py.is_empty text || is_blank text then Ok []
  else
    let text := clean_text text in
    let paragraphs :=
      map Py.strip
        (List.filter (fun p => negb (is_blank p)) (Py.split_on Py.LF text)) in
    st ← chunk_paras chunk_size overlap
           {| chunks := []; current_chunk := []; current_length := 0 |}
           paragraphs;
    if negb (is_nil (current_chunk st)) then
      Ok (chunks st ++ [Py.join (String Py.LF "") (current_chunk st)])%list
    else Ok (chunks st).

(** ** Sorting by score

    [list.sort(key=..., reverse=True)] is stable: items of equal key keep
    their order.  [insert_desc] puts [x], which came before every item of
    [l], in front of the first item whose key does not exceed its own. *)

Fixpoint insert_desc {A} (key : A -> Q) (x : A) (l : list A) : list A :=
  match l with
  | [] => [x]
  | y :: l' =>
      if Qle_bool (key y) (key x) then x :: l
      else y :: insert_desc key x l'
  end.

Definition sort_desc {A} (key : A -> Q) (l : list A) : list A :=
  foldr (insert_desc key) [] l.

(** ** The FAISS flat inner-product index, as the sources use it *)

Module Faiss.

Record index := {
  d : nat;                 (* dimension *)
  xb : list (list Q)       (* the stored vectors, in insertion order *)
}.

Definition ntotal (ix : index) : Z := Py.len (xb ix).

(** [faiss.IndexFlatIP(dimension)] *)
Definition IndexFlatIP (dimension : nat) : index :=
  {| d := dimension; xb := [] |}.

(** [index.add(x)]: the wrapper asserts that the rows have the width of
    the index. *)
Definition add (ix : index) (x : list (list Q)) : result index :=
  if forallb (fun v => (length v =? d ix)%nat) x
  then Ok {| d := d ix; xb := (xb ix ++ x)%list |}
  else Raise (AssertionError "d == self.d").

(** Vectors and scores are rationals and the product is exact.  FAISS
    computes in float32: a score that it returns is the rounded product,
    and two products that differ by less than the rounding rank as equal.
    The statements below are about the number of the results, their
    labels, their descending order and the unfilled slots, not about the
    value of a score. *)
Definition inner_product (u v : list Q) : Q :=
  foldr Qplus 0%Q (zip_with Qmult u v).

(** The most negative float32, the score of an unfilled result slot. *)
Definition neg_FLT_MAX : Q :=
  (- (340282346638528859811704183484516925440 # 1))%Q.

(** [zip(distances[0], indices[0])] of [index.search(x, k)] for a query
    matrix of one row: the [k] best inner products, best first, each with
    the position of its vector; slots that cannot be filled hold
    [neg_FLT_MAX] and the label [-1].  The order in which FAISS returns
    vectors of equal score is not fixed by its interface and can change
    with [k]; the model takes insertion order, and no general statement
    below says which of two equal scores comes first.  A [k] too large for
    the library to serve is outside the model. *)
Definition search (ix : index) (x : list (list Q)) (k : Z)
  : result (list (Q * Z)) :=
  match x with
  | [v] =>
      if negb (length v =? d ix)%nat then Raise (AssertionError "d == self.d")
      else if negb (0 <? k) then Raise (AssertionError "k > 0")
      else
        let scored :=
          imap (fun i u => (inner_product v u, Z.of_nat i)) (xb ix) in
        let best := take (Z.to_nat k) (sort_desc fst scored) in
        Ok (best ++ replicate (Z.to_nat k - length best) (neg_FLT_MAX, -1))%list
  | _ => Raise (AssertionError "one query row")
  end.

End Faiss.

(** ** The storage root *)

Record title_info := {
  display_name : string;
  index_file : string;
  chunks_file : string;
  chunk_count : Z
}.

(** What a file holds.  The two JSON documents are typed by what the program
    writes: the registry of titles and a list of chunks.  [Garbage] is
    content that neither [json.load] nor [faiss.read_index] accepts;
    [Unreadable] is a file that is there but cannot be opened for reading.
    A JSON document of the one shape at a path where the program expects
    the other is outside this typing: the loaders below refuse it, and no
    statement relies on what they do with it. *)
Inductive file :=
  | RegistryJson (registry : gmap string title_info)
  | ChunksJson (cs : list string)
  | IndexFile (ix : Faiss.index)
  | Garbage (raw : string)
  | Unreadable.

(** An [IndexManager] and the disk under it: the dict [self.titles], the
    files by path, and the paths that the process may neither write nor
    unlink. *)
Record store := {
  titles : gmap string title_info;
  disk : gmap string file;
  locked : gset string
}.

(** A method of [IndexManager]: it returns or raises, and leaves a store. *)
Definition M (A : Type) : Type := store -> result A * store.

#[global] Instance M_ret : MRet M := fun A a st => (Ok a, st).

#[global] Instance M_bind : MBind M := fun A B k m st =>
  match m st with
  | (Ok a, st') => k a st'
  | (Raise e, st') => (Raise e, st')
  end.

Definition raise {A} (e : exn) : M A := fun st => (Raise e, st).

Definition lift {A} (r : result A) : M A := fun st => (r, st).

(** [try: m except Exception as e: h e] *)
Definition try_M {A} (m : M A) (h : exn -> M A) : M A := fun st =>
  match m st with
  | (Ok a, st') => (Ok a, st')
  | (Raise e, st') => h e st'
  end.

Definition exists_file (path : string) (dk : gmap string file) : bool :=
  bool_decide (is_Some (dk !! path)).

(** [json.load] of the registry document at [path]. *)
Definition load_registry (path : string) (dk : gmap string file)
  : result (gmap string title_info) :=
  match dk !! path with
  | None => Raise (FileNotFoundError path)
  | Some (RegistryJson r) => Ok r
  | Some Unreadable => Raise (PermissionError path)
  | Some _ => Raise (JSONDecodeError path)
  end.

(** [json.load] of a chunk list at [path]. *)
Definition load_chunks (path : string) (dk : gmap string file)
  : result (list string) :=
  match dk !! path with
  | None => Raise (FileNotFoundError path)
  | Some (ChunksJson cs) => Ok cs
  | Some Unreadable => Raise (PermissionError path)
  | Some _ => Raise (JSONDecodeError path)
  end.

(** [faiss.read_index(path)] *)
Definition read_index (path : string) (dk : gmap string file)
  : result Faiss.index :=
  match dk !! path with
  | Some (IndexFile ix) => Ok ix
  | _ => Raise (RuntimeError path)
  end.

(** Writing [f] at [path]: [open(path, 'w')] with [json.dump], or
    [faiss.write_index]. *)
Definition write_file (path : string) (f : file) : M unit := fun st =>
  if bool_decide (path ∈ locked st) then (Raise (PermissionError path), st)
  else (Ok (), {| titles := titles st;
                 disk := <[path := f]> (disk st);
                 locked := locked st |}).

(** [path.unlink()] *)
Definition unlink (path : string) : M unit := fun st =>
  if bool_decide (path ∈ locked st) then (Raise (PermissionError path), st)
  else match disk st !! path with
       | None => (Raise (FileNotFoundError path), st)
       | Some _ => (Ok (), {| titles := titles st;
                             disk := delete path (disk st);
                             locked := locked st |})
       end.

Definition get_titles : M (gmap string title_info) := fun st =>
  (Ok (titles st), st).

Definition get_disk : M (gmap string file) := fun st => (Ok (disk st), st).

Definition set_titles (t : gmap string title_info) : M unit := fun st =>
  (Ok (), {| titles := t; disk := disk st; locked := locked st |}).

(** Unfolding the steps of a method in a proof. *)
Ltac unfold_M :=
  unfold mbind, M_bind, mret, M_ret, lift, raise, try_M,
    get_titles, get_disk, set_titles in *.

(** *** pathlib

    The program builds its paths with [pathlib]: [Path(a) / b] parses both
    operands into a root and components, drops the empty components and the
    components [.], lets an absolute [b] replace [a], and [str] prints the
    root and the components joined by slashes.  A path is kept as the
    string that [str] prints, which [Path] parses back into the same path:
    the registry holds such strings, and two of them are the same file when
    they are the same string.  What the file system adds to that (a
    component [..], a symbolic link, a missing directory) is not modelled:
    a path that cannot be written for such a reason is a [locked] path, and
    the statements about two collections ask for keys without a slash. *)

Definition slash : ascii := "/"%char.

(** A component that [pathlib] keeps. *)
Definition is_part (c : string) : bool :=
  negb (Py.is_empty c) && negb (String.eqb c ".").

Definition path_parts (s : string) : list string :=
  List.filter is_part (Py.split_on slash s).

Definition is_absolute (s : string) : bool :=
  match s with
  | String c _ => Ascii.eqb c slash
  | EmptyString => false
  end.

(** The root: one slash, or two when the string starts with exactly two. *)
Definition path_root (s : string) : string :=
  match s with
  | String c1 (String c2 (String c3 _)) =>
      if Ascii.eqb c1 slash then
        if Ascii.eqb c2 slash && negb (Ascii.eqb c3 slash) then "//" else "/"
      else ""
  | String c1 (String c2 EmptyString) =>
      if Ascii.eqb c1 slash then
        if Ascii.eqb c2 slash then "//" else "/"
      else ""
  | String c1 EmptyString => if Ascii.eqb c1 slash then "/" else ""
  | EmptyString => ""
  end.

(** [str(path)] *)
Definition path_str (root : string) (parts : list string) : string :=
  if Py.is_empty root && is_nil parts then "."
  else root ++ Py.join "/" parts.

(** [str(Path(a) / b)] *)
Definition path_join (a b : string) : string :=
  if is_absolute b then path_str (path_root b) (path_parts b)
  else path_str (path_root a) (path_parts a ++ path_parts b)%list.

(** ** vectordb_chat/vectordb/embedder.py and index_manager.py *)

Section IndexManager.

(** The sentence-transformer model is outside the repository:
    [model_encode t] is [self._model.encode(t, normalize_embeddings=True)]
    on one text, and [model_dim] its embedding dimension. *)
Variable model_encode : string -> list Q.
Variable model_dim : nat.

(** The [storage_dir] given to [IndexManager]. *)
Variable storage_dir : string.

Definition faiss_dir : string := path_join storage_dir "faiss".
Definition titles_file : string := path_join storage_dir "titles.json".

(** *** Embedder *)

Definition embed_texts (texts : list string) : list (list Q) :=
  if is_nil texts then []
  else
    let texts :=
      map Py.strip (List.filter (fun text => negb (is_blank text)) texts) in
    if is_nil texts then []
    else map model_encode texts.

Definition embed_query (query : string) : result (list (list Q)) :=
  if Py.is_empty query || is_blank query
  then Raise (ValueError "Query cannot be empty")
  else Ok [model_encode query].

Definition embedding_dim : nat := model_dim.

(** *** IndexManager *)

Definition _load_titles (dk : gmap string file)
  : result (gmap string title_info) :=
  if exists_file titles_file dk then
    try_except (load_registry titles_file dk) (fun e => Ok ∅)
  else Ok ∅.

(** [IndexManager(storage_dir)] over a disk. *)
Definition init (dk : gmap string file) (lk : gset string) : result store :=
  ts ← _load_titles dk;
  Ok {| titles := ts; disk := dk; locked := lk |}.

Definition _save_titles : M unit :=
  ts ← get_titles;
  try_M (write_file titles_file (RegistryJson ts)) (fun e => mret ()).

Definition normalize (title : string) : string := Py.lower (Py.strip title).

Definition create_title (title : string) : M bool :=
  let normalized := normalize title in
  let display_title := Py.strip title in
  ts ← get_titles;
  if bool_decide (is_Some (ts !! normalized)) then mret false
  else
    let index_path := path_join faiss_dir (normalized ++ ".index") in
    let dimension := embedding_dim in
    let index := Faiss.IndexFlatIP dimension in
    _ ← write_file index_path (IndexFile index);
    let chunks_path := path_join faiss_dir (normalized ++ "_chunks.json") in
    _ ← write_file chunks_path (ChunksJson []);
    _ ← set_titles (<[normalized := {| display_name := display_title;
                                       index_file := index_path;
                                       chunks_file := chunks_path;
                                       chunk_count := 0 |}]> ts);
    _ ← _save_titles;
    mret true.

Definition set_chunk_count (n : Z) (info : title_info) : title_info :=
  {| display_name := display_name info;
     index_file := index_file info;
     chunks_file := chunks_file info;
     chunk_count := n |}.

Definition add_documents (title : string) (chunks : list string) : M Z :=
  let normalized := normalize title in
  ts ← get_titles;
  match ts !! normalized with
  | None => raise (ValueError ("Title '" ++ title ++ "' does not exist"))
  | Some info =>
      if is_nil chunks then mret 0
      else
        dk ← get_disk;
        let chunks_path := chunks_file info in
        existing_chunks ← lift (load_chunks chunks_path dk);
        let index_path := index_file info in
        index ← lift (read_index index_path dk);
        let embeddings := embed_texts chunks in
        if Py.len embeddings =? 0 then mret 0
        else
          index ← lift (Faiss.add index embeddings);
          let existing_chunks := (existing_chunks ++ chunks)%list in
          _ ← write_file index_path (IndexFile index);
          _ ← write_file chunks_path (ChunksJson existing_chunks);
          _ ← set_titles
                (alter (set_chunk_count (Py.len existing_chunks)) normalized ts);
          _ ← _save_titles;
          mret (Py.len chunks)
  end.

(** The loop over [zip(distances[0], indices[0])] at the end of
    [search]. *)
Fixpoint collect_results (all_chunks : list string) (hits : list (Q * Z))
  : result (list (string * Q)) :=
  match hits with
  | [] => Ok []
  | (dist, idx) :: rest =>
      if idx <? Py.len all_chunks then
        c ← Py.index all_chunks idx;
        results ← collect_results all_chunks rest;
        Ok ((c, dist) :: results)
      else collect_results all_chunks rest
  end.

Definition search (title query : string) (k : Z) (st : store)
  : result (list (string * Q)) :=
  let normalized := normalize title in
  match titles st !! normalized with
  | None => Raise (ValueError ("Title '" ++ title ++ "' does not exist"))
  | Some info =>
      all_chunks ← load_chunks (chunks_file info) (disk st);
      if is_nil all_chunks then Ok []
      else
        index ← read_index (index_file info) (disk st);
        query_embedding ← embed_query query;
        let k := Z.min k (Py.len all_chunks) in
        hits ← Faiss.search index query_embedding k;
        collect_results all_chunks hits
  end.

Definition get_title_info (title : string) (st : store) : option title_info :=
  titles st !! normalize title.

Definition unlink_if_exists (path : string) : M unit :=
  dk ← get_disk;
  if exists_file path dk then unlink path else mret ().

Definition delete_title (title : string) : M bool :=
  let normalized := normalize title in
  ts ← get_titles;
  match ts !! normalized with
  | None => mret false
  | Some info =>
      try_M
        (let index_path := index_file info in
         let chunks_path := chunks_file info in
         _ ← unlink_if_exists index_path;
         _ ← unlink_if_exists chunks_path;
         _ ← set_titles (delete normalized ts);
         _ ← _save_titles;
         mret true)
        (fun e => mret false)
  end.

End IndexManager.

(** ** vectordb_chat/pages/2_Chat.py: the merge, sort and truncate block *)

Record context_item := {
  title : string;
  chunk : string;
  score : Q
}.

Definition tag (t : string) (r : string * Q) : context_item :=
  {| title := t; chunk := r.1; score := r.2 |}.

(** [for title in selected_titles: try: ... except Exception: st.warning] *)
Fixpoint gather_context (search_title : string -> result (list (string * Q)))
  (selected_titles : list string) : list context_item :=
  match selected_titles with
  | [] => []
  | t :: rest =>
      (match search_title t with
       | Ok results => map (tag t) results
       | Raise e => []
       end ++ gather_context search_title rest)%list
  end.

Definition top_context (search_title : string -> result (list (string * Q)))
  (selected_titles : list string) (k_chunks : Z) : list context_item :=
  let all_context := gather_context search_title selected_titles in
  let all_context := sort_desc score all_context in
  Py.slice all_context 0 k_chunks.

(** The block as the page runs it, over an index manager. *)
Definition chat_context (model_encode : string -> list Q) (st : store)
  (selected_titles : list string) (prompt : string) (k_chunks : Z)
  : list context_item :=
  top_context (fun t => search model_encode t prompt k_chunks st)
    selected_titles k_chunks.

(** *** The messages of a turn (2_Chat.py, the chat input block) *)

Record message := {
  role : string;
  content : string
}.

Definition user_message (c : string) : message :=
  {| role := "user"; content := c |}.

Definition system_msg : message :=
  {| role := "system";
     content := "You are a helpful assistant. Use the provided context to answer the user's question accurately. If the answer is not in the context, say you don't know." |}.

(** The join of the lines ['- ' + c.strip()] with line feeds. *)
Definition context_str (context_chunks : list string) : string :=
  Py.join (String Py.LF "") (map (fun c => "- " ++ Py.strip c) context_chunks).

Definition user_content (context_chunks : list string) (prompt : string)
  : string :=
  "Context:" ++ String Py.LF "" ++ context_str context_chunks
    ++ String Py.LF (String Py.LF "") ++ "Question: " ++ prompt.

(** The list handed to [chat_stream]: the system message, the last four
    messages of the conversation history, and the question with its
    context. *)
Definition chat_messages (conversation_history : list message)
  (top_context : list context_item) (prompt : string) : list message :=
  let context_chunks := map chunk top_context in
  let messages := [system_msg] in
  let messages :=
    if is_nil conversation_history then messages
    else (messages
          ++ Py.slice conversation_history (-4) (Py.len conversation_history))%list in
  (messages ++ [user_message (user_content context_chunks prompt)])%list.

(** One turn up to the call of the model: the page stops when no title is
    selected; it appends the prompt to the conversation history, gathers
    the context, stops when there is none, and builds the messages.  The
    result is the history it leaves and the messages it sends, if any. *)
Definition chat_turn (model_encode : string -> list Q) (st : store)
  (selected_titles : list string) (k_chunks : Z)
  (conversation_history : list message) (prompt : string)
  : list message * option (list message) :=
  if is_nil selected_titles then (conversation_history, None)
  else
    let conversation_history :=
      (conversation_history ++ [user_message prompt])%list in
    let top_context :=
      chat_context model_encode st selected_titles prompt k_chunks in
    if is_nil top_context then (conversation_history, None)
    else (conversation_history,
          Some (chat_messages conversation_history top_context prompt)).

(** ** LearningPhase/vector_storage.py *)

Module EducationalVectorDB.

(** A result of [search_nearest], a dict with the keys [text] and
    [similarity]. *)
Record hit := {
  text : string;
  similarity : Q
}.

Record t := {
  index : Faiss.index;
  chunk_repository : list string
}.

(** [EducationalVectorDB(dimension)] *)
Definition init (dimension : nat) : t :=
  {| index := Faiss.IndexFlatIP dimension; chunk_repository := [] |}.

(** [add_data] extends the repository, then adds to the index: the
    repository is extended also when the index refuses the vectors. *)
Definition add_data (chunks : list string) (vectors : list (list Q)) (db : t)
  : result unit * t :=
  let db := {| index := index db;
               chunk_repository := (chunk_repository db ++ chunks)%list |} in
  match Faiss.add (index db) vectors with
  | Ok ix => (Ok (), {| index := ix; chunk_repository := chunk_repository db |})
  | Raise e => (Raise e, db)
  end.

(** The loop over [zip(D[0], I[0])]: [self.chunk_repository[idx]] for every
    label, with no test of the label. *)
Fixpoint results_of (chunk_repository : list string) (hits : list (Q * Z))
  : result (list hit) :=
  match hits with
  | [] => Ok []
  | (distance, idx) :: rest =>
      text ← Py.index chunk_repository idx;
      results ← results_of chunk_repository rest;
      Ok ({| text := text; similarity := distance |} :: results)
  end.

Definition search_nearest (query_vector : list Q) (top_k : Z) (db : t)
  : result (list hit) :=
  hits ← Faiss.search (index db) [query_vector] top_k;
  results_of (chunk_repository db) hits.

End EducationalVectorDB.

(** ** LearningPhase/query_and_retrieval.py

    [create_vector] is the embedder of the flow.  The scores are float32
    values, and no float32 value lies between [0.4] and the double the
    source compares with, so the comparison is the one with [4/10]. *)
Definition educational_retrieval_flow (create_vector : string -> list Q)
  (user_query : string) (vector_db : EducationalVectorDB.t) (k : Z)
  : result string :=
  let query_vector := create_vector user_query in
  raw_results ← EducationalVectorDB.search_nearest query_vector k vector_db;
  let filtered_context :=
    map EducationalVectorDB.text
      (List.filter
         (fun res => negb (Qle_bool (EducationalVectorDB.similarity res) (4 # 10)))
         raw_results) in
  Ok (Py.join (String Py.LF (String Py.LF "")) filtered_context).

(** ** Vocabulary of the statements *)

(** *** Texts and words *)

(** Every character of [s] is whitespace (so also: [s] is empty). *)
Fixpoint whitespace_only (s : string) : bool :=
  match s with
  | EmptyString => true
  | String c r => Py.is_space c && whitespace_only r
  end.

Fixpoint no_space (s : string) : bool :=
  match s with
  | EmptyString => true
  | String c r => negb (Py.is_space c) && no_space r
  end.

(** A word: not empty, and without whitespace. *)
Definition is_word (w : string) : Prop :=
  Py.is_empty w = false /\ no_space w = true.

(** The character [x] does not occur in [s]. *)
Fixpoint lacks (x : ascii) (s : string) : bool :=
  match s with
  | EmptyString => true
  | String c r => negb (Ascii.eqb c x) && lacks x r
  end.

(** [s] does not begin with whitespace. *)
Definition clean_start (s : string) : bool :=
  match s with
  | EmptyString => true
  | String c _ => negb (Py.is_space c)
  end.

(** The word windows that [chunk_loop] joins into chunks. *)
Fixpoint window_loop (words : list string) (size total_words : Z)
  (starts : list Z) : list (list string) :=
  match starts with
  | [] => []
  | i :: rest =>
      Py.slice words i (i + size) ::
        (if total_words <=? i + size then []
         else window_loop words size total_words rest)
  end.

(** *** Vectors and stores *)

(** A file that [open] or [json.load] refuses: it cannot be read, or what it
    holds (arbitrary bytes, a binary index) is not JSON. *)
Definition unparsable (f : file) : bool :=
  match f with
  | Garbage _ | Unreadable | IndexFile _ => true
  | RegistryJson _ | ChunksJson _ => false
  end.

(** A vector of Euclidean norm one. *)
Definition unit_norm (v : list Q) : Prop :=
  (Faiss.inner_product v v == 1)%Q.

(** Every registered title keeps its two files where [create_title] put
    them. *)
Definition store_wf (storage_dir : string) (st : store) : Prop :=
  forall key info, titles st !! key = Some info ->
    index_file info = path_join (faiss_dir storage_dir) (key ++ ".index") /\
    chunks_file info = path_join (faiss_dir storage_dir) (key ++ "_chunks.json").

(** A key without a slash: the one file name that [create_title] makes of
    it is one path component. *)
Definition plain_key (key : string) : Prop := lacks slash key = true.

(** The stores that calls of the public methods reach from a manager over
    an empty registry. *)
Inductive reachable (model_encode : string -> list Q) (model_dim : nat)
  (sd : string) : store -> Prop :=
  | reach_init dk lk :
      _load_titles sd dk = Ok ∅ ->
      reachable model_encode model_dim sd
        {| titles := ∅; disk := dk; locked := lk |}
  | reach_create st title :
      reachable model_encode model_dim sd st ->
      reachable model_encode model_dim sd (create_title model_dim sd title st).2
  | reach_add st title chunks :
      reachable model_encode model_dim sd st ->
      reachable model_encode model_dim sd
        (add_documents model_encode sd title chunks st).2
  | reach_delete st title :
      reachable model_encode model_dim sd st ->
      reachable model_encode model_dim sd (delete_title sd title st).2.

(** Every registered key is without a slash. *)
Definition plain_store (st : store) : Prop :=
  forall key info, titles st !! key = Some info -> plain_key key.

(** The stores reached in that way when every title that is created has a
    key without a slash. *)
Inductive reachable_plain (model_encode : string -> list Q) (model_dim : nat)
  (sd : string) : store -> Prop :=
  | plain_init dk lk :
      _load_titles sd dk = Ok ∅ ->
      reachable_plain model_encode model_dim sd
        {| titles := ∅; disk := dk; locked := lk |}
  | plain_create st title :
      reachable_plain model_encode model_dim sd st ->
      plain_key (normalize title) ->
      reachable_plain model_encode model_dim sd
        (create_title model_dim sd title st).2
  | plain_add st title chunks :
      reachable_plain model_encode model_dim sd st ->
      reachable_plain model_encode model_dim sd
        (add_documents model_encode sd title chunks st).2
  | plain_delete st title :
      reachable_plain model_encode model_dim sd st ->
      reachable_plain model_encode model_dim sd (delete_title sd title st).2.

(** The number of vectors in the index of [key] and the number of chunks in
    its chunk list, read back from the disk. *)
Definition stored_counts (st : store) (key : string) : option (Z * Z) :=
  match titles st !! key with
  | Some info =>
      match read_index (index_file info) (disk st),
            load_chunks (chunks_file info) (disk st) with
      | Ok ix, Ok cs => Some (Faiss.ntotal ix, Py.len cs)
      | _, _ => None
      end
  | None => None
  end.

(** [n] calls of [delete_title] in a row: what they return, and the store
    they leave. *)
Fixpoint delete_times (storage_dir : string) (n : nat) (title : string)
  (st : store) : list (result bool) * store :=
  match n with
  | O => ([], st)
  | S n' =>
      let '(r, st') := delete_title storage_dir title st in
      let '(rs, st'') := delete_times storage_dir n' title st' in
      (r :: rs, st'')
  end.

(** What [_save_titles] leaves on the disk. *)
Definition saved (sd : string) (ts : gmap string title_info)
  (lk : gset string) (dk : gmap string file) : gmap string file :=
  if bool_decide (titles_file sd ∈ lk) then dk
  else <[titles_file sd := RegistryJson ts]> dk.

(** Every title is registered under the key of its display name. *)
Definition names_ok (st : store) : Prop :=
  forall key info, titles st !! key = Some info ->
    normalize (display_name info) = key.

(** The two files of a collection load; the index has the dimension [dim]
    and one vector for every stored chunk that is not blank; the registry
    entry counts the stored chunks. *)
Definition collection_ok (dim : nat) (st : store) (info : title_info) : Prop :=
  exists cs ix,
    load_chunks (chunks_file info) (disk st) = Ok cs /\
    read_index (index_file info) (disk st) = Ok ix /\
    Faiss.d ix = dim /\
    Faiss.ntotal ix
      = Py.len (List.filter (fun c => negb (is_blank c)) cs) /\
    chunk_count info = Py.len cs.

Definition store_sound (dim : nat) (sd : string) (st : store) : Prop :=
  store_wf sd st /\
  forall key info, titles st !! key = Some info -> collection_ok dim st info.

(** The chunks of a list that are not blank. *)
Definition not_blank (cs : list string) : list string :=
  List.filter (fun c => negb (is_blank c)) cs.

(** [x] before [y] in a list of results ranked by descending score. *)
Definition result_ge (x y : string * Q) : Prop := (y.2 <= x.2)%Q.

(** *** The merge *)

(** The results of one collection, tagged; none if its search raised. *)
Definition tagged_results (search_title : string -> result (list (string * Q)))
  (t : string) : list context_item :=
  match search_title t with
  | Ok results => map (tag t) results
  | Raise e => []
  end.

(** [x] before [y] in a list sorted by descending score. *)
Definition score_ge (x y : context_item) : Prop := (score y <= score x)%Q.

(** ** Concrete inputs for the examples *)

(** A toy model of dimension two. *)
Definition toy_encode (t : string) : list Q :=
  if String.eqb t "beta" then [0%Q; 1%Q] else [1%Q; 0%Q].

(** A new manager over an empty disk. *)
Definition fresh_store : store :=
  {| titles := ∅; disk := ∅; locked := ∅ |}.

(** The collection [docs], new. *)
Definition docs_store : store := (create_title 2 "storage" " Docs " fresh_store).2.

(** [docs] after [add_documents("docs", ["alpha", " "])]. *)
Definition docs_blank_store : store :=
  (add_documents toy_encode "storage" "docs" ["alpha"; " "] docs_store).2.

(** [docs] holding three chunks. *)
Definition docs3_store : store :=
  (add_documents toy_encode "storage" "docs" ["alpha"; "beta"; "gamma"]
     docs_store).2.

(** Two collections, [docs] holding two chunks and [notes] none. *)
Definition two_store : store :=
  (create_title 2 "storage" "Notes"
     (add_documents toy_encode "storage" "docs" ["alpha"; "beta"] docs_store).2).2.

(** The collections [x] and [./x], created in this order. *)
Definition alias_store : store :=
  (create_title 2 "storage" "./x"
     (create_title 2 "storage" "x" fresh_store).2).2.

(** [docs] created and deleted again. *)
Definition deleted_store : store :=
  (delete_title "storage" "Docs" docs_store).2.

(** Three collections [A], [B] and [C] whose searches return two results
    each, with the scores [0.9, 0.7], [0.85, 0.3] and [0.6, 0.5]; any other
    title is not registered. *)
Definition three_collections (t : string) : result (list (string * Q)) :=
  if String.eqb t "A" then Ok [("a1", 0.9%Q); ("a2", 0.7%Q)]
  else if String.eqb t "B" then Ok [("b1", 0.85%Q); ("b2", 0.3%Q)]
  else if String.eqb t "C" then Ok [("c1", 0.6%Q); ("c2", 0.5%Q)]
  else Raise (ValueError "Title does not exist").

(** A vector store of dimension two holding two chunks. *)
Definition toy_db : EducationalVectorDB.t :=
  (EducationalVectorDB.add_data ["alpha"; "beta"] [[1%Q; 0%Q]; [0%Q; 1%Q]]
     (EducationalVectorDB.init 2)).2.

(** * Properties *)

(** ** Slices and ranges *)

Section PyFacts.
Context {A : Type}.
Implicit Types l : list A.

Lemma len_nonneg l : 0 <= Py.len l.
Proof. unfold Py.len. lia. Qed.

Lemma len_nil_iff l : Py.len l = 0 <-> l = [].
Proof.
  unfold Py.len. destruct l; simpl; split; intros; try done; lia.
Qed.

(** With bounds that are not negative a slice is a [take] of a [drop]. *)
Lemma slice_take_drop l a b :
  0 <= a -> a <= b ->
  Py.slice l a b = take (Z.to_nat (b - a)) (drop (Z.to_nat a) l).
Proof.
  intros Ha Hab. unfold Py.slice, Py.clamp, Py.len.
  destruct (Z.ltb_spec a 0) as [?|_]; [lia|].
  destruct (Z.ltb_spec b 0) as [?|_]; [lia|].
  destruct (Z.le_gt_cases (Z.of_nat (length l)) a) as [Hge|Hlt].
  - rewrite !drop_ge by lia. by rewrite !take_nil.
  - rewrite (Z.min_l a) by lia.
    destruct (Z.le_gt_cases b (Z.of_nat (length l))) as [Hb|Hb].
    + by rewrite Z.min_l by lia.
    + rewrite Z.min_r by lia.
      rewrite !take_ge; [done| |]; rewrite length_drop; lia.
Qed.

Lemma slice_length_le l a b :
  0 <= a -> a <= b -> Py.len (Py.slice l a b) <= b - a.
Proof.
  intros Ha Hab. rewrite slice_take_drop by done.
  unfold Py.len. rewrite length_take. lia.
Qed.

Lemma slice_length_full l a b :
  0 <= a -> a <= b -> b <= Py.len l -> Py.len (Py.slice l a b) = b - a.
Proof.
  intros Ha Hab Hb. rewrite slice_take_drop by done.
  unfold Py.len in *. rewrite length_take, length_drop. lia.
Qed.

Lemma slice_Forall (P : A -> Prop) l a b :
  Forall P l -> Forall P (Py.slice l a b).
Proof. intros H. unfold Py.slice. by apply Forall_take, Forall_drop. Qed.

(** Two windows of [s] elements whose starts are [s - o] apart: the last
    [o] elements of the first are the first [o] elements of the second. *)
Lemma slice_overlap l p s o :
  0 <= p -> 0 <= o -> o < s ->
  take (Z.to_nat o) (Py.slice l (p + s - o) (p + s - o + s))
  = drop (Z.to_nat (s - o)) (Py.slice l p (p + s)).
Proof.
  intros Hp Ho Hos. rewrite !slice_take_drop by lia.
  rewrite take_take, skipn_firstn_comm, drop_drop.
  f_equal; [lia|]. f_equal. lia.
Qed.

End PyFacts.

Lemma range_from_length a step n : length (Py.range_from a step n) = n.
Proof. revert a. induction n as [|n IH]; intros a; simpl; [done|]. by rewrite IH. Qed.

(** A positive step over a non-empty span starts at [start]. *)
Lemma range_pos_head stop step :
  0 < stop -> 0 < step ->
  exists n, Py.range 0 stop step = Ok (Py.range_from 0 step (S n)).
Proof.
  intros Hstop Hstep. unfold Py.range.
  destruct (Z.eqb_spec step 0) as [?|_]; [lia|].
  destruct (Z.ltb_spec 0 step) as [_|?]; [|lia].
  assert (1 <= (stop - 0 + step - 1) / step) as Hq.
  { apply Z.div_le_lower_bound; lia. }
  exists (Nat.pred (Z.to_nat ((stop - 0 + step - 1) / step))).
  do 2 f_equal. lia.
Qed.

(** ** Words of a text *)

Lemma split_lstrip s : Py.split (Py.lstrip s) = Py.split s.
Proof.
  induction s as [|c r IH]; simpl; [done|].
  destruct (Py.is_space c) eqn:Hc; [done|]. simpl. by rewrite Hc.
Qed.

Lemma at_boundary_rstrip s : Py.at_boundary (Py.rstrip s) = Py.at_boundary s.
Proof.
  destruct s as [|c r]; simpl; [done|].
  destruct (Py.is_space c) eqn:Hc; simpl; [|done].
  destruct (Py.is_empty (Py.rstrip r)); simpl; done.
Qed.

Lemma split_rstrip s : Py.split (Py.rstrip s) = Py.split s.
Proof.
  induction s as [|c r IH]; simpl; [done|].
  destruct (Py.is_space c) eqn:Hc; simpl.
  - destruct (Py.is_empty (Py.rstrip r)) eqn:He; simpl.
    + rewrite <- IH. by destruct (Py.rstrip r).
    + by rewrite Hc.
  - by rewrite Hc, at_boundary_rstrip, IH.
Qed.

Lemma split_strip s : Py.split (Py.strip s) = Py.split s.
Proof. unfold Py.strip. by rewrite split_rstrip, split_lstrip. Qed.

Lemma at_boundary_collapse s :
  Py.at_boundary (Py.re_sub_runs Py.is_space " " false s) = Py.at_boundary s.
Proof.
  destruct s as [|c r]; simpl; [done|].
  destruct (Py.is_space c) eqn:Hc; simpl; done.
Qed.

Lemma split_collapse b s :
  Py.split (Py.re_sub_runs Py.is_space " " b s) = Py.split s.
Proof.
  revert b. induction s as [|c r IH]; intros b; simpl; [done|].
  destruct (Py.is_space c) eqn:Hc.
  - destruct b; simpl; by rewrite IH.
  - simpl. by rewrite Hc, at_boundary_collapse, IH.
Qed.

(** Cleaning a text does not change its words. *)
Lemma text_words_split text : text_words text = Py.split text.
Proof. unfold text_words. by rewrite split_strip, split_collapse. Qed.

Lemma split_words s : Forall is_word (Py.split s).
Proof.
  induction s as [|c r IH]; simpl; [constructor|].
  destruct (Py.is_space c) eqn:Hc; [done|].
  unfold Py.push_char. destruct (Py.at_boundary r).
  - constructor; [|done]. split; simpl; [done|]. by rewrite Hc.
  - destruct (Py.split r) as [|w ws].
    + constructor; [|done]. split; simpl; [done|]. by rewrite Hc.
    + inversion IH as [|? ? [_ Hw] Hws]; subst.
      constructor; [|done]. split; simpl; [done|]. by rewrite Hc, Hw.
Qed.

Lemma split_word_then w rest :
  is_word w ->
  Py.split (w ++ String " " rest) = w :: Py.split rest.
Proof.
  intros [Hne Hns]. induction w as [|c w IH]; [done|].
  simpl in *. apply andb_prop in Hns as [Hc Hw].
  apply negb_true_iff in Hc. rewrite Hc.
  destruct w as [|c' w'].
  - simpl. done.
  - rewrite IH by done. simpl in Hw. apply andb_prop in Hw as [Hc' _].
    apply negb_true_iff in Hc'. simpl. by rewrite Hc'.
Qed.

Lemma split_one_word w : is_word w -> Py.split w = [w].
Proof.
  intros [Hne Hns]. induction w as [|c w IH]; [done|].
  simpl in *. apply andb_prop in Hns as [Hc Hw].
  apply negb_true_iff in Hc. rewrite Hc.
  destruct w as [|c' w']; [done|].
  rewrite IH by done. simpl in Hw. apply andb_prop in Hw as [Hc' _].
  apply negb_true_iff in Hc'. simpl. by rewrite Hc'.
Qed.

(** Joining words with one space and splitting again gives the words. *)
Lemma split_join ws :
  Forall is_word ws -> Py.split (Py.join " " ws) = ws.
Proof.
  induction 1 as [|w ws Hw Hws IH]; [done|].
  unfold Py.join in *. simpl. destruct ws as [|w' ws'].
  - by apply split_one_word.
  - change (" " ++ ?r) with (String " " r).
    rewrite split_word_then by done. by rewrite IH.
Qed.

(** Every sequence of words is the word sequence of a text. *)
Lemma text_words_join ws : Forall is_word ws -> text_words (Py.join " " ws) = ws.
Proof. intros H. by rewrite text_words_split, split_join. Qed.

(** ** The word-window chunker *)

Lemma chunk_loop_windows words size total starts :
  chunk_loop words size total starts
  = map (Py.join " ") (window_loop words size total starts).
Proof.
  induction starts as [|i rest IH]; simpl; [done|].
  f_equal. destruct (total <=? i + size); [done|]. apply IH.
Qed.

Lemma window_loop_Forall (P : list string -> Prop) words size total starts :
  Forall (fun i => P (Py.slice words i (i + size))) starts ->
  Forall P (window_loop words size total starts).
Proof.
  induction 1 as [|i rest Hi Hrest IH]; simpl; [constructor|].
  constructor; [done|]. destruct (total <=? i + size); [constructor|done].
Qed.

Lemma range_from_ge a step n :
  0 <= a -> 0 <= step -> Forall (fun i => 0 <= i) (Py.range_from a step n).
Proof.
  revert a. induction n as [|n IH]; intros a Ha Hs; simpl; constructor; [done|].
  apply IH; lia.
Qed.

(** Two neighbours in the output come from two neighbouring starts, and the
    loop went on after the first of them. *)
Lemma window_loop_neighbours words size total step a n i w1 w2 :
  0 <= a -> 0 <= step ->
  window_loop words size total (Py.range_from a step n) !! i = Some w1 ->
  window_loop words size total (Py.range_from a step n) !! S i = Some w2 ->
  exists p, 0 <= p /\ p + size < total /\
    w1 = Py.slice words p (p + size) /\
    w2 = Py.slice words (p + step) (p + step + size).
Proof.
  intros Ha Hstep. revert a Ha i w1 w2.
  induction n as [|n IH]; intros a Ha i w1 w2; [done|].
  simpl. destruct (Z.leb_spec total (a + size)) as [Hbreak|Hgo].
  - destruct i; simpl; done.
  - destruct i as [|i]; simpl.
    + intros [= <-] H2. exists a. split_and!; [lia..|done|].
      destruct n as [|n]; simpl in H2; [done|]. by injection H2 as <-.
    + intros H1 H2. apply (IH (a + step)) with (i := i); [lia|done..].
Qed.

Section Windows.
Variables (text : string) (size overlap : Z).
Hypothesis some_words : text_words text <> [].
Hypothesis overlap_nonneg : 0 <= overlap.
Hypothesis overlap_lt_size : overlap < size.

Let words := text_words text.
Let total := Py.len words.

Lemma words_are_words : Forall is_word words.
Proof. unfold words. rewrite text_words_split. apply split_words. Qed.

Lemma total_pos : 0 < total.
Proof.
  unfold total. pose proof (len_nonneg words).
  destruct (Z.eq_dec (Py.len words) 0) as [H0|]; [|lia].
  by apply len_nil_iff in H0.
Qed.

Lemma chunker_runs :
  exists n,
    educational_chunk_logic text size overlap
    = Ok (map (Py.join " ")
            (window_loop words size total
               (Py.range_from 0 (size - overlap) (S n)))).
Proof.
  destruct (range_pos_head total (size - overlap)) as [n Hn];
    [apply total_pos|lia|].
  exists n. unfold educational_chunk_logic. fold words. fold total.
  rewrite Hn. unfold mbind, result_bind. by rewrite chunk_loop_windows.
Qed.

End Windows.

Lemma map_fmap {A B} (f : A -> B) (l : list A) : map f l = f <$> l.
Proof. reflexivity. Qed.

(** C2.  For a text with at least one word and [0 <= overlap < size], the
    word-window chunker returns at least one chunk; every chunk has at most
    [size] words; and of two consecutive chunks the first is a full window
    of [size] words starting at some position [p] of the word sequence, the
    second starts [size - overlap] words later, so that the last [overlap]
    words of the first are exactly the first [overlap] words of the
    second. *)
Theorem educational_chunk_logic_windows (text : string) (size overlap : Z) :
  text_words text <> [] -> 0 <= overlap < size ->
  exists chunks,
    educational_chunk_logic text size overlap = Ok chunks /\
    chunks <> [] /\
    Forall (fun c => word_count c <= size) chunks /\
    forall (i : nat) (c1 c2 : string),
      chunks !! i = Some c1 -> chunks !! S i = Some c2 ->
      word_count c1 = size /\
      take (Z.to_nat overlap) (Py.split c2)
        = drop (Z.to_nat (size - overlap)) (Py.split c1) /\
      Py.len (take (Z.to_nat overlap) (Py.split c2)) = overlap /\
      exists p, 0 <= p /\ p + size < Py.len (text_words text) /\
        Py.split c1 = Py.slice (text_words text) p (p + size) /\
        Py.split c2 = Py.slice (text_words text)
                        (p + size - overlap) (p + size - overlap + size).
Proof.
  intros Hwords [Ho Hos].
  destruct (chunker_runs text size overlap Hwords Hos) as [n Hrun].
  pose proof (words_are_words text) as Hww.
  eexists. split; [exact Hrun|]. split; [done|]. split.
  - rewrite map_fmap. apply Forall_fmap. apply window_loop_Forall.
    eapply Forall_impl; [apply (range_from_ge 0 (size - overlap)); lia|].
    intros i Hi. simpl. unfold word_count.
    rewrite split_join by by apply slice_Forall.
    pose proof (slice_length_le (text_words text) i (i + size)).
    unfold Py.len in *. lia.
  - intros i c1 c2 H1 H2. rewrite map_fmap in H1, H2.
    apply list_lookup_fmap_Some in H1 as (w1 & -> & H1).
    apply list_lookup_fmap_Some in H2 as (w2 & -> & H2).
    destruct (window_loop_neighbours (text_words text) size
                (Py.len (text_words text)) (size - overlap) 0 (S n) i w1 w2)
      as (p & Hp & Hfull & -> & ->); [lia|lia|exact H1|exact H2|].
    replace (p + (size - overlap)) with (p + size - overlap) by lia.
    unfold word_count. rewrite !split_join by by apply slice_Forall.
    assert (Py.len (Py.slice (text_words text) p (p + size)) = size) as Hlen.
    { rewrite slice_length_full; lia. }
    split_and!.
    + done.
    + by apply slice_overlap.
    + rewrite slice_overlap by lia. unfold Py.len in *.
      rewrite length_drop. lia.
    + exists p. split_and!; done.
Qed.

(** The statement at a text of seven words, windows of three, overlap one. *)
Lemma educational_chunk_logic_windows_witness :
  text_words "a b  c d e f g" <> [] /\ 0 <= 1 < 3 /\
  exists chunks,
    educational_chunk_logic "a b  c d e f g" 3 1 = Ok chunks /\
    chunks <> [] /\
    Forall (fun c => word_count c <= 3) chunks /\
    forall (i : nat) (c1 c2 : string),
      chunks !! i = Some c1 -> chunks !! S i = Some c2 ->
      word_count c1 = 3 /\
      take (Z.to_nat 1) (Py.split c2)
        = drop (Z.to_nat (3 - 1)) (Py.split c1) /\
      Py.len (take (Z.to_nat 1) (Py.split c2)) = 1 /\
      exists p, 0 <= p /\ p + 3 < Py.len (text_words "a b  c d e f g") /\
        Py.split c1 = Py.slice (text_words "a b  c d e f g") p (p + 3) /\
        Py.split c2 = Py.slice (text_words "a b  c d e f g")
                        (p + 3 - 1) (p + 3 - 1 + 3).
Proof.
  split; [by vm_compute|]. split; [lia|].
  apply (educational_chunk_logic_windows "a b  c d e f g" 3 1);
    [by vm_compute|lia].
Defined.

Example educational_chunk_logic_seven_words :
  educational_chunk_logic "a b  c d e f g" 3 1 = Ok ["a b c"; "c d e"; "e f g"].
Proof. reflexivity. Qed.

(** ** Blank texts *)

Lemma is_empty_true s : Py.is_empty s = true <-> s = "".
Proof. destruct s; simpl; split; intros; done. Qed.

Lemma whitespace_only_lstrip s :
  whitespace_only (Py.lstrip s) = whitespace_only s.
Proof.
  induction s as [|c r IH]; simpl; [done|].
  destruct (Py.is_space c) eqn:Hc; simpl; [done|]. by rewrite Hc.
Qed.

Lemma rstrip_empty s :
  Py.is_empty (Py.rstrip s) = whitespace_only s.
Proof.
  induction s as [|c r IH]; simpl; [done|].
  rewrite <- IH. destruct (Py.is_space c), (Py.is_empty (Py.rstrip r)); done.
Qed.

(** [not s.strip()] says that [s] holds whitespace only. *)
Lemma is_blank_whitespace_only s : is_blank s = whitespace_only s.
Proof.
  unfold is_blank, Py.strip. by rewrite rstrip_empty, whitespace_only_lstrip.
Qed.

Lemma split_nil s : is_nil (Py.split s) = whitespace_only s.
Proof.
  induction s as [|c r IH]; simpl; [done|].
  destruct (Py.is_space c); simpl; [done|].
  unfold Py.push_char. destruct (Py.at_boundary r); [done|].
  by destruct (Py.split r).
Qed.

Lemma empty_is_blank s : Py.is_empty s = true -> is_blank s = true.
Proof. intros ->%is_empty_true. done. Qed.

(** ** Non-positive steps *)

Lemma range_zero_step start stop :
  Py.range start stop 0 = Raise (ValueError "range() arg 3 must not be zero").
Proof. reflexivity. Qed.

Lemma range_neg_step stop step :
  0 <= stop -> step < 0 -> Py.range 0 stop step = Ok [].
Proof.
  intros Hstop Hstep. unfold Py.range.
  destruct (Z.eqb_spec step 0) as [?|_]; [lia|].
  destruct (Z.ltb_spec 0 step) as [?|_]; [lia|].
  assert ((0 - stop - step - 1) / - step <= 0) as Hq.
  { destruct (Z.le_gt_cases 0 (0 - stop - step - 1)).
    - rewrite Z.div_small; lia.
    - apply Z.lt_le_incl, Z.div_lt_upper_bound; lia. }
  replace (Z.to_nat _) with 0%nat by lia. done.
Qed.

Lemma educational_chunk_logic_zero_step text size overlap :
  size - overlap = 0 ->
  educational_chunk_logic text size overlap
  = Raise (ValueError "range() arg 3 must not be zero").
Proof. intros H. unfold educational_chunk_logic. by rewrite H. Qed.

Lemma educational_chunk_logic_neg_step text size overlap :
  size - overlap < 0 -> educational_chunk_logic text size overlap = Ok [].
Proof.
  intros H. unfold educational_chunk_logic.
  rewrite range_neg_step; [done|apply len_nonneg|done].
Qed.

(** ** The paragraph-aware chunker sees one paragraph *)

Lemma collapse_lacks_LF b s :
  lacks Py.LF (Py.re_sub_runs Py.is_space " " b s) = true.
Proof.
  revert b. induction s as [|c r IH]; intros b; simpl; [done|].
  destruct (Py.is_space c) eqn:Hc.
  - destruct b; simpl; by rewrite IH.
  - simpl. rewrite IH. destruct (Ascii.eqb_spec c Py.LF) as [->|]; done.
Qed.

Lemma newlines_id b s :
  lacks Py.LF s = true ->
  Py.re_sub_runs (fun c => Ascii.eqb c Py.LF) Py.LF b s = s.
Proof.
  revert b. induction s as [|c r IH]; intros b; simpl; [done|].
  intros [Hc Hr]%andb_prop. apply negb_true_iff in Hc. rewrite Hc.
  by rewrite IH.
Qed.

Lemma lstrip_lacks x s : lacks x s = true -> lacks x (Py.lstrip s) = true.
Proof.
  induction s as [|c r IH]; simpl; [done|].
  intros [Hc Hr]%andb_prop. destruct (Py.is_space c); [by apply IH|].
  simpl. by rewrite Hc, Hr.
Qed.

Lemma rstrip_lacks x s : lacks x s = true -> lacks x (Py.rstrip s) = true.
Proof.
  induction s as [|c r IH]; simpl; [done|].
  intros [Hc Hr]%andb_prop.
  destruct (Py.is_space c && Py.is_empty (Py.rstrip r)); [done|].
  simpl. by rewrite Hc, IH.
Qed.

Lemma clean_text_lacks_LF text : lacks Py.LF (clean_text text) = true.
Proof.
  unfold clean_text. rewrite newlines_id by apply collapse_lacks_LF.
  apply rstrip_lacks, lstrip_lacks, collapse_lacks_LF.
Qed.

Lemma split_on_lacks x s : lacks x s = true -> Py.split_on x s = [s].
Proof.
  induction s as [|c r IH]; simpl; [done|].
  intros [Hc Hr]%andb_prop. apply negb_true_iff in Hc. rewrite Hc.
  by rewrite IH.
Qed.

Lemma lstrip_clean_start s : clean_start (Py.lstrip s) = true.
Proof.
  induction s as [|c r IH]; simpl; [done|].
  destruct (Py.is_space c) eqn:Hc; [done|]. simpl. by rewrite Hc.
Qed.

Lemma clean_start_lstrip s : clean_start s = true -> Py.lstrip s = s.
Proof.
  destruct s as [|c r]; simpl; [done|]. by intros ->%negb_true_iff.
Qed.

Lemma rstrip_clean_start s :
  clean_start s = true -> clean_start (Py.rstrip s) = true.
Proof.
  destruct s as [|c r]; simpl; [done|]. intros Hc.
  apply negb_true_iff in Hc as Hc'. rewrite Hc'. simpl. done.
Qed.

Lemma rstrip_rstrip s : Py.rstrip (Py.rstrip s) = Py.rstrip s.
Proof.
  induction s as [|c r IH]; simpl; [done|].
  destruct (Py.is_space c && Py.is_empty (Py.rstrip r)) eqn:Hc; [done|].
  simpl. by rewrite IH, Hc.
Qed.

Lemma strip_strip s : Py.strip (Py.strip s) = Py.strip s.
Proof.
  unfold Py.strip.
  rewrite (clean_start_lstrip (Py.rstrip _))
    by apply rstrip_clean_start, lstrip_clean_start.
  apply rstrip_rstrip.
Qed.

Lemma clean_text_words text : Py.split (clean_text text) = Py.split text.
Proof.
  unfold clean_text. rewrite newlines_id by apply collapse_lacks_LF.
  by rewrite split_strip, split_collapse.
Qed.

Lemma strip_clean_text text : Py.strip (clean_text text) = clean_text text.
Proof.
  unfold clean_text. apply strip_strip.
Qed.

Lemma blank_no_words s : is_blank s = is_nil (Py.split s).
Proof. by rewrite is_blank_whitespace_only, split_nil. Qed.

(** A text that is not blank is handed to the paragraph loop as the single
    paragraph [clean_text text]: no line feed survives the cleaning. *)
Lemma chunk_text_one_paragraph text chunk_size overlap :
  is_blank text = false ->
  chunk_text text chunk_size overlap
  = (st ← chunk_para chunk_size overlap
            {| chunks := []; current_chunk := []; current_length := 0 |}
            (clean_text text);
     if negb (is_nil (current_chunk st)) then
       Ok (chunks st ++ [Py.join (String Py.LF "") (current_chunk st)])%list
     else Ok (chunks st)).
Proof.
  intros Hblank. unfold chunk_text.
  assert (Py.is_empty text = false) as ->.
  { destruct (Py.is_empty text) eqn:He; [|done].
    apply empty_is_blank in He. congruence. }
  rewrite Hblank. simpl orb. cbv iota.
  rewrite split_on_lacks by apply clean_text_lacks_LF.
  simpl List.filter.
  assert (is_blank (clean_text text) = false) as ->.
  { by rewrite blank_no_words, clean_text_words, <- blank_no_words. }
  simpl. rewrite strip_clean_text.
  by destruct (chunk_para _ _ _ _).
Qed.

Lemma chunk_text_blank text chunk_size overlap :
  is_blank text = true -> chunk_text text chunk_size overlap = Ok [].
Proof.
  intros H. unfold chunk_text. by rewrite H, orb_true_r.
Qed.

Lemma chunk_text_short text chunk_size overlap :
  is_blank text = false -> word_count text <= chunk_size ->
  chunk_text text chunk_size overlap = Ok [clean_text text].
Proof.
  intros Hblank Hshort. rewrite chunk_text_one_paragraph by done.
  unfold chunk_para, word_count in *. rewrite clean_text_words.
  destruct (Z.ltb_spec chunk_size (Py.len (Py.split text))); [lia|].
  simpl. rewrite andb_false_r. done.
Qed.

Lemma chunk_text_long text chunk_size overlap :
  is_blank text = false -> chunk_size < word_count text ->
  chunk_text text chunk_size overlap
  = (starts ← Py.range 0 (word_count text) (chunk_size - overlap);
     Ok (map (fun i => Py.join " " (Py.slice (Py.split text) i (i + chunk_size)))
           starts)).
Proof.
  intros Hblank Hlong. rewrite chunk_text_one_paragraph by done.
  unfold chunk_para, word_count in *. rewrite clean_text_words.
  destruct (Z.ltb_spec chunk_size (Py.len (Py.split text))); [|lia].
  by destruct (Py.range _ _ _).
Qed.

(** C6, as the code has it.  Neither chunker checks its configuration.
    With [size - overlap <= 0] the word-window chunker fails with the
    [ValueError] of [range] when the step is zero and returns no chunk at
    all when the step is negative.  The paragraph-aware chunker returns no
    chunk for a blank text and the cleaned text as its one chunk when the
    text has at most [size] words; for a longer text it behaves like the
    word-window chunker: [ValueError] for a zero step, no chunk for a
    negative step.  Both are total: no call loops. *)
Theorem chunkers_nonpositive_step (text : string) (size overlap : Z) :
  size - overlap <= 0 ->
  (size - overlap = 0 ->
     educational_chunk_logic text size overlap
     = Raise (ValueError "range() arg 3 must not be zero")) /\
  (size - overlap < 0 -> educational_chunk_logic text size overlap = Ok []) /\
  (is_blank text = true -> chunk_text text size overlap = Ok []) /\
  (is_blank text = false -> word_count text <= size ->
     chunk_text text size overlap = Ok [clean_text text]) /\
  (is_blank text = false -> size < word_count text -> size - overlap = 0 ->
     chunk_text text size overlap
     = Raise (ValueError "range() arg 3 must not be zero")) /\
  (is_blank text = false -> size < word_count text -> size - overlap < 0 ->
     chunk_text text size overlap = Ok []).
Proof.
  intros _. split_and!.
  - apply educational_chunk_logic_zero_step.
  - apply educational_chunk_logic_neg_step.
  - apply chunk_text_blank.
  - apply chunk_text_short.
  - intros Hb Hl Hz. rewrite chunk_text_long by done. by rewrite Hz.
  - intros Hb Hl Hn. rewrite chunk_text_long by done.
    rewrite range_neg_step; [done|apply len_nonneg|done].
Qed.

Lemma chunkers_nonpositive_step_witness :
  3 - 3 <= 0 /\
  educational_chunk_logic "one two three four" 3 3
  = Raise (ValueError "range() arg 3 must not be zero") /\
  chunk_text "one two three four" 3 3
  = Raise (ValueError "range() arg 3 must not be zero").
Proof.
  destruct (chunkers_nonpositive_step "one two three four" 3 3 ltac:(lia))
    as (Hzero & _ & _ & _ & Hlong & _).
  split; [lia|]. split.
  - apply Hzero. lia.
  - apply Hlong; [reflexivity|reflexivity|lia].
Defined.

(** C6 as stated fails: with [size = 2] and [overlap = 5] the step is [-3],
    and both chunkers return an empty result instead of an error. *)
Lemma chunkers_accept_negative_step :
  2 - 5 <= 0 /\
  educational_chunk_logic "one two three" 2 5 = Ok [] /\
  chunk_text "one two three" 2 5 = Ok [].
Proof. split; [lia|]. split; reflexivity. Qed.

(** ** The embedder *)

Lemma embed_query_blank model_encode query :
  whitespace_only query = true ->
  embed_query model_encode query = Raise (ValueError "Query cannot be empty").
Proof.
  intros H. unfold embed_query.
  by rewrite is_blank_whitespace_only, H, orb_true_r.
Qed.

Lemma embed_query_not_blank model_encode query :
  whitespace_only query = false ->
  embed_query model_encode query = Ok [model_encode query].
Proof.
  intros H. unfold embed_query. rewrite is_blank_whitespace_only, H.
  destruct (Py.is_empty query) eqn:He; [|done].
  apply is_empty_true in He as ->. done.
Qed.

(** C7.  Over a model whose vectors have the fixed dimension [model_dim]
    and norm one, [embed_query] raises exactly when the query is empty or
    holds whitespace only, the error being its [ValueError]; on every other
    query it returns one row, a unit vector of dimension [model_dim]. *)
Theorem embed_query_spec (model_encode : string -> list Q) (model_dim : nat)
  (query : string) :
  (forall t, length (model_encode t) = model_dim) ->
  (forall t, unit_norm (model_encode t)) ->
  ((exists e, embed_query model_encode query = Raise e)
     <-> whitespace_only query = true) /\
  (whitespace_only query = true ->
     embed_query model_encode query = Raise (ValueError "Query cannot be empty")) /\
  (whitespace_only query = false ->
     exists v, embed_query model_encode query = Ok [v] /\
       length v = model_dim /\ unit_norm v).
Proof.
  intros Hdim Hunit. split_and!.
  - split.
    + intros [e He]. destruct (whitespace_only query) eqn:Hw; [done|].
      rewrite embed_query_not_blank in He by done. done.
    + intros Hw. eexists. by apply embed_query_blank.
  - apply embed_query_blank.
  - intros Hw. exists (model_encode query).
    split_and!; [by apply embed_query_not_blank|apply Hdim|apply Hunit].
Qed.

Lemma embed_query_spec_witness :
  ((exists e, embed_query toy_encode "what is faiss" = Raise e)
     <-> whitespace_only "what is faiss" = true) /\
  (whitespace_only "what is faiss" = true ->
     embed_query toy_encode "what is faiss"
     = Raise (ValueError "Query cannot be empty")) /\
  (whitespace_only "what is faiss" = false ->
     exists v, embed_query toy_encode "what is faiss" = Ok [v] /\
       length v = 2%nat /\ unit_norm v).
Proof.
  apply (embed_query_spec toy_encode 2 "what is faiss").
  - intros t. unfold toy_encode. destruct (String.eqb t "beta"); reflexivity.
  - intros t. unfold toy_encode. destruct (String.eqb t "beta"); reflexivity.
Defined.

(** ** Loading the registry *)

(** C10.  A registry file that is there but cannot be opened or parsed is
    loaded as the empty registry, as a missing file is: the exception of
    the read is caught, [_load_titles] returns, and the manager starts with
    no title. *)
Theorem load_titles_unparsable (storage_dir : string) (dk : gmap string file)
  (lk : gset string) (f : file) :
  dk !! titles_file storage_dir = Some f ->
  unparsable f = true ->
  (exists e, load_registry (titles_file storage_dir) dk = Raise e) /\
  _load_titles storage_dir dk = Ok ∅ /\
  _load_titles storage_dir dk
    = _load_titles storage_dir (delete (titles_file storage_dir) dk) /\
  init storage_dir dk lk = Ok {| titles := ∅; disk := dk; locked := lk |}.
Proof.
  intros Hf Hbad.
  assert (exists e, load_registry (titles_file storage_dir) dk = Raise e)
    as [e Hload].
  { unfold load_registry. rewrite Hf. destruct f; try done; by eexists. }
  assert (_load_titles storage_dir dk = Ok ∅) as Hempty.
  { unfold _load_titles, exists_file. rewrite Hload.
    by rewrite bool_decide_eq_true_2 by by eexists. }
  split_and!; [by eexists|done| |].
  - rewrite Hempty. unfold _load_titles, exists_file.
    rewrite lookup_delete_eq. rewrite bool_decide_eq_false_2; [done|].
    by intros [? ?].
  - unfold init. by rewrite Hempty.
Qed.

Lemma load_titles_unparsable_witness :
  _load_titles "storage"
    {[ "storage/titles.json" := Garbage "{ docs: { display_na" ]} = Ok ∅ /\
  init "storage" {[ "storage/titles.json" := Unreadable ]} ∅
    = Ok {| titles := ∅;
            disk := {[ "storage/titles.json" := Unreadable ]};
            locked := ∅ |}.
Proof.
  split.
  - apply (load_titles_unparsable "storage"
             {[ "storage/titles.json" := Garbage "{ docs: { display_na" ]} ∅
             (Garbage "{ docs: { display_na")); reflexivity.
  - apply (load_titles_unparsable "storage"
             {[ "storage/titles.json" := Unreadable ]} ∅ Unreadable);
      reflexivity.
Defined.

(** ** Paths under the storage root *)

Lemma string_app_cons (x : ascii) (a b : string) :
  String x a ++ b = String x (a ++ b).
Proof. reflexivity. Qed.

Lemma list_ascii_app (a b : string) :
  String.list_ascii_of_string (a ++ b)
  = (String.list_ascii_of_string a ++ String.list_ascii_of_string b)%list.
Proof.
  induction a as [|c a IH]; [done|].
  rewrite string_app_cons. simpl. by rewrite IH.
Qed.

Lemma list_ascii_inj (a b : string) :
  String.list_ascii_of_string a = String.list_ascii_of_string b -> a = b.
Proof.
  intros H. rewrite <- (String.string_of_list_ascii_of_string a),
    <- (String.string_of_list_ascii_of_string b). by rewrite H.
Qed.

Lemma string_app_assoc (a b c : string) : (a ++ b) ++ c = a ++ (b ++ c).
Proof.
  induction a as [|x a IH]; [done|].
  rewrite !string_app_cons. by rewrite IH.
Qed.

Lemma string_app_inv_tail (a b s : string) : a ++ s = b ++ s -> a = b.
Proof.
  intros H. apply list_ascii_inj.
  apply (f_equal String.list_ascii_of_string) in H.
  rewrite !list_ascii_app in H. by apply app_inv_tail in H.
Qed.

Lemma string_app_inv_head (s a b : string) : s ++ a = s ++ b -> a = b.
Proof. apply String.app_inj. Qed.

Lemma string_app_nil_r (s : string) : s ++ "" = s.
Proof.
  induction s as [|c s IH]; [done|]. by rewrite string_app_cons, IH.
Qed.

Lemma lacks_app x a b : lacks x (a ++ b) = lacks x a && lacks x b.
Proof.
  induction a as [|c a IH]; [done|].
  rewrite string_app_cons. simpl. by rewrite IH, andb_assoc.
Qed.

(** The last piece of a split goes on with a suffix that has no
    separator. *)
Lemma split_on_suffix sep b suf :
  lacks sep suf = true ->
  exists init c,
    Py.split_on sep (b ++ suf) = (init ++ [(c ++ suf)%string])%list.
Proof.
  intros Hs. induction b as [|x b (init & c & IH)].
  - exists [], "". simpl. by apply split_on_lacks.
  - rewrite string_app_cons. simpl. rewrite IH.
    destruct (Ascii.eqb x sep).
    + by exists ("" :: init), c.
    + destruct init as [|w ws]; simpl.
      * by exists [], (String x c).
      * by exists (String x w :: ws), c.
Qed.

Lemma is_part_suffix c suf :
  (2 <= String.length suf)%nat -> is_part (c ++ suf) = true.
Proof.
  intros Hlen.
  assert (exists x y r, c ++ suf = String x (String y r)) as (x & y & r & ->).
  { destruct c as [|x c].
    - destruct suf as [|x [|y r]]; simpl in Hlen; try lia. by exists x, y, r.
    - rewrite string_app_cons. destruct c as [|y c].
      + destruct suf as [|y r]; simpl in Hlen; try lia. by exists x, y, r.
      + rewrite string_app_cons. by eexists _, _, _. }
  unfold is_part. simpl. destruct (Ascii.eqb x "."); [|done]. done.
Qed.

Lemma join_snoc sep l w : exists X, Py.join sep (l ++ [w])%list = X ++ w.
Proof.
  unfold Py.join. induction l as [|x l [X IH]]; simpl.
  - by exists "".
  - destruct (l ++ [w])%list as [|y l'] eqn:E; [by destruct l|].
    rewrite IH. exists (x ++ sep ++ X). by rewrite !string_app_assoc.
Qed.

Lemma join_snoc_inj sep l w1 w2 :
  Py.join sep (l ++ [w1])%list = Py.join sep (l ++ [w2])%list -> w1 = w2.
Proof.
  unfold Py.join. induction l as [|x l IH]; simpl; [done|].
  destruct (l ++ [w1])%list as [|y1 l1] eqn:E1; [by destruct l|].
  destruct (l ++ [w2])%list as [|y2 l2] eqn:E2; [by destruct l|].
  intros H%string_app_inv_head%string_app_inv_head. by apply IH.
Qed.

(** Below a name that ends in a suffix of two characters or more, without
    a slash, the path ends in that suffix. *)
Lemma path_join_suffix a b suf :
  lacks slash suf = true -> (2 <= String.length suf)%nat ->
  exists X, path_join a (b ++ suf) = X ++ suf.
Proof.
  intros Hs Hlen.
  destruct (split_on_suffix slash b suf Hs) as (init & c & Hsplit).
  assert (forall r ps, exists X,
            path_str r (ps ++ path_parts (b ++ suf))%list = X ++ suf) as Hstr.
  { intros r ps. unfold path_parts. rewrite Hsplit, List.filter_app. simpl.
    rewrite is_part_suffix by done. rewrite app_assoc.
    destruct (join_snoc "/" (ps ++ List.filter is_part init) (c ++ suf))
      as [X HX].
    unfold path_str. rewrite HX.
    assert (is_nil ((ps ++ List.filter is_part init) ++ [(c ++ suf)%string])%list
            = false)
      as -> by by destruct (ps ++ List.filter is_part init)%list.
    rewrite andb_false_r. exists (r ++ X ++ c).
    by rewrite !string_app_assoc. }
  unfold path_join. destruct (is_absolute (b ++ suf)).
  - apply (Hstr _ []).
  - apply Hstr.
Qed.

(** Two strings whose last characters differ. *)
Lemma suffix_apart X Y suf1 suf2 :
  (forall l1 l2,
     (rev (String.list_ascii_of_string suf1) ++ l1)%list
     <> (rev (String.list_ascii_of_string suf2) ++ l2)%list) ->
  X ++ suf1 <> Y ++ suf2.
Proof.
  intros Hne H. apply (f_equal String.list_ascii_of_string) in H.
  rewrite !list_ascii_app in H. apply (f_equal (@rev ascii)) in H.
  rewrite !rev_app_distr in H. by apply Hne in H.
Qed.

Lemma index_path_not_chunks a b k1 k2 :
  path_join a (k1 ++ ".index") <> path_join b (k2 ++ "_chunks.json").
Proof.
  destruct (path_join_suffix a k1 ".index") as [X ->]; [done|simpl; lia|].
  destruct (path_join_suffix b k2 "_chunks.json") as [Y ->]; [done|simpl; lia|].
  apply suffix_apart. by intros l1 l2.
Qed.

Lemma chunks_path_not_index a b k1 k2 :
  path_join a (k1 ++ "_chunks.json") <> path_join b (k2 ++ ".index").
Proof. intros H. symmetry in H. by apply index_path_not_chunks in H. Qed.

(** The files of a collection are never the registry file, whatever the
    key. *)
Lemma index_path_not_titles sd a k :
  path_join a (k ++ ".index") <> titles_file sd.
Proof.
  destruct (path_join_suffix a k ".index") as [X ->]; [done|simpl; lia|].
  destruct (path_join_suffix sd "" "titles.json") as [Y HY];
    [done|simpl; lia|].
  unfold titles_file. change "titles.json" with ("" ++ "titles.json").
  rewrite HY. apply suffix_apart. by intros l1 l2.
Qed.

Lemma chunks_path_not_titles sd a k :
  path_join a (k ++ "_chunks.json") <> titles_file sd.
Proof.
  destruct (path_join_suffix a k "_chunks.json") as [X ->]; [done|simpl; lia|].
  destruct (path_join_suffix sd "" "titles.json") as [Y HY];
    [done|simpl; lia|].
  unfold titles_file. change "titles.json" with ("" ++ "titles.json").
  rewrite HY. apply suffix_apart. by intros l1 l2.
Qed.

Ltac faiss_path_not_titles :=
  first [apply index_path_not_titles | apply chunks_path_not_titles].

(** Below a directory, a name without a slash is one more component. *)
Lemma path_join_plain a name :
  lacks slash name = true -> is_part name = true ->
  path_join a name
  = path_root a ++ Py.join "/" (path_parts a ++ [name])%list.
Proof.
  intros Hl Hp. unfold path_join.
  assert (is_absolute name = false) as ->.
  { destruct name as [|c r]; [done|]. simpl in *.
    apply andb_prop in Hl as [Hc _]. by apply negb_true_iff in Hc. }
  unfold path_parts at 2. rewrite (split_on_lacks _ _ Hl). simpl. rewrite Hp.
  unfold path_str.
  assert (is_nil (path_parts a ++ [name])%list = false) as ->
    by by destruct (path_parts a).
  by rewrite andb_false_r.
Qed.

(** Two keys without a slash have different files. *)
Lemma plain_path_inj fd k1 k2 suf :
  plain_key k1 -> plain_key k2 ->
  lacks slash suf = true -> (2 <= String.length suf)%nat ->
  path_join fd (k1 ++ suf) = path_join fd (k2 ++ suf) -> k1 = k2.
Proof.
  unfold plain_key. intros H1 H2 Hs Hlen.
  rewrite (path_join_plain fd (k1 ++ suf))
    by (by rewrite lacks_app, H1, Hs) || by apply is_part_suffix.
  rewrite (path_join_plain fd (k2 ++ suf))
    by (by rewrite lacks_app, H2, Hs) || by apply is_part_suffix.
  intros H%string_app_inv_head%join_snoc_inj.
  by apply string_app_inv_tail in H.
Qed.

Lemma index_path_inj fd k1 k2 :
  plain_key k1 -> plain_key k2 ->
  path_join fd (k1 ++ ".index") = path_join fd (k2 ++ ".index") -> k1 = k2.
Proof. intros H1 H2. apply plain_path_inj; [done|done|done|simpl; lia]. Qed.

Lemma chunks_path_inj fd k1 k2 :
  plain_key k1 -> plain_key k2 ->
  path_join fd (k1 ++ "_chunks.json") = path_join fd (k2 ++ "_chunks.json") ->
  k1 = k2.
Proof. intros H1 H2. apply plain_path_inj; [done|done|done|simpl; lia]. Qed.

(** ** Steps of the store monad *)

Lemma write_file_effect path f st r st' :
  write_file path f st = (r, st') ->
  titles st' = titles st /\ locked st' = locked st /\
  (forall p, p <> path -> disk st' !! p = disk st !! p) /\
  (r = Ok () /\ disk st' = <[path := f]> (disk st) \/
   is_ok r = false /\ st' = st).
Proof.
  unfold write_file. case_bool_decide; intros [= <- <-]; simpl.
  - split_and!; [done..|]. by right.
  - split_and!; [done|done| |by left].
    intros p Hp. by rewrite lookup_insert_ne.
Qed.

Lemma unlink_effect path st r st' :
  unlink path st = (r, st') ->
  titles st' = titles st /\ locked st' = locked st /\
  (forall p, p <> path -> disk st' !! p = disk st !! p).
Proof.
  unfold unlink. case_bool_decide; [by intros [= <- <-]|].
  destruct (disk st !! path); intros [= <- <-]; simpl; [|done].
  split_and!; [done..|]. intros p Hp. by rewrite lookup_delete_ne.
Qed.

Lemma unlink_if_exists_effect path st r st' :
  unlink_if_exists path st = (r, st') ->
  titles st' = titles st /\ locked st' = locked st /\
  (forall p, p <> path -> disk st' !! p = disk st !! p).
Proof.
  unfold unlink_if_exists. unfold_M.
  destruct (exists_file path (disk st)); [apply unlink_effect|].
  by intros [= <- <-].
Qed.

(** [_save_titles] swallows the failure of its write. *)
Lemma save_titles_effect sd st :
  exists st', _save_titles sd st = (Ok (), st') /\
    titles st' = titles st /\ locked st' = locked st /\
    (forall p, p <> titles_file sd -> disk st' !! p = disk st !! p).
Proof.
  unfold _save_titles. unfold_M.
  destruct (write_file (titles_file sd) (RegistryJson (titles st)) st)
    as [r st'] eqn:Hw.
  apply write_file_effect in Hw as (Ht & Hl & Hd & Hr).
  destruct r as [[]|e].
  - exists st'. done.
  - exists st'. done.
Qed.

(** ** Deleting *)

Lemma delete_title_absent sd title st :
  titles st !! normalize title = None ->
  delete_title sd title st = (Ok false, st).
Proof. intros H. unfold delete_title. unfold_M. by rewrite H. Qed.

(** [delete_title] returns [True] or [False]; it never raises. *)
Lemma delete_title_returns sd title st :
  exists b st', delete_title sd title st = (Ok b, st').
Proof.
  unfold delete_title. unfold_M.
  destruct (titles st !! normalize title) as [info|]; [|by eauto].
  destruct (unlink_if_exists (index_file info) st) as [[[]|e1] st1]; [|by eauto].
  destruct (unlink_if_exists (chunks_file info) st1) as [[[]|e2] st2]; [|by eauto].
  destruct (save_titles_effect sd
              {| titles := delete (normalize title) (titles st);
                 disk := disk st2; locked := locked st2 |})
    as (st3 & -> & _). by eauto.
Qed.

(** A deletion that reports success has removed the registry entry. *)
Lemma delete_title_removes sd title st st' :
  delete_title sd title st = (Ok true, st') ->
  titles st' !! normalize title = None.
Proof.
  unfold delete_title. unfold_M.
  destruct (titles st !! normalize title) as [info|]; [|done].
  destruct (unlink_if_exists (index_file info) st) as [[[]|e1] st1]; [|done].
  destruct (unlink_if_exists (chunks_file info) st1) as [[[]|e2] st2]; [|done].
  destruct (save_titles_effect sd
              {| titles := delete (normalize title) (titles st);
                 disk := disk st2; locked := locked st2 |})
    as (st3 & -> & Ht & _).
  intros [= <-]. rewrite Ht. simpl. apply lookup_delete_eq.
Qed.

Lemma delete_times_absent sd n title st :
  titles st !! normalize title = None ->
  delete_times sd n title st = (replicate n (Ok false), st).
Proof.
  intros H. induction n as [|n IH]; simpl; [done|].
  by rewrite delete_title_absent, IH.
Qed.

(** C8.  On a store where the key of [title] is not registered, be it
    because it never was or because an earlier [delete_title] of it
    succeeded, [delete_title] returns [False] without raising and leaves the
    registry and the files as they are; so do any number of calls in a
    row. *)
Theorem delete_title_idempotent (sd title : string) (st : store) (n : nat) :
  titles st !! normalize title = None \/
  (exists st0, delete_title sd title st0 = (Ok true, st)) ->
  delete_title sd title st = (Ok false, st) /\
  delete_times sd n title st = (replicate n (Ok false), st).
Proof.
  intros H.
  assert (titles st !! normalize title = None) as Habs.
  { destruct H as [H|[st0 H]]; [done|]. by apply delete_title_removes in H. }
  split; [by apply delete_title_absent|by apply delete_times_absent].
Qed.

Lemma delete_title_idempotent_witness :
  delete_title "storage" " DOCS" deleted_store = (Ok false, deleted_store) /\
  delete_times "storage" 3 " DOCS" deleted_store
  = (replicate 3 (Ok false), deleted_store).
Proof.
  apply (delete_title_idempotent "storage" " DOCS" deleted_store 3).
  right. exists docs_store. vm_compute. reflexivity.
Defined.

(** ** Adding documents touches one collection *)

(** What a call of [add_documents] can change: the registry entry of its
    own key, its two files and the registry file. *)
Lemma add_documents_effect enc sd title chunks st r st' :
  add_documents enc sd title chunks st = (r, st') ->
  locked st' = locked st /\
  (forall k, k <> normalize title -> titles st' !! k = titles st !! k) /\
  (forall info, titles st !! normalize title = Some info ->
     exists n, titles st' !! normalize title = Some (set_chunk_count n info)) /\
  (titles st !! normalize title = None -> st' = st) /\
  (forall info, titles st !! normalize title = Some info ->
     forall p, p <> index_file info -> p <> chunks_file info ->
               p <> titles_file sd -> disk st' !! p = disk st !! p).
Proof.
  unfold add_documents. unfold_M.
  destruct (titles st !! normalize title) as [info|] eqn:Hinfo;
    [|intros [= <- <-]; split_and!; done].
  assert (set_chunk_count (chunk_count info) info = info) as Hsame
    by by destruct info.
  assert (forall X, (X, st) = (r, st') ->
    locked st' = locked st /\
    (forall k, k <> normalize title -> titles st' !! k = titles st !! k) /\
    (forall info0, Some info = Some info0 ->
       exists n, titles st' !! normalize title = Some (set_chunk_count n info0)) /\
    (Some info = None -> st' = st) /\
    (forall info0, Some info = Some info0 ->
       forall p, p <> index_file info0 -> p <> chunks_file info0 ->
                 p <> titles_file sd -> disk st' !! p = disk st !! p)) as Hnop.
  { intros X [= _ <-]. split_and!; try done.
    intros ? [= <-]. exists (chunk_count info). by rewrite Hsame. }
  destruct (is_nil chunks); [apply Hnop|].
  destruct (load_chunks (chunks_file info) (disk st)) as [cs|e]; [|apply Hnop].
  destruct (read_index (index_file info) (disk st)) as [ix|e]; [|apply Hnop].
  destruct (Py.len (embed_texts enc chunks) =? 0); [apply Hnop|].
  destruct (Faiss.add ix (embed_texts enc chunks)) as [ix'|e]; [|apply Hnop].
  destruct (write_file (index_file info) (IndexFile ix') st)
    as [[[]|e1] st1] eqn:Hw1;
    apply write_file_effect in Hw1 as (Ht1 & Hl1 & Hd1 & Hr1).
  2:{ intros [= _ <-]. split_and!; [done|by intros; rewrite Ht1| |done|].
      - intros ? [= <-]. exists (chunk_count info). by rewrite Ht1, Hsame.
      - intros ? [= <-] p ? ? ?. by apply Hd1. }
  destruct (write_file (chunks_file info) (ChunksJson (cs ++ chunks)) st1)
    as [[[]|e2] st2] eqn:Hw2;
    apply write_file_effect in Hw2 as (Ht2 & Hl2 & Hd2 & Hr2).
  2:{ intros [= _ <-]. split_and!; [congruence|by intros; rewrite Ht2, Ht1| |done|].
      - intros ? [= <-]. exists (chunk_count info). by rewrite Ht2, Ht1, Hsame.
      - intros ? [= <-] p ? ? ?. rewrite Hd2, Hd1; done. }
  destruct (save_titles_effect sd
              {| titles := alter (set_chunk_count (Py.len (cs ++ chunks)))
                             (normalize title) (titles st);
                 disk := disk st2; locked := locked st2 |})
    as (st3 & -> & Ht3 & Hl3 & Hd3).
  intros [= _ <-]. simpl in *. split_and!.
  - congruence.
  - intros k Hk. rewrite Ht3. by rewrite lookup_alter_ne.
  - intros ? [= <-]. eexists. rewrite Ht3, lookup_alter_eq, Hinfo. done.
  - done.
  - intros ? [= <-] p ? ? ?. rewrite Hd3, Hd2, Hd1; done.
Qed.

Lemma load_chunks_ext path dk dk' :
  dk' !! path = dk !! path -> load_chunks path dk' = load_chunks path dk.
Proof. unfold load_chunks. by intros ->. Qed.

Lemma read_index_ext path dk dk' :
  dk' !! path = dk !! path -> read_index path dk' = read_index path dk.
Proof. unfold read_index. by intros ->. Qed.

(** [search] reads the registry entry of its key and the two files the
    entry names, nothing else. *)
Lemma search_ext enc title query k st st' :
  titles st' !! normalize title = titles st !! normalize title ->
  (forall info, titles st !! normalize title = Some info ->
     disk st' !! chunks_file info = disk st !! chunks_file info /\
     disk st' !! index_file info = disk st !! index_file info) ->
  search enc title query k st' = search enc title query k st.
Proof.
  intros Ht Hd. unfold search. rewrite Ht.
  destruct (titles st !! normalize title) as [info|]; [|done].
  destruct (Hd info eq_refl) as [Hc Hi].
  by rewrite (load_chunks_ext _ _ _ Hc), (read_index_ext _ _ _ Hi).
Qed.

(** *** The layout of the files is an invariant *)

Lemma store_wf_fresh sd : store_wf sd fresh_store.
Proof. intros key info H. simpl in H. by rewrite lookup_empty in H. Qed.

Lemma create_title_titles dim sd title st r st' :
  create_title dim sd title st = (r, st') ->
  titles st' = titles st \/
  titles st !! normalize title = None /\
  titles st'
  = <[normalize title :=
        {| display_name := Py.strip title;
           index_file := path_join (faiss_dir sd) (normalize title ++ ".index");
           chunks_file :=
             path_join (faiss_dir sd) (normalize title ++ "_chunks.json");
           chunk_count := 0 |}]> (titles st).
Proof.
  unfold create_title. unfold_M. case_bool_decide as Hreg.
  { intros [= _ <-]. by left. }
  destruct (write_file _ (IndexFile _) st) as [[[]|e1] st1] eqn:Hw1;
    apply write_file_effect in Hw1 as (Ht1 & _).
  2:{ intros [= _ <-]. by left. }
  destruct (write_file _ (ChunksJson []) st1) as [[[]|e2] st2] eqn:Hw2;
    apply write_file_effect in Hw2 as (Ht2 & _).
  2:{ intros [= _ <-]. left. congruence. }
  match goal with
  | |- context [_save_titles sd ?s] =>
      destruct (save_titles_effect sd s) as (st3 & -> & Ht3 & _)
  end.
  intros [= _ <-]. right. split.
  - destruct (titles st !! normalize title) eqn:E; [|done].
    exfalso. apply Hreg. by eexists.
  - by rewrite Ht3.
Qed.

Lemma create_title_wf dim sd title st :
  store_wf sd st -> store_wf sd (create_title dim sd title st).2.
Proof.
  intros Hwf. destruct (create_title dim sd title st) as [r st'] eqn:Hc.
  apply create_title_titles in Hc as [Ht|[_ Ht]]; simpl; intros key info;
    rewrite Ht; [apply Hwf|].
  destruct (decide (key = normalize title)) as [->|Hne].
  - rewrite lookup_insert_eq. by intros [= <-].
  - rewrite lookup_insert_ne by done. apply Hwf.
Qed.

Lemma add_documents_wf enc sd title chunks st :
  store_wf sd st -> store_wf sd (add_documents enc sd title chunks st).2.
Proof.
  intros Hwf. destruct (add_documents enc sd title chunks st) as [r st'] eqn:Ha.
  apply add_documents_effect in Ha as (_ & Hother & Hown & Hnone & _).
  simpl. intros key info.
  destruct (decide (key = normalize title)) as [->|Hne].
  - destruct (titles st !! normalize title) as [info0|] eqn:H0.
    + destruct (Hown info0 eq_refl) as [n ->]. intros [= <-].
      by apply (Hwf _ _ H0).
    + rewrite (Hnone eq_refl), H0. done.
  - rewrite Hother by done. apply Hwf.
Qed.

Lemma delete_title_titles sd title st r st' :
  delete_title sd title st = (r, st') ->
  titles st' = titles st \/ titles st' = delete (normalize title) (titles st).
Proof.
  unfold delete_title. unfold_M.
  destruct (titles st !! normalize title) as [info|];
    [|intros [= _ <-]; by left].
  destruct (unlink_if_exists (index_file info) st) as [[[]|e1] st1] eqn:H1;
    apply unlink_if_exists_effect in H1 as (Ht1 & _).
  2:{ intros [= _ <-]. by left. }
  destruct (unlink_if_exists (chunks_file info) st1) as [[[]|e2] st2] eqn:H2;
    apply unlink_if_exists_effect in H2 as (Ht2 & _).
  2:{ intros [= _ <-]. left. congruence. }
  match goal with
  | |- context [_save_titles sd ?s] =>
      destruct (save_titles_effect sd s) as (st3 & -> & Ht3 & _)
  end.
  intros [= _ <-]. right. by rewrite Ht3.
Qed.

Lemma delete_title_wf sd title st :
  store_wf sd st -> store_wf sd (delete_title sd title st).2.
Proof.
  intros Hwf. destruct (delete_title sd title st) as [r st'] eqn:Hd.
  apply delete_title_titles in Hd as [Ht|Ht]; simpl; intros key info;
    rewrite Ht; [apply Hwf|].
  intros [_ H]%lookup_delete_Some. by apply Hwf.
Qed.

(** On a store whose files lie where [create_title] puts them, adding
    chunks to the collection of a key without a slash leaves every other
    collection of such a key alone: its registry entry with its
    [chunk_count], its stored chunk list and index, and the result of
    [search] on it for every query and every [k]. *)
Lemma add_documents_apart (model_encode : string -> list Q)
  (sd a b : string) (chunks : list string) (st : store) :
  store_wf sd st ->
  plain_key (normalize a) -> plain_key (normalize b) ->
  normalize a <> normalize b ->
  let st' := (add_documents model_encode sd a chunks st).2 in
  get_title_info b st' = get_title_info b st /\
  (forall info, get_title_info b st = Some info ->
     load_chunks (chunks_file info) (disk st')
       = load_chunks (chunks_file info) (disk st) /\
     read_index (index_file info) (disk st')
       = read_index (index_file info) (disk st)) /\
  (forall query k,
     search model_encode b query k st' = search model_encode b query k st).
Proof.
  intros Hwf Hpa Hpb Hab.
  destruct (add_documents model_encode sd a chunks st) as [r st'] eqn:Hadd.
  apply add_documents_effect in Hadd as (_ & Hother & _ & Hnone & Hdisk).
  simpl. unfold get_title_info.
  assert (titles st' !! normalize b = titles st !! normalize b) as Ht
    by (apply Hother; congruence).
  assert (forall info, titles st !! normalize b = Some info ->
            disk st' !! chunks_file info = disk st !! chunks_file info /\
            disk st' !! index_file info = disk st !! index_file info) as Hfiles.
  { intros info Hb.
    destruct (titles st !! normalize a) as [info_a|] eqn:Ha;
      [|by rewrite (Hnone eq_refl)].
    destruct (Hwf _ _ Ha) as [Hia Hca]. destruct (Hwf _ _ Hb) as [Hib Hcb].
    split; apply (Hdisk info_a eq_refl); rewrite ?Hia, ?Hca, ?Hib, ?Hcb.
    - apply chunks_path_not_index.
    - intros H%chunks_path_inj; [congruence|done..].
    - apply chunks_path_not_titles.
    - intros H%index_path_inj; [congruence|done..].
    - apply index_path_not_chunks.
    - apply index_path_not_titles. }
  split_and!.
  - done.
  - intros info Hb. destruct (Hfiles info Hb) as [Hc Hi].
    by rewrite (load_chunks_ext _ _ _ Hc), (read_index_ext _ _ _ Hi).
  - intros query k. by apply search_ext.
Qed.

Lemma two_store_wf : store_wf "storage" two_store.
Proof.
  apply create_title_wf, add_documents_wf, create_title_wf, store_wf_fresh.
Defined.

(** C9, as the code has it.  The claim fails where two keys name the same
    files.  The titles [x] and [./x] have different keys and an entry each,
    but [pathlib] drops the component [.], so both entries name the index
    [storage/faiss/x.index] and the chunk list
    [storage/faiss/x_chunks.json].  Adding one chunk to [./x] then changes
    the collection [x]: its stored chunk list goes from none to one chunk
    and a search in it from no result to one, while its [chunk_count]
    stays 0. *)
Theorem add_documents_shares_files :
  normalize "./x" <> normalize "x" /\
  (index_file <$> get_title_info "x" alias_store)
    = (index_file <$> get_title_info "./x" alias_store) /\
  (chunks_file <$> get_title_info "x" alias_store)
    = Some "storage/faiss/x_chunks.json" /\
  (chunks_file <$> get_title_info "./x" alias_store)
    = Some "storage/faiss/x_chunks.json" /\
  load_chunks "storage/faiss/x_chunks.json" (disk alias_store) = Ok [] /\
  search toy_encode "x" "alpha" 4 alias_store = Ok [] /\
  (add_documents toy_encode "storage" "./x" ["alpha"] alias_store).1 = Ok 1 /\
  let st' := (add_documents toy_encode "storage" "./x" ["alpha"] alias_store).2 in
  load_chunks "storage/faiss/x_chunks.json" (disk st') = Ok ["alpha"] /\
  search toy_encode "x" "alpha" 4 st' = Ok [("alpha", 1%Q)] /\
  (chunk_count <$> get_title_info "x" st') = Some 0.
Proof. vm_compute. by split_and!. Qed.

Example two_store_search_docs :
  search toy_encode "docs" "beta" 5
    (add_documents toy_encode "storage" "Notes" ["gamma"; "delta"] two_store).2
  = search toy_encode "docs" "beta" 5 two_store.
Proof.
  apply (add_documents_apart toy_encode "storage" "Notes" "docs"
           ["gamma"; "delta"] two_store);
    [apply two_store_wf|reflexivity|reflexivity|by vm_compute].
Qed.

(** ** Sorting by descending score *)

Section SortDesc.
Context {A : Type} (key : A -> Q).

Lemma insert_desc_perm x l : Permutation (insert_desc key x l) (x :: l).
Proof.
  induction l as [|y l IH]; simpl; [done|].
  destruct (Qle_bool (key y) (key x)); [done|].
  rewrite IH. apply perm_swap.
Qed.

Lemma sort_desc_perm l : Permutation (sort_desc key l) l.
Proof.
  induction l as [|x l IH]; simpl; [done|].
  rewrite insert_desc_perm. by constructor.
Qed.

Lemma sort_desc_length l : length (sort_desc key l) = length l.
Proof. apply Permutation_length, sort_desc_perm. Qed.

Let ge (a b : A) : Prop := (key b <= key a)%Q.

Lemma insert_desc_sorted x l :
  StronglySorted ge l -> StronglySorted ge (insert_desc key x l).
Proof.
  induction 1 as [|y l Hl IH Hy]; simpl.
  - repeat constructor.
  - destruct (Qle_bool (key y) (key x)) eqn:Hyx.
    + apply Qle_bool_iff in Hyx.
      constructor; [by constructor|]. constructor; [done|].
      eapply Forall_impl; [exact Hy|]. intros z Hz. unfold ge in *.
      by eapply Qle_trans.
    + assert (key x <= key y)%Q as Hxy.
      { destruct (Qlt_le_dec (key x) (key y)) as [?|Hle];
          [by apply Qlt_le_weak|].
        apply Qle_bool_iff in Hle. congruence. }
      constructor; [done|].
      rewrite (insert_desc_perm x l). by constructor.
Qed.

Lemma sorted_take n l : StronglySorted ge l -> StronglySorted ge (take n l).
Proof.
  intros H. rewrite <- (take_drop n l) in H.
  by apply StronglySorted_app_1_l in H.
Qed.

Lemma sort_desc_sorted l : StronglySorted ge (sort_desc key l).
Proof.
  induction l as [|x l IH]; simpl; [constructor|].
  by apply insert_desc_sorted.
Qed.

End SortDesc.

(** ** The merge of the chat page *)

Lemma gather_context_concat search_title selected :
  gather_context search_title selected
  = concat (map (tagged_results search_title) selected).
Proof.
  induction selected as [|t rest IH]; simpl; [done|]. by rewrite IH.
Qed.

Lemma top_context_take search_title selected k :
  0 <= k ->
  top_context search_title selected k
  = take (Z.to_nat k)
      (sort_desc score (gather_context search_title selected)).
Proof.
  intros Hk. unfold top_context. rewrite slice_take_drop by lia.
  simpl. f_equal. lia.
Qed.

(** C5.  The merge concatenates the results of the selected collections,
    each tagged with its collection (a collection whose search raised
    gives none); it sorts the whole list by descending score, and keeps the
    first [k] items of the sorted list: the [k] best overall.  On three
    collections with the scores [0.9, 0.7], [0.85, 0.3] and [0.6, 0.5] and
    [k = 3] the result is [0.9] from the first, [0.85] from the second and
    [0.7] from the first, in this order. *)
Theorem top_context_merge
  (search_title : string -> result (list (string * Q)))
  (selected : list string) (k : Z) :
  0 <= k ->
  let all_context := concat (map (tagged_results search_title) selected) in
  gather_context search_title selected = all_context /\
  (exists sorted,
     Permutation sorted all_context /\
     StronglySorted score_ge sorted /\
     top_context search_title selected k = take (Z.to_nat k) sorted) /\
  StronglySorted score_ge (top_context search_title selected k) /\
  Py.len (top_context search_title selected k) <= k /\
  top_context three_collections ["A"; "B"; "C"] 3
  = [ {| title := "A"; chunk := "a1"; score := 0.9 |};
      {| title := "B"; chunk := "b1"; score := 0.85 |};
      {| title := "A"; chunk := "a2"; score := 0.7 |} ].
Proof.
  intros Hk all_context. subst all_context.
  rewrite <- gather_context_concat.
  pose proof (sort_desc_sorted score (gather_context search_title selected))
    as Hsorted.
  split_and!.
  - done.
  - exists (sort_desc score (gather_context search_title selected)).
    split_and!; [apply sort_desc_perm|exact Hsorted|by apply top_context_take].
  - rewrite top_context_take by done. by apply sorted_take.
  - rewrite top_context_take by done. unfold Py.len. rewrite length_take. lia.
  - reflexivity.
Qed.

Lemma top_context_merge_witness :
  top_context three_collections ["C"; "missing"; "B"; "A"] 4
  = take 4 (sort_desc score
              (concat (map (tagged_results three_collections)
                         ["C"; "missing"; "B"; "A"]))) /\
  Py.len (top_context three_collections ["C"; "missing"; "B"; "A"] 4) <= 4.
Proof.
  destruct (top_context_merge three_collections ["C"; "missing"; "B"; "A"] 4
              ltac:(lia)) as (Hall & (sorted & _ & _ & Htake) & _ & Hlen & _).
  split; [|exact Hlen].
  rewrite <- Hall. apply top_context_take. lia.
Defined.

(** ** Searching a collection *)

Lemma index_in_range {A} (l : list A) (i : Z) :
  - Py.len l <= i < Py.len l -> exists x, Py.index l i = Ok x.
Proof.
  intros Hi. unfold Py.index, Py.len in *.
  set (j := if i <? 0 then i + Z.of_nat (length l) else i).
  assert (0 <= j < Z.of_nat (length l)) as Hj.
  { subst j. destruct (Z.ltb_spec i 0); lia. }
  destruct (Z.ltb_spec j 0); [lia|].
  destruct (Z.leb_spec (Z.of_nat (length l)) j); [lia|]. simpl.
  destruct (lookup_lt_is_Some_2 l (Z.to_nat j)) as [x ->]; [lia|]. by eexists.
Qed.

(** The loop over the hits returns, and with no more results than hits,
    when no label lies below [- len(all_chunks)]. *)
Lemma collect_results_ok all_chunks hits :
  Forall (fun h => - Py.len all_chunks <= h.2) hits ->
  exists results,
    collect_results all_chunks hits = Ok results /\
    (length results <= length hits)%nat.
Proof.
  induction 1 as [|[dist idx] rest Hh Hrest (results & IH & Hlen)]; simpl.
  - by exists [].
  - destruct (Z.ltb_spec idx (Py.len all_chunks)) as [Hlt|Hge].
    + destruct (index_in_range all_chunks idx) as [c Hc]; [simpl in Hh; lia|].
      rewrite Hc, IH. exists ((c, dist) :: results). simpl. split; [done|lia].
    + rewrite IH. exists results. split; [done|lia].
Qed.

(** The labels that [Faiss.search] pairs with the scores are positions of
    the index. *)
Lemma scored_positions (v : list Q) (xb : list (list Q)) (n : nat) :
  Forall (fun h : Q * Z => Z.of_nat n <= h.2 < Z.of_nat n + Py.len xb)
    (imap (fun i u => (Faiss.inner_product v u, Z.of_nat (n + i))) xb).
Proof.
  revert n. unfold Py.len.
  induction xb as [|x xb IH]; intros n; simpl; constructor.
  - simpl. lia.
  - eapply Forall_impl.
    + rewrite (imap_ext _
        (fun i u => (Faiss.inner_product v u, Z.of_nat (S n + i)))).
      * apply (IH (S n)).
      * intros i y _. simpl. do 2 f_equal. lia.
    + intros h. simpl. lia.
Qed.

(** [Faiss.search] fills exactly [k] slots, each with a position of the
    index or with the label [-1]. *)
Lemma faiss_search_hits ix v k :
  length v = Faiss.d ix -> 0 < k ->
  exists hits,
    Faiss.search ix [v] k = Ok hits /\
    Py.len hits = k /\
    Forall (fun h => -1 <= h.2 < Faiss.ntotal ix) hits.
Proof.
  intros Hd Hk. unfold Faiss.search.
  rewrite (proj2 (Nat.eqb_eq _ _) Hd). simpl negb. cbv iota.
  destruct (Z.ltb_spec 0 k) as [_|?]; [|lia]. simpl negb. cbv iota.
  eexists. split; [done|]. split.
  - unfold Py.len. rewrite length_app, length_replicate, length_take. lia.
  - apply Forall_app. split.
    + apply Forall_take. rewrite (sort_desc_perm fst).
      eapply Forall_impl; [apply (scored_positions v (Faiss.xb ix) 0)|].
      intros h. unfold Faiss.ntotal. simpl. lia.
    + apply Forall_replicate. simpl. unfold Faiss.ntotal.
      pose proof (len_nonneg (Faiss.xb ix)). lia.
Qed.

Lemma search_absent enc title query k st :
  titles st !! normalize title = None ->
  search enc title query k st
  = Raise (ValueError ("Title '" ++ title ++ "' does not exist")).
Proof. intros H. unfold search. by rewrite H. Qed.

Lemma search_no_chunks enc title query k st info :
  titles st !! normalize title = Some info ->
  load_chunks (chunks_file info) (disk st) = Ok [] ->
  search enc title query k st = Ok [].
Proof. intros H Hc. unfold search. by rewrite H, Hc. Qed.

Lemma search_clamped enc title query k st info cs ix :
  1 <= k ->
  titles st !! normalize title = Some info ->
  load_chunks (chunks_file info) (disk st) = Ok cs -> cs <> [] ->
  read_index (index_file info) (disk st) = Ok ix ->
  Faiss.d ix = length (enc query) ->
  whitespace_only query = false ->
  exists hits results,
    Faiss.search ix [enc query] (Z.min k (Py.len cs)) = Ok hits /\
    Py.len hits = Z.min k (Py.len cs) /\
    search enc title query k st = Ok results /\
    Py.len results <= Z.min k (Py.len cs).
Proof.
  intros Hk Ht Hcs Hne Hix Hd Hq.
  assert (0 < Py.len cs) as Hlen.
  { pose proof (len_nonneg cs). destruct (Z.eq_dec (Py.len cs) 0) as [H0|]; [|lia].
    by apply len_nil_iff in H0. }
  destruct (faiss_search_hits ix (enc query) (Z.min k (Py.len cs)))
    as (hits & Hsearch & Hhits & Hlabels); [done|lia|].
  destruct (collect_results_ok cs hits) as (results & Hres & Hle).
  { eapply Forall_impl; [exact Hlabels|]. intros h. simpl. lia. }
  exists hits, results. split_and!; [done|done| |unfold Py.len in *; lia].
  unfold search. rewrite Ht. unfold mbind, result_bind. rewrite Hcs.
  assert (is_nil cs = false) as -> by by destruct cs.
  by rewrite Hix, (embed_query_not_blank _ _ Hq), Hsearch.
Qed.

(** C4.  For [k >= 1]: [search] raises its [ValueError] when the key of the
    title is not registered; it returns the empty list when the stored
    chunk list is empty; and otherwise, the index being readable and of the
    dimension of the query vector and the query not blank, it asks the index
    for [min(k, len(all_chunks))] hits and returns, without raising, at most
    that many results, so never more than the collection holds. *)
Theorem search_spec (model_encode : string -> list Q) (title query : string)
  (k : Z) (st : store) :
  1 <= k ->
  (titles st !! normalize title = None ->
     search model_encode title query k st
     = Raise (ValueError ("Title '" ++ title ++ "' does not exist"))) /\
  (forall info,
     titles st !! normalize title = Some info ->
     load_chunks (chunks_file info) (disk st) = Ok [] ->
     search model_encode title query k st = Ok []) /\
  (forall info cs ix,
     titles st !! normalize title = Some info ->
     load_chunks (chunks_file info) (disk st) = Ok cs -> cs <> [] ->
     read_index (index_file info) (disk st) = Ok ix ->
     Faiss.d ix = length (model_encode query) ->
     whitespace_only query = false ->
     exists hits results,
       Faiss.search ix [model_encode query] (Z.min k (Py.len cs)) = Ok hits /\
       Py.len hits = Z.min k (Py.len cs) /\
       search model_encode title query k st = Ok results /\
       Py.len results <= Z.min k (Py.len cs) /\
       Py.len results <= Py.len cs).
Proof.
  intros Hk. split_and!.
  - apply search_absent.
  - apply search_no_chunks.
  - intros info cs ix Ht Hcs Hne Hix Hd Hq.
    destruct (search_clamped model_encode title query k st info cs ix)
      as (hits & results & H1 & H2 & H3 & H4); [done..|].
    exists hits, results. split_and!; [done..|lia].
Qed.

Lemma search_spec_witness :
  search toy_encode "Missing" "beta" 10 docs3_store
  = Raise (ValueError "Title 'Missing' does not exist") /\
  exists results,
    search toy_encode "Docs" "beta" 10 docs3_store = Ok results /\
    Py.len results <= 3.
Proof.
  split.
  - apply (search_spec toy_encode "Missing" "beta" 10 docs3_store);
      [lia|reflexivity].
  - destruct (search_spec toy_encode "Docs" "beta" 10 docs3_store ltac:(lia))
      as (_ & _ & H).
    destruct (H {| display_name := "Docs";
                   index_file := "storage/faiss/docs.index";
                   chunks_file := "storage/faiss/docs_chunks.json";
                   chunk_count := 3 |}
                ["alpha"; "beta"; "gamma"]
                {| Faiss.d := 2; Faiss.xb := [[1%Q; 0%Q]; [0%Q; 1%Q]; [1%Q; 0%Q]] |})
      as (hits & results & _ & _ & Hres & _ & Hlen);
      [reflexivity|reflexivity|discriminate|reflexivity|reflexivity|reflexivity|].
    exists results. split; [exact Hres|exact Hlen].
Defined.

Example search_empty_collection :
  search toy_encode "docs" "beta" 10 docs_store = Ok [].
Proof. vm_compute. reflexivity. Qed.

(** ** Positions outside the chunk list *)

(** A position at or beyond the end of the chunk list is skipped. *)
Lemma collect_results_skips_high all_chunks dist idx rest :
  Py.len all_chunks <= idx ->
  collect_results all_chunks ((dist, idx) :: rest)
  = collect_results all_chunks rest.
Proof.
  intros H. simpl. destruct (Z.ltb_spec idx (Py.len all_chunks)); [lia|done].
Qed.

(** A negative position passes the check [idx < len(all_chunks)] and is
    read from the end of the list; the label [-1] gives the last chunk. *)
Lemma collect_results_takes_negative all_chunks dist idx rest c :
  idx < 0 ->
  Py.index all_chunks idx = Ok c ->
  collect_results all_chunks ((dist, idx) :: rest)
  = (results ← collect_results all_chunks rest; Ok ((c, dist) :: results)).
Proof.
  intros Hneg Hc. simpl.
  pose proof (len_nonneg all_chunks).
  destruct (Z.ltb_spec idx (Py.len all_chunks)); [|lia]. by rewrite Hc.
Qed.

(** C3, at its failing input.  The collection [docs] holds the two chunks
    ["alpha"] and [" "] over an index of one vector.  A search for two
    results gets the hits [(1, 0)] and [(-FLT_MAX, -1)] from the index; the
    position [-1] lies outside the chunk list, yet it is not skipped: it is
    resolved to the last chunk and returned. *)
Theorem search_resolves_sentinel :
  stored_counts docs_blank_store "docs" = Some (1, 2) /\
  Faiss.search {| Faiss.d := 2; Faiss.xb := [[1%Q; 0%Q]] |} [[1%Q; 0%Q]] 2
  = Ok [(1%Q, 0); (Faiss.neg_FLT_MAX, -1)] /\
  collect_results ["alpha"; " "] [(1%Q, 0); (Faiss.neg_FLT_MAX, -1)]
  = Ok [("alpha", 1%Q); (" ", Faiss.neg_FLT_MAX)] /\
  search toy_encode "docs" "alpha" 2 docs_blank_store
  = Ok [("alpha", 1%Q); (" ", Faiss.neg_FLT_MAX)].
Proof. split_and!; vm_compute; reflexivity. Qed.

(** ** Vectors and chunks *)

Lemma embed_texts_length enc texts :
  length (embed_texts enc texts)
  = length (List.filter (fun t => negb (is_blank t)) texts).
Proof.
  unfold embed_texts. destruct texts as [|t texts]; [done|].
  destruct (map Py.strip _) as [|s ss] eqn:Hmap.
  - apply (f_equal (@length string)) in Hmap.
    rewrite length_map in Hmap. simpl in *. by rewrite Hmap.
  - simpl is_nil. cbv iota. rewrite <- Hmap. by rewrite !length_map.
Qed.

(** C1, at its failing input.  On the new collection [docs], which holds no
    vector and no chunk, [add_documents("docs", ["alpha", " "])] returns 2;
    the embedder has dropped the blank chunk, so that the stored index
    holds one vector while the stored chunk list holds two chunks. *)
Theorem add_documents_blank_chunk_misaligns :
  stored_counts docs_store "docs" = Some (0, 0) /\
  embed_texts toy_encode ["alpha"; " "] = [[1%Q; 0%Q]] /\
  add_documents toy_encode "storage" "docs" ["alpha"; " "] docs_store
  = (Ok 2, docs_blank_store) /\
  stored_counts docs_blank_store "docs" = Some (1, 2).
Proof. split_and!; vm_compute; reflexivity. Qed.

Lemma faiss_add_ntotal ix x ix' :
  Faiss.add ix x = Ok ix' -> Faiss.ntotal ix' = Faiss.ntotal ix + Py.len x.
Proof.
  unfold Faiss.add. destruct (forallb _ x); [|done]. intros [= <-].
  unfold Faiss.ntotal, Py.len. simpl. rewrite length_app. lia.
Qed.

(** What a call of [add_documents] that returns does to the stored counts
    of its collection: nothing when there is nothing to embed, and otherwise
    one vector more for every chunk that is not blank, one chunk more for
    every chunk. *)
Lemma add_documents_counts enc sd title chunks st n st' v c :
  store_wf sd st ->
  stored_counts st (normalize title) = Some (v, c) ->
  add_documents enc sd title chunks st = (Ok n, st') ->
  stored_counts st' (normalize title)
  = if Py.len (embed_texts enc chunks) =? 0 then Some (v, c)
    else Some (v + Py.len (embed_texts enc chunks), c + Py.len chunks).
Proof.
  intros Hwf Hcounts. unfold stored_counts in Hcounts.
  unfold add_documents. unfold_M.
  destruct (titles st !! normalize title) as [info|] eqn:Hinfo; [|done].
  destruct (Hwf _ _ Hinfo) as [Hip Hcp].
  destruct (read_index (index_file info) (disk st)) as [ix|] eqn:Hix; [|done].
  destruct (load_chunks (chunks_file info) (disk st)) as [cs|] eqn:Hcs; [|done].
  injection Hcounts as <- <-.
  assert (stored_counts st (normalize title)
          = Some (Faiss.ntotal ix, Py.len cs)) as Hsame.
  { unfold stored_counts. by rewrite Hinfo, Hix, Hcs. }
  destruct (is_nil chunks) eqn:Hnil.
  { intros [= _ <-]. rewrite Hsame. by destruct chunks. }
  rewrite Hcs, Hix.
  destruct (Py.len (embed_texts enc chunks) =? 0) eqn:Hemb.
  { by intros [= _ <-]. }
  destruct (Faiss.add ix (embed_texts enc chunks)) as [ix'|e] eqn:Hadd; [|done].
  destruct (write_file (index_file info) (IndexFile ix') st)
    as [[[]|e1] st1] eqn:Hw1; [|done].
  apply write_file_effect in Hw1 as (Ht1 & Hl1 & _ & [[_ Hd1]|[? _]]); [|done].
  destruct (write_file (chunks_file info) (ChunksJson (cs ++ chunks)) st1)
    as [[[]|e2] st2] eqn:Hw2; [|done].
  apply write_file_effect in Hw2 as (Ht2 & Hl2 & _ & [[_ Hd2]|[? _]]); [|done].
  match goal with
  | |- context [_save_titles sd ?s] =>
      destruct (save_titles_effect sd s) as (st3 & -> & Ht3 & _ & Hd3)
  end.
  intros [= _ <-]. simpl in Ht3, Hd3. unfold stored_counts.
  rewrite Ht3, lookup_alter_eq, Hinfo. simpl.
  unfold read_index, load_chunks.
  rewrite !Hd3 by (rewrite ?Hip, ?Hcp; faiss_path_not_titles).
  rewrite Hd2, Hd1.
  rewrite lookup_insert_eq.
  rewrite lookup_insert_ne, lookup_insert_eq.
  2:{ rewrite Hip, Hcp. intros H. symmetry in H.
      by apply index_path_not_chunks in H. }
  apply faiss_add_ntotal in Hadd. rewrite Hadd.
  unfold Py.len. rewrite length_app. do 2 f_equal. lia.
Qed.

(** While no chunk is blank, [add_documents] keeps as many vectors as
    chunks. *)
Lemma add_documents_aligned enc sd title chunks st n st' v :
  store_wf sd st ->
  forallb (fun t => negb (is_blank t)) chunks = true ->
  stored_counts st (normalize title) = Some (v, v) ->
  add_documents enc sd title chunks st = (Ok n, st') ->
  exists v', stored_counts st' (normalize title) = Some (v', v').
Proof.
  intros Hwf Hnb Hc Hadd.
  rewrite (add_documents_counts _ _ _ _ _ _ _ _ _ Hwf Hc Hadd).
  destruct (_ =? 0); [by eexists|].
  unfold Py.len. rewrite embed_texts_length.
  assert (List.filter (fun t => negb (is_blank t)) chunks = chunks) as ->.
  { clear -Hnb. induction chunks as [|t ts IH]; simpl in *; [done|].
    apply andb_prop in Hnb as [-> Hts]. by rewrite IH. }
  by eexists.
Qed.

(** Every reachable store keeps its files where [create_title] puts
    them. *)
Lemma reachable_wf enc dim sd st : reachable enc dim sd st -> store_wf sd st.
Proof.
  induction 1.
  - intros key info H'. simpl in H'. by rewrite lookup_empty in H'.
  - by apply create_title_wf.
  - by apply add_documents_wf.
  - by apply delete_title_wf.
Qed.

(** ** Registered collections stay loadable *)

Lemma create_title_disk dim sd title st r st' :
  create_title dim sd title st = (r, st') ->
  locked st' = locked st /\
  (forall p,
     p <> path_join (faiss_dir sd) (normalize title ++ ".index") ->
     p <> path_join (faiss_dir sd) (normalize title ++ "_chunks.json") ->
     p <> titles_file sd -> disk st' !! p = disk st !! p) /\
  (is_Some (titles st !! normalize title) -> st' = st) /\
  (titles st' = titles st \/
   disk st' !! path_join (faiss_dir sd) (normalize title ++ ".index")
     = Some (IndexFile (Faiss.IndexFlatIP dim)) /\
   disk st' !! path_join (faiss_dir sd) (normalize title ++ "_chunks.json")
     = Some (ChunksJson [])).
Proof.
  unfold create_title. unfold_M. case_bool_decide as Hreg.
  { intros [= _ <-]. split_and!; [done..|by left]. }
  destruct (write_file _ (IndexFile _) st) as [[[]|e1] st1] eqn:Hw1;
    apply write_file_effect in Hw1 as (Ht1 & Hl1 & Hd1 & Hr1).
  2:{ intros [= _ <-]. split_and!; [done| |done|by left].
      intros p ? ? ?. by apply Hd1. }
  destruct Hr1 as [[_ Hi1]|[? _]]; [|done].
  destruct (write_file _ (ChunksJson []) st1) as [[[]|e2] st2] eqn:Hw2;
    apply write_file_effect in Hw2 as (Ht2 & Hl2 & Hd2 & Hr2).
  2:{ intros [= _ <-]. split_and!; [congruence| |done|left; congruence].
      intros p ? ? ?. rewrite Hd2, Hd1; done. }
  destruct Hr2 as [[_ Hi2]|[? _]]; [|done].
  match goal with
  | |- context [_save_titles sd ?s] =>
      destruct (save_titles_effect sd s) as (st3 & -> & Ht3 & Hl3 & Hd3)
  end.
  intros [= _ <-]. simpl in *. split_and!.
  - congruence.
  - intros p ? ? ?. rewrite Hd3, Hd2, Hd1; done.
  - done.
  - right. rewrite !Hd3 by faiss_path_not_titles.
    rewrite Hi2, Hi1. split.
    + rewrite lookup_insert_ne, lookup_insert_eq; [done|].
      intros H. symmetry in H. by apply index_path_not_chunks in H.
    + by rewrite lookup_insert_eq.
Qed.

(** The files of a registered title are not those of another key, the
    keys being without a slash. *)
Lemma other_files_apart sd st key info key' :
  store_wf sd st -> titles st !! key = Some info -> key <> key' ->
  plain_key key -> plain_key key' ->
  let ip := path_join (faiss_dir sd) (key' ++ ".index") in
  let cp := path_join (faiss_dir sd) (key' ++ "_chunks.json") in
  chunks_file info <> ip /\ chunks_file info <> cp /\
  chunks_file info <> titles_file sd /\
  index_file info <> ip /\ index_file info <> cp /\
  index_file info <> titles_file sd.
Proof.
  intros Hwf Hinfo Hne Hp Hp'. destruct (Hwf _ _ Hinfo) as [-> ->]. simpl.
  split_and!.
  - apply chunks_path_not_index.
  - by intros H%chunks_path_inj.
  - apply chunks_path_not_titles.
  - by intros H%index_path_inj.
  - apply index_path_not_chunks.
  - apply index_path_not_titles.
Qed.

Lemma faiss_add_d ix x ix' : Faiss.add ix x = Ok ix' -> Faiss.d ix' = Faiss.d ix.
Proof. unfold Faiss.add. destruct (forallb _ x); [|done]. by intros [= <-]. Qed.

Lemma delete_title_locked sd title st :
  locked (delete_title sd title st).2 = locked st.
Proof.
  unfold delete_title. unfold_M.
  destruct (titles st !! normalize title) as [info|]; [|done].
  destruct (unlink_if_exists (index_file info) st) as [[[]|e1] st1] eqn:H1;
    apply unlink_if_exists_effect in H1 as (_ & Hl1 & _); [|done].
  destruct (unlink_if_exists (chunks_file info) st1) as [[[]|e2] st2] eqn:H2;
    apply unlink_if_exists_effect in H2 as (_ & Hl2 & _); [|simpl; congruence].
  match goal with
  | |- context [_save_titles sd ?s] =>
      destruct (save_titles_effect sd s) as (st3 & -> & _ & Hl3 & _)
  end.
  simpl in *. congruence.
Qed.

Lemma create_title_locked dim sd title st :
  locked (create_title dim sd title st).2 = locked st.
Proof.
  destruct (create_title dim sd title st) as [r st'] eqn:Hc.
  by apply create_title_disk in Hc as (Hl & _).
Qed.

Lemma add_documents_locked enc sd title chunks st :
  locked (add_documents enc sd title chunks st).2 = locked st.
Proof.
  destruct (add_documents enc sd title chunks st) as [r st'] eqn:Ha.
  by apply add_documents_effect in Ha as (Hl & _).
Qed.

(** * Further properties of the code *)

(** ** What cleaning a text gives *)

Lemma join_cons w ws :
  Py.join " " (w :: ws)
  = w ++ (if is_nil ws then "" else String " " (Py.join " " ws)).
Proof.
  unfold Py.join. destruct ws as [|w' ws]; simpl.
  - by rewrite string_app_nil_r.
  - done.
Qed.

Lemma is_empty_join ws :
  Forall is_word ws -> Py.is_empty (Py.join " " ws) = is_nil ws.
Proof.
  intros H. destruct H as [|w ws [Hw _] _]; [done|].
  rewrite join_cons. by destruct w.
Qed.

Lemma collapse_true_clean_start s :
  clean_start (Py.re_sub_runs Py.is_space " " true s) = true.
Proof.
  induction s as [|c r IH]; simpl; [done|].
  destruct (Py.is_space c) eqn:Hc; [done|]. simpl. by rewrite Hc.
Qed.

Lemma lstrip_collapse s :
  Py.lstrip (Py.re_sub_runs Py.is_space " " false s)
  = Py.re_sub_runs Py.is_space " " true s.
Proof.
  destruct s as [|c r]; simpl; [done|].
  destruct (Py.is_space c) eqn:Hc; simpl.
  - apply clean_start_lstrip, collapse_true_clean_start.
  - by rewrite Hc.
Qed.

Lemma split_clean_start s :
  Py.at_boundary s = false -> is_nil (Py.split s) = false.
Proof.
  destruct s as [|c r]; simpl; [done|]. intros ->.
  unfold Py.push_char. destruct (Py.at_boundary r); [done|].
  by destruct (Py.split r).
Qed.

(** The collapsed text, stripped on the right: the words joined by single
    spaces, after one space when the text began with whitespace. *)
Lemma rstrip_collapse s :
  Py.rstrip (Py.re_sub_runs Py.is_space " " true s)
    = Py.join " " (Py.split s) /\
  Py.rstrip (Py.re_sub_runs Py.is_space " " false s)
    = if Py.at_boundary s && negb (is_nil (Py.split s))
      then String " " (Py.join " " (Py.split s))
      else Py.join " " (Py.split s).
Proof.
  induction s as [|c r [IH1 IH2]]; [done|].
  cbn [Py.re_sub_runs Py.split Py.at_boundary].
  destruct (Py.is_space c) eqn:Hc.
  - split; [done|]. cbn [Py.rstrip]. rewrite IH1.
    change (Py.is_space " ") with true. cbn [andb].
    rewrite is_empty_join by apply split_words.
    by destruct (Py.split r).
  - cbn [andb].
    assert (String c (Py.rstrip (Py.re_sub_runs Py.is_space " " false r))
            = Py.join " " (Py.push_char c (Py.at_boundary r) (Py.split r)))
      as Hgoal.
    { rewrite IH2. unfold Py.push_char.
      destruct (Py.at_boundary r) eqn:Hb; cbn [andb].
      - rewrite join_cons. by destruct (Py.split r).
      - pose proof (split_clean_start r Hb) as Hne.
        destruct (Py.split r) as [|w ws]; [done|].
        by rewrite !join_cons. }
    cbn [Py.rstrip]. rewrite Hc. cbn [andb]. done.
Qed.

Lemma clean_text_join text : clean_text text = Py.join " " (Py.split text).
Proof.
  unfold clean_text. rewrite newlines_id by apply collapse_lacks_LF.
  unfold Py.strip. rewrite lstrip_collapse. apply rstrip_collapse.
Qed.

(** ** Windows over the whole word sequence *)

Lemma range_pos_eq stop step :
  0 < step ->
  Py.range 0 stop step
  = Ok (Py.range_from 0 step (Z.to_nat ((stop - 0 + step - 1) / step))).
Proof.
  intros Hstep. unfold Py.range.
  destruct (Z.eqb_spec step 0) as [?|_]; [lia|].
  by destruct (Z.ltb_spec 0 step) as [_|?]; [|lia].
Qed.

(** [range(0, stop, step)] has just enough values to pass [stop]. *)
Lemma range_count_bounds stop step :
  0 < step -> 0 <= stop ->
  let n := Z.to_nat ((stop - 0 + step - 1) / step) in
  stop <= Z.of_nat n * step /\ (Z.of_nat n - 1) * step < stop.
Proof.
  intros Hstep Hstop n. subst n.
  pose proof (Z.mul_div_le (stop - 0 + step - 1) step Hstep).
  pose proof (Z.mul_succ_div_gt (stop - 0 + step - 1) step Hstep).
  assert (0 <= (stop - 0 + step - 1) / step) by (apply Z.div_pos; lia).
  rewrite Z2Nat.id by done. nia.
Qed.

Lemma range_from_bounds a step n :
  0 <= step ->
  Forall (fun i => a <= i <= a + (Z.of_nat n - 1) * step)
    (Py.range_from a step n).
Proof.
  intros Hstep. revert a. induction n as [|n IH]; intros a; simpl; [done|].
  constructor; [nia|].
  eapply Forall_impl; [apply IH|]. intros i. simpl. nia.
Qed.

(** Every position of the word sequence lies in a window. *)
Lemma window_loop_covers words size total step a n j :
  0 < step <= size -> a <= j < total -> total <= a + Z.of_nat n * step ->
  exists i p,
    window_loop words size total (Py.range_from a step n) !! i
      = Some (Py.slice words p (p + size)) /\
    a <= p /\ p <= j < p + size.
Proof.
  intros Hstep. revert a. induction n as [|n IH]; intros a Hj Hn; [lia|].
  simpl. destruct (Z.lt_ge_cases j (a + size)) as [Hin|Hout].
  - exists 0%nat, a. split; [done|lia].
  - destruct (Z.leb_spec total (a + size)) as [?|Hgo]; [lia|].
    destruct (IH (a + step)) as (i & p & Hi & Hp & Hjp); [lia|lia|].
    exists (S i), p. split; [done|lia].
Qed.

(** With a step of [size] the windows cut the word sequence into pieces. *)
Lemma window_loop_partition words size a n :
  0 < size -> 0 <= a -> Py.len words <= a + Z.of_nat n * size ->
  concat (window_loop words size (Py.len words) (Py.range_from a size n))
  = drop (Z.to_nat a) words.
Proof.
  intros Hsize. revert a. induction n as [|n IH]; intros a Ha Hn; simpl.
  - unfold Py.len in *. rewrite drop_ge; [done|lia].
  - rewrite slice_take_drop by lia.
    replace (Z.to_nat (a + size - a)) with (Z.to_nat size) by lia.
    destruct (Z.leb_spec (Py.len words) (a + size)) as [Hbreak|Hgo]; simpl.
    + rewrite app_nil_r. apply take_ge. unfold Py.len in *.
      rewrite length_drop. lia.
    + rewrite IH by lia.
      replace (Z.to_nat (a + size)) with (Z.to_nat a + Z.to_nat size)%nat
        by lia.
      rewrite <- drop_drop. apply take_drop.
Qed.

(** The loop stops at the first window that reaches the end. *)
Lemma window_loop_length words size total step a n :
  0 < step <= size -> a < total -> total <= a + Z.of_nat n * step ->
  Py.len (window_loop words size total (Py.range_from a step n))
  = if total <=? a + size then 1
    else (total - size - a + step - 1) / step + 1.
Proof.
  intros Hstep. revert a. induction n as [|n IH]; intros a Ha Hn; [lia|].
  simpl. destruct (Z.leb_spec total (a + size)) as [Hbreak|Hgo]; [done|].
  unfold Py.len in *. simpl length. rewrite Nat2Z.inj_succ, IH by lia.
  replace (total - size - a + step - 1)
    with (total - size - (a + step) + step - 1 + 1 * step) by lia.
  rewrite Z.div_add by lia.
  destruct (Z.leb_spec total (a + step + size)) as [Hlast|Hmore]; [|lia].
  assert ((total - size - (a + step) + step - 1) / step = 0) as ->; [|lia].
  apply Z.div_small. lia.
Qed.

Lemma join_words_not_blank ws :
  Forall is_word ws -> ws <> [] -> is_blank (Py.join " " ws) = false.
Proof.
  intros Hws Hne. rewrite blank_no_words, split_join by done.
  by destruct ws.
Qed.

Lemma slice_nonempty {A} (l : list A) i size :
  0 <= i < Py.len l -> 0 < size -> Py.slice l i (i + size) <> [].
Proof.
  intros Hi Hs. rewrite slice_take_drop by lia. unfold Py.len in *.
  intros H. apply (f_equal length) in H.
  rewrite length_take, length_drop in H. simpl in H. lia.
Qed.

Lemma range_starts_in_bounds stop step :
  0 < step -> 0 <= stop ->
  Forall (fun i => 0 <= i < stop)
    (Py.range_from 0 step (Z.to_nat ((stop - 0 + step - 1) / step))).
Proof.
  intros Hstep Hstop.
  destruct (range_count_bounds stop step Hstep Hstop) as [_ Hlt].
  eapply Forall_impl; [apply range_from_bounds; lia|].
  intros i. simpl. lia.
Qed.

Lemma educational_chunk_logic_pos_step text size overlap :
  0 < size - overlap ->
  educational_chunk_logic text size overlap
  = Ok (map (Py.join " ")
          (window_loop (text_words text) size (Py.len (text_words text))
             (Py.range_from 0 (size - overlap)
                (Z.to_nat ((Py.len (text_words text) - 0 + (size - overlap) - 1)
                           / (size - overlap)))))).
Proof.
  intros Hstep. unfold educational_chunk_logic.
  rewrite range_pos_eq by done. unfold mbind, result_bind.
  by rewrite chunk_loop_windows.
Qed.

Lemma text_words_are_words text : Forall is_word (text_words text).
Proof. rewrite text_words_split. apply split_words. Qed.

(** X1.  The word-window chunker works on the words of the raw text:
    collapsing the whitespace and stripping the text before [split()]
    changes no word. *)
Theorem chunker_cleaning_keeps_words (text : string) :
  text_words text = Py.split text.
Proof. apply text_words_split. Qed.

(** X2.  [clean_text] returns the words of the text joined by single
    spaces, so that cleaning a cleaned text changes nothing and no line
    feed is left in its result. *)
Theorem clean_text_single_spaced (text : string) :
  clean_text text = Py.join " " (Py.split text) /\
  clean_text (clean_text text) = clean_text text /\
  lacks Py.LF (clean_text text) = true.
Proof.
  split_and!.
  - apply clean_text_join.
  - by rewrite (clean_text_join (clean_text text)), clean_text_words,
      <- clean_text_join.
  - apply clean_text_lacks_LF.
Qed.

(** X3.  For [0 <= overlap < size] every word of the text, at whatever
    position, is in a chunk of the word-window chunker. *)
Theorem educational_chunk_logic_covers (text : string) (size overlap : Z)
  (j : nat) (w : string) :
  0 <= overlap < size ->
  text_words text !! j = Some w ->
  exists chunks i c,
    educational_chunk_logic text size overlap = Ok chunks /\
    chunks !! i = Some c /\ w ∈ Py.split c.
Proof.
  intros [Ho Hos] Hw.
  pose proof (lookup_lt_Some _ _ _ Hw) as Hj.
  set (words := text_words text) in *.
  set (total := Py.len words).
  destruct (range_count_bounds total (size - overlap)) as [Hn _];
    [lia|apply len_nonneg|].
  destruct (window_loop_covers words size total (size - overlap) 0
              (Z.to_nat ((total - 0 + (size - overlap) - 1) / (size - overlap)))
              (Z.of_nat j))
    as (i & p & Hi & Hp & Hjp); [lia|unfold total, Py.len; lia|lia|].
  eexists _, i, _. split_and!.
  - by apply educational_chunk_logic_pos_step; lia.
  - rewrite map_fmap, list_lookup_fmap. fold words total. by rewrite Hi.
  - rewrite split_join by apply slice_Forall, text_words_are_words.
    rewrite slice_take_drop by lia. apply list_elem_of_lookup.
    exists (j - Z.to_nat p)%nat.
    rewrite lookup_take_lt by lia. rewrite lookup_drop.
    by replace (Z.to_nat p + (j - Z.to_nat p))%nat with j by lia.
Qed.

Lemma educational_chunk_logic_covers_witness :
  exists chunks i c,
    educational_chunk_logic "a b  c d e f g" 3 1 = Ok chunks /\
    chunks !! i = Some c /\ "d" ∈ Py.split c.
Proof.
  apply (educational_chunk_logic_covers "a b  c d e f g" 3 1 3 "d");
    [lia|reflexivity].
Defined.

(** X4.  Without overlap the chunks of the word-window chunker cut the text
    into pieces: their words, one chunk after the other, are the words of
    the text. *)
Theorem educational_chunk_logic_partition (text : string) (size : Z) :
  0 < size ->
  exists chunks,
    educational_chunk_logic text size 0 = Ok chunks /\
    concat (map Py.split chunks) = text_words text.
Proof.
  intros Hsize. eexists. split.
  - apply educational_chunk_logic_pos_step. lia.
  - set (words := text_words text).
    destruct (range_count_bounds (Py.len words) (size - 0)) as [Hn _];
      [lia|apply len_nonneg|].
    rewrite map_map.
    rewrite (map_ext_Forall _ id).
    + rewrite map_id. replace (size - 0) with size in * by lia.
      by rewrite window_loop_partition by lia.
    + apply window_loop_Forall, Forall_forall. intros i _.
      apply split_join, slice_Forall, text_words_are_words.
Qed.

Lemma educational_chunk_logic_partition_witness :
  exists chunks,
    educational_chunk_logic "a b  c d e f g" 3 0 = Ok chunks /\
    concat (map Py.split chunks) = text_words "a b  c d e f g".
Proof. apply (educational_chunk_logic_partition "a b  c d e f g" 3). lia. Defined.

(** X5.  For a text of [n >= 1] words and [0 <= overlap < size] the
    word-window chunker returns one chunk when [n <= size], and otherwise
    one chunk more than the number of steps of [size - overlap] words that
    it takes to go over [n - size] words. *)
Theorem educational_chunk_logic_count (text : string) (size overlap : Z) :
  text_words text <> [] -> 0 <= overlap < size ->
  exists chunks,
    educational_chunk_logic text size overlap = Ok chunks /\
    Py.len chunks
    = if Py.len (text_words text) <=? size then 1
      else (Py.len (text_words text) - size + (size - overlap) - 1)
           / (size - overlap) + 1.
Proof.
  intros Hne [Ho Hos]. eexists. split.
  - apply educational_chunk_logic_pos_step. lia.
  - set (words := text_words text) in *.
    assert (0 < Py.len words) as Hpos.
    { pose proof (len_nonneg words).
      destruct (Z.eq_dec (Py.len words) 0) as [H0|]; [|lia].
      by apply len_nil_iff in H0. }
    destruct (range_count_bounds (Py.len words) (size - overlap)) as [Hn _];
      [lia..|].
    unfold Py.len at 1. rewrite length_map.
    change (Z.of_nat (length ?l)) with (Py.len l).
    rewrite (window_loop_length words size (Py.len words) (size - overlap) 0)
      by lia.
    by replace (Py.len words - size - 0) with (Py.len words - size) by lia.
Qed.

Lemma educational_chunk_logic_count_witness :
  exists chunks,
    educational_chunk_logic "a b c d e f g h i j" 4 1 = Ok chunks /\
    Py.len chunks = 3.
Proof.
  apply (educational_chunk_logic_count "a b c d e f g h i j" 4 1);
    [by vm_compute|lia].
Defined.

(** X6.  With [size >= 1] and a positive step no chunk of the word-window
    chunker is blank: every chunk holds at least one word. *)
Theorem educational_chunk_logic_no_blank (text : string) (size overlap : Z)
  (chunks : list string) :
  0 < size -> 0 < size - overlap ->
  educational_chunk_logic text size overlap = Ok chunks ->
  Forall (fun c => is_blank c = false /\ 1 <= word_count c) chunks.
Proof.
  intros Hsize Hstep. rewrite educational_chunk_logic_pos_step by done.
  intros [= <-]. rewrite map_fmap. apply Forall_fmap, window_loop_Forall.
  eapply Forall_impl;
    [apply (range_starts_in_bounds (Py.len (text_words text)));
       [done|apply len_nonneg]|].
  intros i Hi. simpl.
  pose proof (slice_nonempty (text_words text) i size Hi Hsize) as Hne.
  pose proof (slice_Forall is_word (text_words text) i (i + size)
                (text_words_are_words text)) as Hws.
  split; [by apply join_words_not_blank|].
  unfold word_count. rewrite split_join by done.
  destruct (Py.slice _ _ _); [done|]. unfold Py.len. simpl. lia.
Qed.

Lemma educational_chunk_logic_no_blank_witness :
  Forall (fun c => is_blank c = false /\ 1 <= word_count c)
    ["a b c"; "c d e"; "e f g"].
Proof.
  apply (educational_chunk_logic_no_blank "a b  c d e f g" 3 1);
    [lia|lia|reflexivity].
Defined.

Lemma text_words_blank text :
  whitespace_only text = true -> text_words text = [].
Proof.
  intros H. rewrite text_words_split.
  pose proof (split_nil text) as Hn. rewrite H in Hn.
  by destruct (Py.split text).
Qed.

(** X7.  On an empty or blank text the word-window chunker returns no chunk
    and raises nothing, whatever the configuration, a zero step apart: then
    [range] raises its [ValueError] although there is nothing to chunk. *)
Theorem educational_chunk_logic_blank (text : string) (size overlap : Z) :
  whitespace_only text = true ->
  educational_chunk_logic text size overlap
  = if size - overlap =? 0
    then Raise (ValueError "range() arg 3 must not be zero")
    else Ok [].
Proof.
  intros Hblank. unfold educational_chunk_logic.
  rewrite (text_words_blank _ Hblank). unfold Py.range.
  destruct (Z.eqb_spec (size - overlap) 0) as [?|Hne]; [done|].
  destruct (Z.ltb_spec 0 (size - overlap)) as [Hpos|Hneg]; simpl.
  - rewrite Z.div_small by (unfold Py.len; simpl; lia). done.
  - assert ((0 - Py.len (@nil string) - (size - overlap) - 1)
            / - (size - overlap) = 0) as ->; [|done].
    apply Z.div_small. unfold Py.len. simpl. lia.
Qed.

Lemma educational_chunk_logic_blank_witness :
  educational_chunk_logic "   " 500 50 = Ok [] /\
  educational_chunk_logic "" 7 7
  = Raise (ValueError "range() arg 3 must not be zero").
Proof.
  split.
  - apply (educational_chunk_logic_blank "   " 500 50). reflexivity.
  - apply (educational_chunk_logic_blank "" 7 7). reflexivity.
Defined.

(** ** The paragraph-aware chunker *)

(** X8.  [chunk_text] never groups paragraphs: the line feeds are gone
    before the text is split at them.  A text that is not blank and has at
    most [chunk_size] words comes back as one chunk, its words joined by
    single spaces, whatever the overlap. *)
Theorem chunk_text_one_chunk (text : string) (chunk_size overlap : Z) :
  is_blank text = false -> word_count text <= chunk_size ->
  chunk_text text chunk_size overlap = Ok [Py.join " " (Py.split text)].
Proof.
  intros Hb Hs. rewrite <- clean_text_join. by apply chunk_text_short.
Qed.

Lemma chunk_text_one_chunk_witness :
  chunk_text (String "a" (String Py.LF (String Py.LF "b  c"))) 500 50
  = Ok ["a b c"].
Proof.
  apply (chunk_text_one_chunk
           (String "a" (String Py.LF (String Py.LF "b  c"))) 500 50);
    [reflexivity|by vm_compute].
Defined.

Lemma chunk_loop_take words size total starts :
  exists m,
    chunk_loop words size total starts
    = map (fun i => Py.join " " (Py.slice words i (i + size))) (take m starts).
Proof.
  induction starts as [|i starts [m IH]]; simpl; [by exists 0%nat|].
  destruct (total <=? i + size).
  - by exists 1%nat.
  - exists (S m). simpl. by rewrite IH.
Qed.

Lemma take_range_from m a step n :
  take m (Py.range_from a step n) = Py.range_from a step (m `min` n).
Proof.
  revert a n. induction m as [|m IH]; intros a [|n]; simpl; try done.
  by rewrite IH.
Qed.

(** X9.  On a text of more than [chunk_size] words, with a positive step,
    [chunk_text] returns the windows of [chunk_size] words at all the
    starts [0, step, 2 step, ...] below the number of words, and nothing
    else.  The chunks of the word-window chunker are the windows at the
    first of these starts: [chunk_text] goes on after the window that
    reaches the end of the text, where the other chunker stops. *)
Theorem chunk_text_windows (text : string) (chunk_size overlap : Z) :
  is_blank text = false -> chunk_size < word_count text ->
  0 < chunk_size - overlap ->
  let step := chunk_size - overlap in
  let window := fun i =>
    Py.join " " (Py.slice (Py.split text) i (i + chunk_size)) in
  let n := Z.to_nat ((word_count text + step - 1) / step) in
  chunk_text text chunk_size overlap
    = Ok (map window (Py.range_from 0 step n)) /\
  Forall (fun i => 0 <= i < word_count text) (Py.range_from 0 step n) /\
  word_count text <= Z.of_nat n * step /\
  exists m,
    (m <= n)%nat /\
    educational_chunk_logic text chunk_size overlap
      = Ok (map window (Py.range_from 0 step m)).
Proof.
  intros Hb Hlong Hstep step window n. unfold step in *. clear step.
  pose proof (len_nonneg (Py.split text)) as Hlen.
  assert (n = Z.to_nat ((Py.len (Py.split text) - 0 + (chunk_size - overlap) - 1)
                        / (chunk_size - overlap)))
    as Hn by (subst n; unfold word_count; do 2 f_equal; lia).
  destruct (range_count_bounds (Py.len (Py.split text)) (chunk_size - overlap)
              Hstep Hlen) as [Hup Hlow].
  rewrite <- Hn in Hup, Hlow.
  split_and!.
  - rewrite chunk_text_long by done. unfold word_count.
    rewrite range_pos_eq by done. unfold mbind, result_bind.
    by rewrite <- Hn.
  - eapply Forall_impl;
      [apply (range_from_bounds 0 (chunk_size - overlap) n); lia|].
    intros i. unfold word_count. simpl. nia.
  - done.
  - unfold educational_chunk_logic. rewrite text_words_split.
    rewrite range_pos_eq by done. unfold mbind, result_bind.
    rewrite <- Hn.
    destruct (chunk_loop_take (Py.split text) chunk_size
                (Py.len (Py.split text))
                (Py.range_from 0 (chunk_size - overlap) n)) as [m Hm].
    exists (m `min` n)%nat. split; [lia|].
    by rewrite Hm, take_range_from.
Qed.

Lemma chunk_text_windows_witness :
  chunk_text "a b c d e f g" 3 1 = Ok ["a b c"; "c d e"; "e f g"; "g"] /\
  exists m,
    (m <= 4)%nat /\
    educational_chunk_logic "a b c d e f g" 3 1
    = Ok (map (fun i => Py.join " " (Py.slice (Py.split "a b c d e f g") i (i + 3)))
            (Py.range_from 0 2 m)).
Proof.
  destruct (chunk_text_windows "a b c d e f g" 3 1)
    as (Hc & _ & _ & Hm); [reflexivity|by vm_compute|lia|].
  split; [rewrite Hc; reflexivity|exact Hm].
Defined.

Example chunk_text_goes_on :
  educational_chunk_logic "a b c d e f g" 3 1 = Ok ["a b c"; "c d e"; "e f g"] /\
  chunk_text "a b c d e f g" 3 1 = Ok ["a b c"; "c d e"; "e f g"; "g"].
Proof. split; reflexivity. Qed.

(** X10.  With [chunk_size >= 1] no chunk that [chunk_text] returns is
    blank. *)
Theorem chunk_text_no_blank (text : string) (chunk_size overlap : Z)
  (chunks : list string) :
  1 <= chunk_size ->
  chunk_text text chunk_size overlap = Ok chunks ->
  Forall (fun c => is_blank c = false) chunks.
Proof.
  intros Hsize. destruct (is_blank text) eqn:Hb.
  { rewrite chunk_text_blank by done. by intros [= <-]. }
  assert (Py.split text <> []) as Hne.
  { rewrite blank_no_words in Hb. by destruct (Py.split text). }
  destruct (Z.le_gt_cases (word_count text) chunk_size) as [Hshort|Hlong].
  { rewrite chunk_text_short, clean_text_join by done. intros [= <-].
    constructor; [|done]. apply join_words_not_blank; [apply split_words|done]. }
  rewrite chunk_text_long by (done || lia). unfold Py.range, word_count.
  destruct (Z.eqb_spec (chunk_size - overlap) 0) as [?|Hnz]; [done|].
  destruct (Z.ltb_spec 0 (chunk_size - overlap)) as [Hpos|Hneg].
  - intros [= <-]. rewrite map_fmap. apply Forall_fmap.
    eapply Forall_impl;
      [apply (range_starts_in_bounds (Py.len (Py.split text)));
         [done|apply len_nonneg]|].
    intros i Hi. simpl. apply join_words_not_blank.
    + apply slice_Forall, split_words.
    + apply slice_nonempty; [done|lia].
  - pose proof (range_neg_step (Py.len (Py.split text)) (chunk_size - overlap)
                  (len_nonneg _) ltac:(lia)) as Hr.
    unfold Py.range in Hr.
    destruct (Z.eqb_spec (chunk_size - overlap) 0) as [?|_]; [lia|].
    destruct (Z.ltb_spec 0 (chunk_size - overlap)) as [?|_]; [lia|].
    injection Hr as ->. by intros [= <-].
Qed.

Lemma chunk_text_no_blank_witness :
  Forall (fun c => is_blank c = false) ["a b c"; "c d e"; "e f g"; "g"].
Proof.
  apply (chunk_text_no_blank "a b c d e f g" 3 1); [lia|reflexivity].
Defined.

(** ** The methods of the manager, step by step *)

Lemma save_titles_run sd st :
  _save_titles sd st
  = (Ok (), {| titles := titles st;
               disk := saved sd (titles st) (locked st) (disk st);
               locked := locked st |}).
Proof.
  unfold _save_titles, saved, write_file. unfold_M.
  case_bool_decide; [|done]. by destruct st.
Qed.

Lemma create_title_run dim sd title st :
  let key := normalize title in
  let ip := path_join (faiss_dir sd) (key ++ ".index") in
  let cp := path_join (faiss_dir sd) (key ++ "_chunks.json") in
  let info := {| display_name := Py.strip title; index_file := ip;
                 chunks_file := cp; chunk_count := 0 |} in
  let dk1 := <[ip := IndexFile (Faiss.IndexFlatIP dim)]> (disk st) in
  let dk2 := <[cp := ChunksJson []]> dk1 in
  create_title dim sd title st
  = if bool_decide (is_Some (titles st !! key)) then (Ok false, st)
    else if bool_decide (ip ∈ locked st) then (Raise (PermissionError ip), st)
    else if bool_decide (cp ∈ locked st) then
      (Raise (PermissionError cp),
       {| titles := titles st; disk := dk1; locked := locked st |})
    else
      (Ok true,
       {| titles := <[key := info]> (titles st);
          disk := saved sd (<[key := info]> (titles st)) (locked st) dk2;
          locked := locked st |}).
Proof.
  intros key ip cp info dk1 dk2. unfold create_title. unfold_M.
  fold key. case_bool_decide; [done|].
  unfold write_file at 1. fold ip. case_bool_decide; [done|].
  unfold write_file at 1. simpl. fold cp. case_bool_decide; [done|].
  by rewrite save_titles_run.
Qed.

Lemma add_documents_run enc sd title chunks st info :
  titles st !! normalize title = Some info ->
  let ip := index_file info in
  let cp := chunks_file info in
  add_documents enc sd title chunks st
  = if is_nil chunks then (Ok 0, st)
    else match load_chunks cp (disk st) with
    | Raise e => (Raise e, st)
    | Ok cs =>
      match read_index ip (disk st) with
      | Raise e => (Raise e, st)
      | Ok ix =>
        if Py.len (embed_texts enc chunks) =? 0 then (Ok 0, st)
        else match Faiss.add ix (embed_texts enc chunks) with
        | Raise e => (Raise e, st)
        | Ok ix' =>
          if bool_decide (ip ∈ locked st) then (Raise (PermissionError ip), st)
          else
            let dk1 := <[ip := IndexFile ix']> (disk st) in
            if bool_decide (cp ∈ locked st) then
              (Raise (PermissionError cp),
               {| titles := titles st; disk := dk1; locked := locked st |})
            else
              let ts := alter (set_chunk_count (Py.len (cs ++ chunks)))
                          (normalize title) (titles st) in
              (Ok (Py.len chunks),
               {| titles := ts;
                  disk := saved sd ts (locked st)
                            (<[cp := ChunksJson (cs ++ chunks)]> dk1);
                  locked := locked st |})
        end
      end
    end.
Proof.
  intros Hinfo ip cp. unfold add_documents. unfold_M. rewrite Hinfo.
  fold ip cp. destruct (is_nil chunks); [done|].
  destruct (load_chunks cp (disk st)) as [cs|e]; [|done].
  destruct (read_index ip (disk st)) as [ix|e]; [|done].
  destruct (Py.len (embed_texts enc chunks) =? 0); [done|].
  destruct (Faiss.add ix (embed_texts enc chunks)) as [ix'|e]; [|done].
  unfold write_file at 1. case_bool_decide; [done|].
  unfold write_file at 1. simpl. case_bool_decide; [done|].
  by rewrite save_titles_run.
Qed.

(** What [unlink_if_exists] leaves on the disk when it returns. *)
Lemma unlink_if_exists_run path st :
  unlink_if_exists path st
  = if bool_decide (is_Some (disk st !! path)) && bool_decide (path ∈ locked st)
    then (Raise (PermissionError path), st)
    else (Ok (), {| titles := titles st; disk := delete path (disk st);
                    locked := locked st |}).
Proof.
  unfold unlink_if_exists, unlink, exists_file. unfold_M.
  case_bool_decide as Hex; simpl.
  - case_bool_decide; [done|]. by destruct Hex as [f ->].
  - rewrite delete_id; [by destruct st|].
    destruct (disk st !! path) eqn:E; [|done]. exfalso. apply Hex. by eexists.
Qed.

Lemma delete_title_run sd title st info :
  titles st !! normalize title = Some info ->
  let ip := index_file info in
  let cp := chunks_file info in
  let dk1 := delete ip (disk st) in
  let ts := delete (normalize title) (titles st) in
  delete_title sd title st
  = if bool_decide (is_Some (disk st !! ip)) && bool_decide (ip ∈ locked st)
    then (Ok false, st)
    else if bool_decide (is_Some (dk1 !! cp)) && bool_decide (cp ∈ locked st)
    then (Ok false, {| titles := titles st; disk := dk1; locked := locked st |})
    else (Ok true, {| titles := ts;
                      disk := saved sd ts (locked st) (delete cp dk1);
                      locked := locked st |}).
Proof.
  intros Hinfo ip cp dk1 ts. unfold delete_title. unfold_M. rewrite Hinfo.
  fold ip cp. rewrite unlink_if_exists_run.
  destruct (_ && _); [done|]. rewrite unlink_if_exists_run. simpl.
  fold dk1. destruct (_ && _); [done|]. by rewrite save_titles_run.
Qed.

(** ** Keys *)

Lemma lower_char_idem c : Py.lower_char (Py.lower_char c) = Py.lower_char c.
Proof. destruct c as [[] [] [] [] [] [] [] []]; reflexivity. Qed.

Lemma lower_char_space c : Py.is_space (Py.lower_char c) = Py.is_space c.
Proof. destruct c as [[] [] [] [] [] [] [] []]; reflexivity. Qed.

Lemma lower_lower s : Py.lower (Py.lower s) = Py.lower s.
Proof.
  induction s as [|c s IH]; simpl; [done|]. by rewrite lower_char_idem, IH.
Qed.

Lemma lstrip_lower s : Py.lstrip (Py.lower s) = Py.lower (Py.lstrip s).
Proof.
  induction s as [|c s IH]; simpl; [done|]. rewrite lower_char_space.
  by destruct (Py.is_space c).
Qed.

Lemma is_empty_lower s : Py.is_empty (Py.lower s) = Py.is_empty s.
Proof. by destruct s. Qed.

Lemma rstrip_lower s : Py.rstrip (Py.lower s) = Py.lower (Py.rstrip s).
Proof.
  induction s as [|c s IH]; simpl; [done|].
  rewrite lower_char_space, IH, is_empty_lower.
  by destruct (Py.is_space c && Py.is_empty (Py.rstrip s)).
Qed.

Lemma strip_lower s : Py.strip (Py.lower s) = Py.lower (Py.strip s).
Proof. unfold Py.strip. by rewrite lstrip_lower, rstrip_lower. Qed.

Lemma normalize_strip t : normalize (Py.strip t) = normalize t.
Proof. unfold normalize. by rewrite strip_strip. Qed.

Lemma normalize_lower t : normalize (Py.lower t) = normalize t.
Proof. unfold normalize. by rewrite strip_lower, lower_lower. Qed.

Lemma normalize_idem t : normalize (normalize t) = normalize t.
Proof. unfold normalize at 2. by rewrite normalize_lower, normalize_strip. Qed.

(** X11.  The key of a title does not change when the title is stripped,
    lower-cased or replaced by its own key: titles that differ in case or in
    the whitespace around them name the same collection. *)
Theorem normalize_insensitive (t : string) :
  normalize (Py.strip t) = normalize t /\
  normalize (Py.lower t) = normalize t /\
  normalize (normalize t) = normalize t.
Proof.
  split_and!; [apply normalize_strip|apply normalize_lower|apply normalize_idem].
Qed.

(** ** Creating a collection *)

Lemma saved_lookup_ne sd ts lk dk p :
  p <> titles_file sd -> saved sd ts lk dk !! p = dk !! p.
Proof.
  intros Hp. unfold saved. case_bool_decide; [done|].
  by rewrite lookup_insert_ne.
Qed.

Lemma saved_lookup_index sd ts lk dk a k :
  saved sd ts lk dk !! path_join a (k ++ ".index")
  = dk !! path_join a (k ++ ".index").
Proof. apply saved_lookup_ne, index_path_not_titles. Qed.

Lemma saved_lookup_chunks sd ts lk dk a k :
  saved sd ts lk dk !! path_join a (k ++ "_chunks.json")
  = dk !! path_join a (k ++ "_chunks.json").
Proof. apply saved_lookup_ne, chunks_path_not_titles. Qed.



(** X13.  Once [create_title] has returned [True] for a title, creating a
    title of the same key, in whatever case and with whatever whitespace
    around it, returns [False] and changes neither the registry nor the
    files. *)
Theorem create_title_duplicate (dim : nat) (sd title title' : string)
  (st st' : store) :
  create_title dim sd title st = (Ok true, st') ->
  normalize title' = normalize title ->
  create_title dim sd title' st' = (Ok false, st').
Proof.
  rewrite create_title_run. intros Hc Hkey.
  assert (is_Some (titles st' !! normalize title)) as Hreg.
  { repeat case_bool_decide; try done. injection Hc as <-. simpl.
    rewrite lookup_insert_eq. by eexists. }
  rewrite create_title_run, Hkey. by rewrite bool_decide_eq_true_2.
Qed.

Lemma create_title_duplicate_witness :
  create_title 2 "storage" "DOCS  " docs_store = (Ok false, docs_store).
Proof.
  apply (create_title_duplicate 2 "storage" " Docs " "DOCS  "
           fresh_store docs_store); reflexivity.
Defined.

(** ** Display names *)

Lemma create_title_names dim sd title st :
  names_ok st -> names_ok (create_title dim sd title st).2.
Proof.
  intros Hn. destruct (create_title dim sd title st) as [r st'] eqn:Hc.
  apply create_title_titles in Hc as [Ht|[_ Ht]]; simpl; intros key info;
    rewrite Ht; [apply Hn|].
  destruct (decide (key = normalize title)) as [->|Hne].
  - rewrite lookup_insert_eq. intros [= <-]. simpl. apply normalize_strip.
  - rewrite lookup_insert_ne by done. apply Hn.
Qed.

Lemma add_documents_names enc sd title chunks st :
  names_ok st -> names_ok (add_documents enc sd title chunks st).2.
Proof.
  intros Hn. destruct (add_documents enc sd title chunks st) as [r st'] eqn:Ha.
  apply add_documents_effect in Ha as (_ & Hother & Hown & Hnone & _).
  simpl. intros key info.
  destruct (decide (key = normalize title)) as [->|Hne].
  - destruct (titles st !! normalize title) as [info0|] eqn:H0.
    + destruct (Hown info0 eq_refl) as [n ->]. intros [= <-].
      by apply (Hn _ _ H0).
    + by rewrite (Hnone eq_refl), H0.
  - rewrite Hother by done. apply Hn.
Qed.

Lemma delete_title_names sd title st :
  names_ok st -> names_ok (delete_title sd title st).2.
Proof.
  intros Hn. destruct (delete_title sd title st) as [r st'] eqn:Hd.
  apply delete_title_titles in Hd as [Ht|Ht]; simpl; intros key info;
    rewrite Ht; [apply Hn|].
  intros [_ H]%lookup_delete_Some. by apply Hn.
Qed.

Lemma reachable_names enc dim sd st : reachable enc dim sd st -> names_ok st.
Proof.
  induction 1.
  - intros key info H'. simpl in H'. by rewrite lookup_empty in H'.
  - by apply create_title_names.
  - by apply add_documents_names.
  - by apply delete_title_names.
Qed.

(** X14.  In every store that the public methods reach from an empty
    registry, a registered collection is found again under its display
    name: [get_title_info] of the display name returns its entry, and a
    search under the display name is the search under its key.  The pages
    hand display names to the manager. *)
Theorem display_name_resolves (model_encode : string -> list Q) (dim : nat)
  (sd key : string) (st : store) (info : title_info) :
  reachable model_encode dim sd st ->
  titles st !! key = Some info ->
  normalize (display_name info) = key /\
  get_title_info (display_name info) st = Some info /\
  forall query k,
    search model_encode (display_name info) query k st
    = search model_encode key query k st.
Proof.
  intros Hr Hinfo. pose proof (reachable_names _ _ _ _ Hr _ _ Hinfo) as Hkey.
  assert (normalize key = key) as Hidem
    by by rewrite <- Hkey, normalize_idem.
  split_and!; [done|unfold get_title_info; by rewrite Hkey|].
  intros query k. unfold search. by rewrite Hkey, Hidem, Hinfo.
Qed.

Lemma two_store_reachable : reachable toy_encode 2 "storage" two_store.
Proof.
  apply reach_create, reach_add, reach_create.
  by apply (reach_init toy_encode 2 "storage" ∅ ∅).
Defined.

Lemma display_name_resolves_witness :
  normalize "Notes" = "notes" /\
  get_title_info "Notes" two_store
  = Some {| display_name := "Notes";
            index_file := "storage/faiss/notes.index";
            chunks_file := "storage/faiss/notes_chunks.json";
            chunk_count := 0 |} /\
  forall query k,
    search toy_encode "Notes" query k two_store
    = search toy_encode "notes" query k two_store.
Proof.
  apply (display_name_resolves toy_encode 2 "storage" "notes" two_store
           {| display_name := "Notes";
              index_file := "storage/faiss/notes.index";
              chunks_file := "storage/faiss/notes_chunks.json";
              chunk_count := 0 |});
    [apply two_store_reachable|reflexivity].
Defined.

(** ** Collections stay sound *)

Lemma collection_ok_ext dim st st' info info' :
  disk st' !! chunks_file info = disk st !! chunks_file info ->
  disk st' !! index_file info = disk st !! index_file info ->
  chunks_file info' = chunks_file info ->
  index_file info' = index_file info ->
  chunk_count info' = chunk_count info ->
  collection_ok dim st info -> collection_ok dim st' info'.
Proof.
  intros Hc Hi Hcf Hif Hcc (cs & ix & H1 & H2 & H3 & H4 & H5).
  exists cs, ix. rewrite Hcf, Hif, Hcc.
  by rewrite (load_chunks_ext _ _ _ Hc), (read_index_ext _ _ _ Hi).
Qed.

Lemma not_locked (p : string) (lk : gset string) :
  lk = ∅ -> bool_decide (p ∈ lk) = false.
Proof. intros ->. by apply bool_decide_eq_false_2. Qed.

(** The keys stay without a slash. *)
Lemma create_title_plain dim sd title st :
  plain_key (normalize title) -> plain_store st ->
  plain_store (create_title dim sd title st).2.
Proof.
  intros Hp Hps. destruct (create_title dim sd title st) as [r st'] eqn:Hc.
  apply create_title_titles in Hc as [Ht|[_ Ht]]; simpl; intros key info;
    rewrite Ht; [apply Hps|].
  intros [[<- _]|[_ H]]%lookup_insert_Some; [done|by eapply Hps].
Qed.

Lemma add_documents_plain enc sd title chunks st :
  plain_store st -> plain_store (add_documents enc sd title chunks st).2.
Proof.
  intros Hps. destruct (add_documents enc sd title chunks st) as [r st'] eqn:Ha.
  apply add_documents_effect in Ha as (_ & Hother & Hown & Hnone & _).
  simpl. intros key info Hinfo.
  destruct (decide (key = normalize title)) as [->|Hne].
  - destruct (titles st !! normalize title) as [info0|] eqn:Hold;
      [by eapply Hps|].
    by rewrite (Hnone eq_refl), Hold in Hinfo.
  - rewrite Hother in Hinfo by done. by eapply Hps.
Qed.

Lemma delete_title_plain sd title st :
  plain_store st -> plain_store (delete_title sd title st).2.
Proof.
  intros Hps. destruct (delete_title sd title st) as [r st'] eqn:Hd.
  apply delete_title_titles in Hd as [Ht|Ht]; simpl; intros key info;
    rewrite Ht; [apply Hps|].
  intros [_ H]%lookup_delete_Some. by eapply Hps.
Qed.

Lemma reachable_plain_keys enc dim sd st :
  reachable_plain enc dim sd st -> plain_store st.
Proof.
  induction 1.
  - intros key info H'. simpl in H'. by rewrite lookup_empty in H'.
  - by apply create_title_plain.
  - by apply add_documents_plain.
  - by apply delete_title_plain.
Qed.

Lemma reachable_plain_reachable enc dim sd st :
  reachable_plain enc dim sd st -> reachable enc dim sd st.
Proof. induction 1; by constructor. Qed.

Lemma create_title_sound dim sd title st :
  locked st = ∅ ->
  plain_key (normalize title) -> plain_store st ->
  store_sound dim sd st -> store_sound dim sd (create_title dim sd title st).2.
Proof.
  intros Hl Hp Hps [Hwf Hok]. split; [by apply create_title_wf|].
  rewrite create_title_run.
  destruct (titles st !! normalize title) as [info0|] eqn:Hold.
  { rewrite bool_decide_eq_true_2 by by eexists. apply Hok. }
  rewrite bool_decide_eq_false_2 by by intros [? ?].
  rewrite !(not_locked _ _ Hl). simpl. intros key info.
  destruct (decide (key = normalize title)) as [->|Hne].
  - rewrite lookup_insert_eq. intros [= <-].
    exists [], (Faiss.IndexFlatIP dim). simpl.
    unfold load_chunks, read_index. rewrite saved_lookup_index, saved_lookup_chunks.
    rewrite lookup_insert_eq.
    rewrite lookup_insert_ne by apply chunks_path_not_index.
    by rewrite lookup_insert_eq.
  - rewrite lookup_insert_ne by done. intros Hinfo.
    destruct (other_files_apart sd st key info (normalize title) Hwf Hinfo Hne)
      as (? & ? & ? & ? & ? & ?); [by eapply Hps|done|].
    apply (collection_ok_ext dim st _ info info);
      [| |done|done|done|by apply (Hok key)]; simpl;
      rewrite saved_lookup_ne by done; by rewrite !lookup_insert_ne.
Qed.

Lemma filter_not_blank_app (l1 l2 : list string) :
  List.filter (fun c => negb (is_blank c)) (l1 ++ l2)
  = (List.filter (fun c => negb (is_blank c)) l1
     ++ List.filter (fun c => negb (is_blank c)) l2)%list.
Proof. apply List.filter_app. Qed.

Lemma add_documents_sound enc dim sd title chunks st :
  locked st = ∅ ->
  plain_store st ->
  store_sound dim sd st ->
  store_sound dim sd (add_documents enc sd title chunks st).2.
Proof.
  intros Hl Hps [Hwf Hok]. split; [by apply add_documents_wf|].
  destruct (titles st !! normalize title) as [info0|] eqn:Hold.
  2:{ destruct (add_documents enc sd title chunks st) as [r st'] eqn:Ha.
      apply add_documents_effect in Ha as (_ & _ & _ & Hnone & _).
      simpl. rewrite (Hnone Hold). apply Hok. }
  rewrite (add_documents_run _ _ _ _ _ _ Hold).
  destruct (Hok _ _ Hold) as (cs & ix & Hcs & Hix & Hd & Hn & Hcc).
  destruct (Hwf _ _ Hold) as [Hip Hcp].
  rewrite Hcs, Hix, !(not_locked _ _ Hl).
  destruct (is_nil chunks); [apply Hok|].
  destruct (Py.len (embed_texts enc chunks) =? 0); [apply Hok|].
  destruct (Faiss.add ix (embed_texts enc chunks)) as [ix'|e] eqn:Hadd;
    [|apply Hok].
  simpl. intros key info.
  destruct (decide (key = normalize title)) as [->|Hne].
  - rewrite lookup_alter_eq, Hold. intros [= <-]. simpl.
    exists (cs ++ chunks)%list, ix'.
    unfold load_chunks, read_index, set_chunk_count.
    cbn [disk chunks_file index_file chunk_count].
    rewrite !saved_lookup_ne by (rewrite ?Hip, ?Hcp; faiss_path_not_titles).
    rewrite lookup_insert_eq.
    rewrite lookup_insert_ne, lookup_insert_eq
      by (rewrite Hip, Hcp; apply chunks_path_not_index).
    split_and!; [done|done|by rewrite (faiss_add_d _ _ _ Hadd)| |done].
    rewrite (faiss_add_ntotal _ _ _ Hadd), Hn, filter_not_blank_app.
    unfold Py.len. rewrite embed_texts_length, length_app. lia.
  - rewrite lookup_alter_ne by done. intros Hinfo.
    destruct (other_files_apart sd st key info (normalize title) Hwf Hinfo Hne)
      as (? & ? & ? & ? & ? & ?); [by eapply Hps|by eapply Hps|].
    apply (collection_ok_ext dim st _ info info);
      [| |done|done|done|by apply (Hok key)]; simpl;
      rewrite saved_lookup_ne by done; rewrite !lookup_insert_ne; congruence.
Qed.

Lemma delete_title_sound dim sd title st :
  locked st = ∅ ->
  plain_store st ->
  store_sound dim sd st -> store_sound dim sd (delete_title sd title st).2.
Proof.
  intros Hl Hps [Hwf Hok]. split; [by apply delete_title_wf|].
  destruct (titles st !! normalize title) as [info0|] eqn:Hold.
  2:{ rewrite (delete_title_absent _ _ _ Hold). apply Hok. }
  rewrite (delete_title_run _ _ _ _ Hold). rewrite !(not_locked _ _ Hl).
  rewrite !andb_false_r. simpl.
  destruct (Hwf _ _ Hold) as [Hip Hcp].
  intros key info [Hne Hinfo]%lookup_delete_Some.
  destruct (other_files_apart sd st key info (normalize title) Hwf Hinfo)
    as (? & ? & ? & ? & ? & ?); [done|by eapply Hps|by eapply Hps|].
  apply (collection_ok_ext dim st _ info info);
    [| |done|done|done|by apply (Hok key)]; simpl;
    rewrite saved_lookup_ne by done; rewrite !lookup_delete_ne; congruence.
Qed.

Lemma reachable_sound enc dim sd st :
  reachable_plain enc dim sd st -> locked st = ∅ -> store_sound dim sd st.
Proof.
  induction 1 as [dk lk Hload|st title Hr IH Hp|st title chunks Hr IH
                 |st title Hr IH];
    try pose proof (reachable_plain_keys _ _ _ _ Hr) as Hps.
  - intros _. split; intros key info H'; simpl in H';
      by rewrite lookup_empty in H'.
  - rewrite create_title_locked. intros Hl.
    apply create_title_sound; [done|done|done|by apply IH].
  - rewrite add_documents_locked. intros Hl.
    apply add_documents_sound; [done|done|by apply IH].
  - rewrite delete_title_locked. intros Hl.
    apply delete_title_sound; [done|done|by apply IH].
Qed.

Lemma docs_blank_store_reachable :
  reachable_plain toy_encode 2 "storage" docs_blank_store.
Proof.
  apply plain_add, plain_create; [|reflexivity].
  by apply (plain_init toy_encode 2 "storage" ∅ ∅).
Defined.



Lemma embed_texts_len enc chunks :
  Py.len (embed_texts enc chunks) = Py.len (not_blank chunks).
Proof. unfold Py.len, not_blank. by rewrite embed_texts_length. Qed.

(** X16.  What a call of [add_documents] that returns does, on a store
    whose files lie where [create_title] puts them.  If no chunk is left
    after the blank ones are dropped it returns 0 and changes nothing.
    Otherwise it returns the number of all the chunks, the stored index
    grows by one vector for every chunk that is not blank and the stored
    chunk list by every chunk. *)
Theorem add_documents_grows (model_encode : string -> list Q)
  (sd title : string) (chunks : list string) (st st' : store) (n v c : Z) :
  store_wf sd st ->
  stored_counts st (normalize title) = Some (v, c) ->
  add_documents model_encode sd title chunks st = (Ok n, st') ->
  if Py.len (not_blank chunks) =? 0 then n = 0 /\ st' = st
  else n = Py.len chunks /\
       stored_counts st' (normalize title)
       = Some (v + Py.len (not_blank chunks), c + Py.len chunks).
Proof.
  intros Hwf Hc Hadd.
  pose proof (add_documents_counts _ _ _ _ _ _ _ _ _ Hwf Hc Hadd) as Hcounts.
  rewrite embed_texts_len in Hcounts.
  unfold stored_counts in Hc.
  destruct (titles st !! normalize title) as [info|] eqn:Hinfo; [|done].
  rewrite (add_documents_run _ _ _ _ _ _ Hinfo), embed_texts_len in Hadd.
  destruct (read_index (index_file info) (disk st)) as [ix|]; [|done].
  destruct (load_chunks (chunks_file info) (disk st)) as [cs|]; [|done].
  destruct (is_nil chunks) eqn:Hnil.
  { destruct chunks; [|done]. by injection Hadd as <- <-. }
  destruct (Py.len (not_blank chunks) =? 0).
  { by injection Hadd as <- <-. }
  destruct (Faiss.add ix _); [|done].
  repeat case_bool_decide; try done. by injection Hadd as <- _.
Qed.

Lemma add_documents_grows_witness :
  if Py.len (not_blank ["alpha"; " "]) =? 0
  then 2 = 0 /\ docs_blank_store = docs_store
  else 2 = Py.len ["alpha"; " "] /\
       stored_counts docs_blank_store (normalize "docs")
       = Some (0 + Py.len (not_blank ["alpha"; " "]),
               0 + Py.len ["alpha"; " "]).
Proof.
  apply (add_documents_grows toy_encode "storage" "docs" ["alpha"; " "]
           docs_store docs_blank_store 2 0 0).
  - apply create_title_wf, store_wf_fresh.
  - reflexivity.
  - vm_compute. reflexivity.
Defined.

(** ** What a search returns *)

Lemma index_nonneg {A} (l : list A) (i : Z) (d : A) :
  0 <= i < Py.len l -> Py.index l i = Ok (nth (Z.to_nat i) l d).
Proof.
  intros Hi. unfold Py.index, Py.len in *.
  assert ((i <? 0) = false) as Hneg by lia.
  assert ((Z.of_nat (length l) <=? i) = false) as Hlt by lia.
  rewrite Hneg. cbv zeta. rewrite Hneg, Hlt. simpl.
  destruct (lookup_lt_is_Some_2 l (Z.to_nat i)) as [x Hx]; [lia|].
  rewrite Hx. f_equal. symmetry. by apply nth_lookup_Some.
Qed.

Lemma collect_results_valid all_chunks hits :
  Forall (fun h => 0 <= h.2 < Py.len all_chunks) hits ->
  collect_results all_chunks hits
  = Ok (map (fun h => (nth (Z.to_nat h.2) all_chunks "", h.1)) hits).
Proof.
  induction 1 as [|[dist idx] rest Hh Hrest IH]; simpl; [done|].
  simpl in Hh. destruct (Z.ltb_spec idx (Py.len all_chunks)); [|lia].
  by rewrite (index_nonneg all_chunks idx "") by done; rewrite IH.
Qed.

(** Every hit whose label is a position from the end or from the start of
    the chunk list gives a result. *)
Lemma collect_results_all all_chunks hits :
  Forall (fun h => - Py.len all_chunks <= h.2 < Py.len all_chunks) hits ->
  exists results,
    collect_results all_chunks hits = Ok results /\
    length results = length hits.
Proof.
  induction 1 as [|[dist idx] rest Hh Hrest (results & IH & Hlen)]; simpl.
  - by exists [].
  - simpl in Hh. destruct (Z.ltb_spec idx (Py.len all_chunks)); [|lia].
    destruct (index_in_range all_chunks idx) as [c Hc]; [lia|].
    rewrite Hc, IH. exists ((c, dist) :: results). simpl. by rewrite Hlen.
Qed.



Section SortMap.
Context {A B : Type} (key1 : A -> Q) (key2 : B -> Q) (g : A -> B).
Hypothesis key_g : forall x, key2 (g x) = key1 x.

Lemma insert_desc_map x l :
  insert_desc key2 (g x) (map g l) = map g (insert_desc key1 x l).
Proof.
  induction l as [|y l IH]; simpl; [done|]. rewrite !key_g.
  destruct (Qle_bool (key1 y) (key1 x)); [done|]. simpl. by rewrite IH.
Qed.

Lemma sort_desc_map l : sort_desc key2 (map g l) = map g (sort_desc key1 l).
Proof.
  induction l as [|x l IH]; simpl; [done|]. by rewrite IH, insert_desc_map.
Qed.

End SortMap.

Lemma faiss_search_full ix v k :
  length v = Faiss.d ix -> 0 < k -> k <= Faiss.ntotal ix ->
  Faiss.search ix [v] k
  = Ok (take (Z.to_nat k)
          (sort_desc fst
             (imap (fun i u => (Faiss.inner_product v u, Z.of_nat i))
                (Faiss.xb ix)))).
Proof.
  intros Hd Hk Hn. unfold Faiss.search.
  rewrite (proj2 (Nat.eqb_eq _ _) Hd). simpl negb. cbv iota.
  destruct (Z.ltb_spec 0 k) as [_|?]; [|lia]. simpl negb. cbv iota.
  f_equal. rewrite length_take, sort_desc_length, length_imap.
  unfold Faiss.ntotal, Py.len in Hn.
  replace (Z.to_nat k - Z.to_nat k `min` length (Faiss.xb ix))%nat
    with 0%nat by lia.
  apply app_nil_r.
Qed.

(** The labels of the scored vectors are the positions of the index, each
    once. *)
Lemma scored_labels (v : list Q) (xb : list (list Q)) :
  map (fun h : Q * Z => Z.to_nat h.2)
    (imap (fun i u => (Faiss.inner_product v u, Z.of_nat i)) xb)
  = seq 0 (length xb).
Proof.
  rewrite map_fmap, fmap_imap.
  rewrite (imap_ext _ (fun i _ => i)) by (intros i u _; simpl; lia).
  rewrite (imap_seq_0 xb (fun i => i)). by rewrite list_fmap_id.
Qed.

(** X18.  Where a collection holds as many vectors as chunks, a search with
    a query that is not blank and [k >= 1] returns [min(k, number of
    chunks)] results that stand for pairwise different positions of the
    chunk list, each the chunk at its position, in the order of the scores
    that are returned with them, the highest first.  Which of several
    chunks of one score comes first is left open. *)
Theorem search_ranked (model_encode : string -> list Q)
  (title query : string) (k : Z) (st : store) (info : title_info)
  (cs : list string) (ix : Faiss.index) :
  titles st !! normalize title = Some info ->
  load_chunks (chunks_file info) (disk st) = Ok cs ->
  read_index (index_file info) (disk st) = Ok ix ->
  length (Faiss.xb ix) = length cs -> cs <> [] ->
  Faiss.d ix = length (model_encode query) ->
  whitespace_only query = false -> 1 <= k ->
  exists positions results,
    search model_encode title query k st = Ok results /\
    NoDup positions /\
    Forall (fun i => (i < length cs)%nat) positions /\
    length positions = Z.to_nat (Z.min k (Py.len cs)) /\
    map fst results = map (fun i => nth i cs "") positions /\
    StronglySorted result_ge results.
Proof.
  intros Hinfo Hcs Hix Hlen Hne Hd Hq Hk.
  assert (0 < Py.len cs) as Hpos.
  { destruct cs; [done|]. unfold Py.len. simpl. lia. }
  set (kk := Z.to_nat (Z.min k (Py.len cs))).
  set (all := imap (fun i u =>
                (Faiss.inner_product (model_encode query) u, Z.of_nat i))
                (Faiss.xb ix)).
  set (g := fun h : Q * Z => (nth (Z.to_nat h.2) cs "", h.1)).
  assert (Forall (fun h : Q * Z => 0 <= h.2 < Py.len cs) (sort_desc fst all))
    as Hlabels.
  { rewrite (sort_desc_perm fst).
    eapply Forall_impl;
      [apply (scored_positions (model_encode query) (Faiss.xb ix) 0)|].
    intros h. unfold Py.len. simpl. lia. }
  assert (search model_encode title query k st
          = Ok (map g (take kk (sort_desc fst all)))) as Hsearch.
  { unfold search. rewrite Hinfo. unfold mbind, result_bind. rewrite Hcs.
    assert (is_nil cs = false) as -> by by destruct cs.
    rewrite Hix, (embed_query_not_blank _ _ Hq).
    rewrite faiss_search_full
      by (try done; unfold Faiss.ntotal, Py.len in *; lia).
    rewrite collect_results_valid; [done|]. by apply Forall_take. }
  exists (map (fun h : Q * Z => Z.to_nat h.2) (take kk (sort_desc fst all))),
    (map g (take kk (sort_desc fst all))).
  split_and!.
  - done.
  - rewrite map_fmap, fmap_take, <- map_fmap.
    eapply sublist_NoDup; [|apply sublist_take].
    rewrite map_fmap, (sort_desc_perm fst), <- map_fmap.
    unfold all. rewrite scored_labels. apply NoDup_seq.
  - rewrite map_fmap. apply Forall_fmap, Forall_take.
    eapply Forall_impl; [exact Hlabels|].
    intros h. unfold Py.len. simpl. lia.
  - rewrite length_map, length_take, sort_desc_length.
    unfold all. rewrite length_imap, Hlen. unfold kk, Py.len. lia.
  - rewrite !map_map. done.
  - rewrite !map_fmap, fmap_take, <- !map_fmap.
    rewrite <- (sort_desc_map fst snd g) by done.
    apply sorted_take, (sort_desc_sorted snd).
Qed.

Lemma search_ranked_witness :
  exists positions results,
    search toy_encode "docs" "beta" 2 docs3_store = Ok results /\
    NoDup positions /\
    length positions = 2%nat /\
    map fst results = map (fun i => nth i ["alpha"; "beta"; "gamma"] "") positions /\
    StronglySorted result_ge results.
Proof.
  destruct (search_ranked toy_encode "docs" "beta" 2 docs3_store
           {| display_name := "Docs";
              index_file := "storage/faiss/docs.index";
              chunks_file := "storage/faiss/docs_chunks.json";
              chunk_count := 3 |}
           ["alpha"; "beta"; "gamma"]
           {| Faiss.d := 2;
              Faiss.xb := [[1%Q; 0%Q]; [0%Q; 1%Q]; [1%Q; 0%Q]] |})
    as (positions & results & Hs & Hnd & _ & Hlen & Hfst & Hsorted);
    [reflexivity|reflexivity|reflexivity|reflexivity|discriminate
    |reflexivity|reflexivity|lia|].
  by exists positions, results.
Defined.

(** ** Deleting a collection *)

(** X19.  [delete_title] never raises: on every store, also when a file
    cannot be removed, it returns [True] or [False].  It returns [True]
    only for a registered title, whose entry is then gone; when it returns
    [False] the registry is as it was. *)
Theorem delete_title_never_raises (sd title : string) (st : store) :
  exists b st',
    delete_title sd title st = (Ok b, st') /\
    locked st' = locked st /\
    (b = true ->
       is_Some (titles st !! normalize title) /\
       titles st' = delete (normalize title) (titles st)) /\
    (b = false -> titles st' = titles st).
Proof.
  destruct (titles st !! normalize title) as [info|] eqn:Hinfo.
  - rewrite (delete_title_run _ _ _ _ Hinfo).
    destruct (_ && _); [by exists false, st|].
    destruct (_ && _); eexists _, _; (split; [done|]); simpl;
      split_and!; try done; by eauto.
  - rewrite (delete_title_absent _ _ _ Hinfo). by exists false, st.
Qed.

(** X20.  When the index file of a registered title can be removed and its
    chunk file is there but cannot, [delete_title] returns [False] with the
    index file gone and the title still registered: its entry names an
    index that no longer loads, and while its chunk list holds a chunk every
    search in it raises. *)
Theorem delete_title_half_done (model_encode : string -> list Q)
  (sd title : string) (st : store) (info : title_info) :
  titles st !! normalize title = Some info ->
  index_file info ∉ locked st ->
  is_Some (disk st !! chunks_file info) ->
  chunks_file info ∈ locked st ->
  let st' := {| titles := titles st;
                disk := delete (index_file info) (disk st);
                locked := locked st |} in
  delete_title sd title st = (Ok false, st') /\
  get_title_info title st' = Some info /\
  read_index (index_file info) (disk st')
    = Raise (RuntimeError (index_file info)) /\
  load_chunks (chunks_file info) (disk st')
    = load_chunks (chunks_file info) (disk st) /\
  forall cs query k,
    load_chunks (chunks_file info) (disk st) = Ok cs -> cs <> [] ->
    search model_encode title query k st'
    = Raise (RuntimeError (index_file info)).
Proof.
  intros Hinfo Hip Hex Hcp st'.
  assert (chunks_file info <> index_file info) as Hne by congruence.
  assert (disk st' !! chunks_file info = disk st !! chunks_file info) as Hsame.
  { unfold st'. simpl. by rewrite lookup_delete_ne. }
  assert (read_index (index_file info) (disk st')
          = Raise (RuntimeError (index_file info))) as Hgone.
  { unfold read_index, st'. simpl. by rewrite lookup_delete_eq. }
  split_and!.
  - rewrite (delete_title_run _ _ _ _ Hinfo).
    rewrite (bool_decide_eq_false_2 (index_file info ∈ locked st)) by done.
    rewrite andb_false_r.
    rewrite lookup_delete_ne by done.
    by rewrite !bool_decide_eq_true_2 by done.
  - done.
  - done.
  - by apply load_chunks_ext.
  - intros cs query k Hcs Hcne. unfold search. fold (get_title_info title st').
    change (get_title_info title st') with (titles st !! normalize title).
    rewrite Hinfo. unfold mbind, result_bind.
    rewrite (load_chunks_ext _ _ _ Hsame), Hcs.
    assert (is_nil cs = false) as -> by by destruct cs.
    by rewrite Hgone.
Qed.

Lemma delete_title_half_done_witness :
  let st := {| titles := titles docs3_store; disk := disk docs3_store;
               locked := {[ "storage/faiss/docs_chunks.json" ]} |} in
  let st' := {| titles := titles st;
                disk := delete "storage/faiss/docs.index" (disk st);
                locked := locked st |} in
  delete_title "storage" "Docs" st = (Ok false, st') /\
  search toy_encode "Docs" "beta" 3 st'
  = Raise (RuntimeError "storage/faiss/docs.index").
Proof.
  intros st st'.
  destruct (delete_title_half_done toy_encode "storage" "Docs" st
              {| display_name := "Docs";
                 index_file := "storage/faiss/docs.index";
                 chunks_file := "storage/faiss/docs_chunks.json";
                 chunk_count := 3 |})
    as (Hdel & _ & _ & _ & Hsearch);
    [reflexivity|set_solver|by eexists|set_solver|].
  split; [exact Hdel|].
  apply (Hsearch ["alpha"; "beta"; "gamma"]); [reflexivity|discriminate].
Defined.

Lemma create_title_free dim sd title st :
  titles st !! normalize title = None ->
  path_join (faiss_dir sd) (normalize title ++ ".index") ∉ locked st ->
  path_join (faiss_dir sd) (normalize title ++ "_chunks.json") ∉ locked st ->
  exists st',
    create_title dim sd title st = (Ok true, st') /\
    stored_counts st' (normalize title) = Some (0, 0).
Proof.
  intros Hfree Hip Hcp. eexists. rewrite create_title_run.
  rewrite bool_decide_eq_false_2 by (rewrite Hfree; by intros [? ?]).
  rewrite !bool_decide_eq_false_2 by done.
  split; [done|].
  unfold stored_counts. simpl. rewrite lookup_insert_eq. simpl.
  unfold read_index, load_chunks. rewrite saved_lookup_index, saved_lookup_chunks.
  rewrite lookup_insert_eq.
  rewrite lookup_insert_ne by apply chunks_path_not_index.
  by rewrite lookup_insert_eq.
Qed.

(** X21.  Where the two files of a registered title can be removed,
    [delete_title] returns [True]; the title is then not registered, its
    two files are gone, a search of it raises the [ValueError] of an
    unknown title, and the title can be created again, empty. *)
Theorem delete_title_then_create (model_encode : string -> list Q)
  (dim : nat) (sd title : string) (st : store) (info : title_info) :
  store_wf sd st ->
  titles st !! normalize title = Some info ->
  index_file info ∉ locked st ->
  chunks_file info ∉ locked st ->
  exists st',
    delete_title sd title st = (Ok true, st') /\
    get_title_info title st' = None /\
    disk st' !! index_file info = None /\
    disk st' !! chunks_file info = None /\
    (forall query k,
       search model_encode title query k st'
       = Raise (ValueError ("Title '" ++ title ++ "' does not exist"))) /\
    exists st'',
      create_title dim sd title st' = (Ok true, st'') /\
      stored_counts st'' (normalize title) = Some (0, 0).
Proof.
  intros Hwf Hinfo Hip Hcp. destruct (Hwf _ _ Hinfo) as [Hi Hc].
  eexists. rewrite (delete_title_run _ _ _ _ Hinfo).
  rewrite (bool_decide_eq_false_2 (index_file info ∈ locked st)) by done.
  rewrite (bool_decide_eq_false_2 (chunks_file info ∈ locked st)) by done.
  rewrite !andb_false_r.
  split; [done|].
  assert (get_title_info title
            {| titles := delete (normalize title) (titles st);
               disk := saved sd (delete (normalize title) (titles st))
                         (locked st)
                         (delete (chunks_file info)
                            (delete (index_file info) (disk st)));
               locked := locked st |} = None) as Hgone.
  { unfold get_title_info. simpl. apply lookup_delete_eq. }
  split_and!.
  - done.
  - simpl. rewrite saved_lookup_ne by (rewrite Hi; faiss_path_not_titles).
    rewrite lookup_delete_ne, lookup_delete_eq; [done|].
    rewrite Hi, Hc. apply chunks_path_not_index.
  - simpl. rewrite saved_lookup_ne by (rewrite Hc; faiss_path_not_titles).
    by rewrite lookup_delete_eq.
  - intros query k. by apply search_absent.
  - apply create_title_free;
      [done|simpl; by rewrite <- Hi|simpl; by rewrite <- Hc].
Qed.

Lemma delete_title_then_create_witness :
  exists st',
    delete_title "storage" "Docs" docs3_store = (Ok true, st') /\
    get_title_info "Docs" st' = None /\
    disk st' !! "storage/faiss/docs.index" = None /\
    disk st' !! "storage/faiss/docs_chunks.json" = None /\
    (forall query k,
       search toy_encode "Docs" query k st'
       = Raise (ValueError ("Title '" ++ "Docs" ++ "' does not exist"))) /\
    exists st'',
      create_title 2 "storage" "Docs" st' = (Ok true, st'') /\
      stored_counts st'' (normalize "Docs") = Some (0, 0).
Proof.
  apply (delete_title_then_create toy_encode 2 "storage" "Docs" docs3_store
           {| display_name := "Docs";
              index_file := "storage/faiss/docs.index";
              chunks_file := "storage/faiss/docs_chunks.json";
              chunk_count := 3 |}).
  - apply add_documents_wf, create_title_wf, store_wf_fresh.
  - reflexivity.
  - set_solver.
  - set_solver.
Defined.

(** ** The registry on the disk *)

Lemma load_titles_ext sd dk dk' :
  dk' !! titles_file sd = dk !! titles_file sd ->
  _load_titles sd dk' = _load_titles sd dk.
Proof. intros H. unfold _load_titles, exists_file, load_registry. by rewrite H. Qed.

Lemma load_titles_saved sd ts lk dk :
  titles_file sd ∉ lk -> _load_titles sd (saved sd ts lk dk) = Ok ts.
Proof.
  intros H. unfold saved. rewrite bool_decide_eq_false_2 by done.
  unfold _load_titles, exists_file, load_registry. rewrite lookup_insert_eq.
  by rewrite bool_decide_eq_true_2 by by eexists.
Qed.

Lemma create_title_persists dim sd title st :
  titles_file sd ∉ locked st ->
  _load_titles sd (disk st) = Ok (titles st) ->
  _load_titles sd (disk (create_title dim sd title st).2)
  = Ok (titles (create_title dim sd title st).2).
Proof.
  intros Hl Hp. rewrite create_title_run.
  repeat case_bool_decide; simpl; try done.
  - rewrite <- Hp. apply load_titles_ext, lookup_insert_ne.
    faiss_path_not_titles.
  - by apply load_titles_saved.
Qed.

Lemma add_documents_persists enc sd title chunks st :
  store_wf sd st -> titles_file sd ∉ locked st ->
  _load_titles sd (disk st) = Ok (titles st) ->
  _load_titles sd (disk (add_documents enc sd title chunks st).2)
  = Ok (titles (add_documents enc sd title chunks st).2).
Proof.
  intros Hwf Hl Hp.
  destruct (titles st !! normalize title) as [info|] eqn:Hinfo.
  - destruct (Hwf _ _ Hinfo) as [Hi Hc].
    rewrite (add_documents_run _ _ _ _ _ _ Hinfo).
    destruct (is_nil chunks); [done|].
    destruct (load_chunks _ _); [|done].
    destruct (read_index _ _); [|done].
    destruct (_ =? 0); [done|].
    destruct (Faiss.add _ _); [|done].
    repeat case_bool_decide; simpl; try done.
    + rewrite <- Hp. apply load_titles_ext, lookup_insert_ne.
      rewrite Hi. faiss_path_not_titles.
    + by apply load_titles_saved.
  - destruct (add_documents enc sd title chunks st) as [r st'] eqn:Ha.
    apply add_documents_effect in Ha as (_ & _ & _ & Hnone & _).
    simpl. by rewrite (Hnone Hinfo).
Qed.

Lemma delete_title_persists sd title st :
  store_wf sd st -> titles_file sd ∉ locked st ->
  _load_titles sd (disk st) = Ok (titles st) ->
  _load_titles sd (disk (delete_title sd title st).2)
  = Ok (titles (delete_title sd title st).2).
Proof.
  intros Hwf Hl Hp.
  destruct (titles st !! normalize title) as [info|] eqn:Hinfo.
  - destruct (Hwf _ _ Hinfo) as [Hi Hc].
    rewrite (delete_title_run _ _ _ _ Hinfo).
    destruct (_ && _); [done|]. destruct (_ && _); simpl.
    + rewrite <- Hp. apply load_titles_ext, lookup_delete_ne.
      rewrite Hi. faiss_path_not_titles.
    + by apply load_titles_saved.
  - by rewrite (delete_title_absent _ _ _ Hinfo).
Qed.



(** X23.  [_save_titles] swallows the error of a registry file that cannot
    be written: [create_title] of a free title still returns [True], with
    the title registered in the manager and its two files written, but the
    registry file is as it was.  Where it held the registry before, a
    manager started anew over this disk does not know the title. *)
Theorem create_title_not_saved (dim : nat) (sd title : string) (st : store) :
  titles st !! normalize title = None ->
  path_join (faiss_dir sd) (normalize title ++ ".index") ∉ locked st ->
  path_join (faiss_dir sd) (normalize title ++ "_chunks.json") ∉ locked st ->
  titles_file sd ∈ locked st ->
  exists st',
    create_title dim sd title st = (Ok true, st') /\
    is_Some (get_title_info title st') /\
    is_Some (disk st' !! path_join (faiss_dir sd) (normalize title ++ ".index")) /\
    disk st' !! titles_file sd = disk st !! titles_file sd /\
    _load_titles sd (disk st') = _load_titles sd (disk st) /\
    (_load_titles sd (disk st) = Ok (titles st) ->
     exists st0,
       init sd (disk st') (locked st') = Ok st0 /\
       get_title_info title st0 = None).
Proof.
  intros Hfree Hip Hcp Hlocked. eexists. rewrite create_title_run.
  rewrite bool_decide_eq_false_2 by (rewrite Hfree; by intros [? ?]).
  rewrite !bool_decide_eq_false_2 by done.
  split; [done|]. unfold get_title_info. simpl.
  assert (forall ts dk, saved sd ts (locked st) dk = dk) as Hsaved.
  { intros ts dk. unfold saved. by rewrite bool_decide_eq_true_2. }
  rewrite !Hsaved.
  assert ((<[path_join (faiss_dir sd) (normalize title ++ "_chunks.json")
            := ChunksJson []]>
           (<[path_join (faiss_dir sd) (normalize title ++ ".index")
              := IndexFile (Faiss.IndexFlatIP dim)]> (disk st)))
          !! titles_file sd = disk st !! titles_file sd) as Hsame.
  { rewrite !lookup_insert_ne by faiss_path_not_titles. done. }
  split_and!.
  - rewrite lookup_insert_eq. by eexists.
  - rewrite lookup_insert_ne by apply chunks_path_not_index.
    rewrite lookup_insert_eq. by eexists.
  - done.
  - by apply load_titles_ext.
  - intros Hp. unfold init. rewrite (load_titles_ext _ _ _ Hsame), Hp.
    eexists. split; [done|]. done.
Qed.

Lemma create_title_not_saved_witness :
  let st := {| titles := ∅; disk := ∅;
               locked := {[ "storage/titles.json" ]} |} in
  exists st',
    create_title 2 "storage" "Docs" st = (Ok true, st') /\
    is_Some (get_title_info "Docs" st') /\
    disk st' !! "storage/titles.json" = None /\
    exists st0,
      init "storage" (disk st') (locked st') = Ok st0 /\
      get_title_info "Docs" st0 = None.
Proof.
  intros st.
  destruct (create_title_not_saved 2 "storage" "Docs" st)
    as (st' & Hc & Hreg & _ & Hfile & _ & Hinit);
    [reflexivity|vm_compute; set_solver|vm_compute; set_solver
    |vm_compute; set_solver|].
  exists st'. split_and!; [exact Hc|exact Hreg|exact Hfile|].
  apply Hinit. reflexivity.
Defined.

(** X24.  Creating or deleting a collection whose key has no slash leaves
    every other collection of such a key as it is: its registry entry and
    its two files are the same, and every search in it returns what it
    returned before, whether or not the call succeeded. *)
Theorem create_delete_isolated (model_encode : string -> list Q) (dim : nat)
  (sd a b : string) (st : store) :
  store_wf sd st ->
  plain_key (normalize a) -> plain_key (normalize b) ->
  normalize a <> normalize b ->
  (get_title_info b (create_title dim sd a st).2 = get_title_info b st /\
   forall query k,
     search model_encode b query k (create_title dim sd a st).2
     = search model_encode b query k st) /\
  (get_title_info b (delete_title sd a st).2 = get_title_info b st /\
   forall query k,
     search model_encode b query k (delete_title sd a st).2
     = search model_encode b query k st).
Proof.
  intros Hwf Hpa Hpb Hab. split.
  - destruct (create_title dim sd a st) as [r st'] eqn:Hc. simpl.
    pose proof (create_title_titles _ _ _ _ _ _ Hc) as Ht.
    apply create_title_disk in Hc as (_ & Hd & _).
    assert (titles st' !! normalize b = titles st !! normalize b) as Hb.
    { destruct Ht as [->|[_ ->]]; [done|]. by rewrite lookup_insert_ne. }
    split; [exact Hb|]. intros query k. apply search_ext; [exact Hb|].
    intros info Hinfo.
    destruct (other_files_apart sd st _ info (normalize a) Hwf Hinfo)
      as (? & ? & ? & ? & ? & ?); [congruence|done|done|].
    split; by apply Hd.
  - destruct (titles st !! normalize a) as [ia|] eqn:Hia.
    + destruct (Hwf _ _ Hia) as [Hi Hc].
      assert (forall dk : gmap string file, forall info,
                titles st !! normalize b = Some info ->
                delete (index_file ia) dk !! chunks_file info
                  = dk !! chunks_file info /\
                delete (index_file ia) dk !! index_file info
                  = dk !! index_file info /\
                delete (chunks_file ia) dk !! chunks_file info
                  = dk !! chunks_file info /\
                delete (chunks_file ia) dk !! index_file info
                  = dk !! index_file info) as Hkeep.
      { intros dk info Hinfo.
        destruct (other_files_apart sd st _ info (normalize a) Hwf Hinfo)
          as (? & ? & ? & ? & ? & ?); [congruence|done|done|].
        rewrite Hi, Hc. by rewrite !lookup_delete_ne. }
      rewrite (delete_title_run _ _ _ _ Hia).
      destruct (_ && _); [done|]. destruct (_ && _); simpl.
      * split; [done|]. intros query k. apply search_ext; [done|].
        intros info Hinfo. simpl.
        destruct (Hkeep (disk st) info Hinfo) as (? & ? & _). done.
      * assert (delete (normalize a) (titles st) !! normalize b
                = titles st !! normalize b) as Hb
          by by rewrite lookup_delete_ne.
        split; [exact Hb|]. intros query k. apply search_ext; [exact Hb|].
        intros info Hinfo. simpl.
        destruct (other_files_apart sd st _ info (normalize a) Hwf Hinfo)
          as (_ & _ & ? & _ & _ & ?); [congruence|done|done|].
        rewrite !saved_lookup_ne by done.
        destruct (Hkeep (delete (index_file ia) (disk st)) info Hinfo)
          as (_ & _ & -> & ->).
        by destruct (Hkeep (disk st) info Hinfo) as (-> & -> & _).
    + by rewrite (delete_title_absent _ _ _ Hia).
Qed.

Lemma create_delete_isolated_witness :
  (forall query k,
     search toy_encode "docs" query k
       (create_title 2 "storage" "Papers" two_store).2
     = search toy_encode "docs" query k two_store) /\
  (forall query k,
     search toy_encode "docs" query k
       (delete_title "storage" "Notes" two_store).2
     = search toy_encode "docs" query k two_store).
Proof.
  destruct (create_delete_isolated toy_encode 2 "storage" "Papers" "docs"
              two_store) as [[_ Hc] _];
    [apply two_store_wf|reflexivity|reflexivity|discriminate|].
  destruct (create_delete_isolated toy_encode 2 "storage" "Notes" "docs"
              two_store) as [_ [_ Hd]];
    [apply two_store_wf|reflexivity|reflexivity|discriminate|].
  split; [exact Hc|exact Hd].
Defined.

(** ** The context of a chat turn *)

Lemma index_elem {A} (l : list A) (i : Z) (x : A) :
  Py.index l i = Ok x -> x ∈ l.
Proof.
  unfold Py.index. destruct (_ || _); [done|].
  destruct (l !! _) eqn:E; [|done]. intros [= <-].
  by eapply list_elem_of_lookup_2.
Qed.

Lemma collect_results_stored all_chunks hits results :
  collect_results all_chunks hits = Ok results ->
  Forall (fun r => r.1 ∈ all_chunks) results.
Proof.
  revert results. induction hits as [|[dist idx] rest IH]; simpl.
  - by intros results [= <-].
  - intros results. destruct (idx <? Py.len all_chunks); [|by apply IH].
    destruct (Py.index all_chunks idx) as [c|e] eqn:Hc; [|done].
    unfold mbind, result_bind.
    destruct (collect_results all_chunks rest) as [rs|e]; [|done].
    intros [= <-]. constructor; [by eapply index_elem|by apply IH].
Qed.

Lemma search_stored enc title query k st results :
  search enc title query k st = Ok results ->
  exists info cs,
    titles st !! normalize title = Some info /\
    load_chunks (chunks_file info) (disk st) = Ok cs /\
    Forall (fun r => r.1 ∈ cs) results.
Proof.
  unfold search.
  destruct (titles st !! normalize title) as [info|] eqn:Hinfo; [|done].
  destruct (load_chunks (chunks_file info) (disk st)) as [cs|e] eqn:Hcs;
    [|done].
  unfold mbind, result_bind. intros H. exists info, cs.
  split; [done|]. split; [done|].
  destruct (is_nil cs); [injection H as <-; constructor|].
  destruct (read_index _ _); [|done]. destruct (embed_query _ _); [|done].
  destruct (Faiss.search _ _ _); [|done]. by eapply collect_results_stored.
Qed.

Lemma gather_context_elem search_title selected item :
  item ∈ gather_context search_title selected ->
  title item ∈ selected /\
  exists results,
    search_title (title item) = Ok results /\
    (chunk item, score item) ∈ results.
Proof.
  induction selected as [|t rest IH]; simpl; [by intros ?%elem_of_nil|].
  intros [Hin|Hin]%elem_of_app.
  - destruct (search_title t) as [results|e] eqn:Ht;
      [|by apply elem_of_nil in Hin].
    apply list_elem_of_fmap in Hin as ([c s] & -> & Hr). simpl.
    split; [by left|]. by exists results.
  - destruct (IH Hin) as [Hsel Hres]. split; [by right|done].
Qed.

Lemma slice_elem {A} (l : list A) (a b : Z) (x : A) :
  x ∈ Py.slice l a b -> x ∈ l.
Proof.
  intros Hx.
  assert (Forall (fun y => y ∈ l) (Py.slice l a b)) as H
    by by apply slice_Forall, Forall_forall.
  by apply (proj1 (Forall_forall _ _) H).
Qed.

(** X25.  Every item of the context of a chat turn comes from a selected
    title whose search returned: the title is registered, its chunk list
    loads, the chunk of the item is one of its stored chunks, and the item
    is the chunk and score of one result of that search.  No text enters
    the context from anywhere else, and none is made up. *)
Theorem chat_context_sources (model_encode : string -> list Q) (st : store)
  (selected : list string) (prompt : string) (k : Z) (item : context_item) :
  item ∈ chat_context model_encode st selected prompt k ->
  title item ∈ selected /\
  exists info cs results,
    get_title_info (title item) st = Some info /\
    load_chunks (chunks_file info) (disk st) = Ok cs /\
    chunk item ∈ cs /\
    search model_encode (title item) prompt k st = Ok results /\
    (chunk item, score item) ∈ results.
Proof.
  unfold chat_context, top_context. intros Hin%slice_elem.
  rewrite sort_desc_perm in Hin.
  apply gather_context_elem in Hin as (Hsel & results & Hs & Hr).
  split; [done|].
  destruct (search_stored _ _ _ _ _ _ Hs) as (info & cs & Hinfo & Hcs & Hall).
  exists info, cs, results. split_and!; try done.
  by apply (proj1 (Forall_forall _ _) Hall _ Hr).
Qed.

Lemma chat_context_sources_witness :
  exists cs,
    load_chunks "storage/faiss/docs_chunks.json" (disk docs3_store) = Ok cs /\
    "beta" ∈ cs.
Proof.
  destruct (chat_context_sources toy_encode docs3_store ["Docs"] "beta" 2
              {| title := "Docs"; chunk := "beta"; score := 1 |})
    as (_ & info & cs & results & Hinfo & Hcs & Hin & _).
  { vm_compute. by left. }
  exists cs. vm_compute in Hinfo. injection Hinfo as <-. split; [exact Hcs|exact Hin].
Defined.

(** *** Equal scores *)

Section Stable.

Context {A : Type} (key : A -> Q) (q : Q).

Let same (x : A) : bool := Qeq_bool (key x) q.

Lemma insert_desc_filter x l :
  List.filter same (insert_desc key x l)
  = if same x then x :: List.filter same l else List.filter same l.
Proof.
  induction l as [|y l IH]; simpl; [done|].
  destruct (Qle_bool (key y) (key x)) eqn:Hyx; [done|]. simpl. rewrite IH.
  destruct (same y) eqn:Hy; [|done]. destruct (same x) eqn:Hx; [|done].
  exfalso. unfold same in *.
  apply Qeq_bool_iff in Hy, Hx.
  assert (Qle_bool (key y) (key x) = true); [|congruence].
  apply Qle_bool_iff. rewrite Hy, Hx. apply Qle_refl.
Qed.

Lemma sort_desc_filter l :
  List.filter same (sort_desc key l) = List.filter same l.
Proof.
  induction l as [|x l IH]; simpl; [done|].
  by rewrite insert_desc_filter, IH.
Qed.

End Stable.

(** X26.  The sort of the merge is stable: the items of any one score stand
    in the sorted list in the order in which they were gathered, that of
    the selected titles and, within a title, of its results.  What the
    turn keeps is a prefix of that list. *)
Theorem top_context_stable
  (search_title : string -> result (list (string * Q)))
  (selected : list string) (k : Z) :
  0 <= k ->
  exists sorted,
    top_context search_title selected k = take (Z.to_nat k) sorted /\
    Permutation sorted (gather_context search_title selected) /\
    StronglySorted score_ge sorted /\
    forall q,
      List.filter (fun x => Qeq_bool (score x) q) sorted
      = List.filter (fun x => Qeq_bool (score x) q)
          (gather_context search_title selected).
Proof.
  intros Hk. exists (sort_desc score (gather_context search_title selected)).
  split_and!.
  - by apply top_context_take.
  - apply sort_desc_perm.
  - apply sort_desc_sorted.
  - intros q. apply sort_desc_filter.
Qed.

Lemma top_context_stable_witness :
  exists sorted,
    top_context (fun t => Ok [(t, 0.5%Q); ("x", 0.7%Q)]) ["B"; "A"] 3
    = take 3 sorted /\
    List.filter (fun x => Qeq_bool (score x) 0.5) sorted
    = [ {| title := "B"; chunk := "B"; score := 0.5 |};
        {| title := "A"; chunk := "A"; score := 0.5 |} ].
Proof.
  destruct (top_context_stable (fun t => Ok [(t, 0.5%Q); ("x", 0.7%Q)])
              ["B"; "A"] 3 ltac:(lia)) as (sorted & Htop & _ & _ & Hsame).
  exists sorted. split; [exact Htop|]. rewrite Hsame. reflexivity.
Defined.

(** ** The messages of a chat turn *)

Lemma slice_last_snoc {A} (l : list A) (x : A) :
  Py.slice (l ++ [x]) (-4) (Py.len (l ++ [x]))
  = (Py.slice l (-3) (Py.len l) ++ [x])%list.
Proof.
  unfold Py.slice, Py.clamp, Py.len. rewrite length_app. simpl.
  set (n := length l).
  destruct (Z.ltb_spec (Z.of_nat (n + 1)) 0) as [?|_]; [lia|].
  destruct (Z.ltb_spec (Z.of_nat n) 0) as [?|_]; [lia|].
  rewrite !Z.min_id.
  replace (Z.max 0 (-4 + Z.of_nat (n + 1))) with (Z.max 0 (-3 + Z.of_nat n))
    by lia.
  set (a := Z.to_nat (Z.max 0 (-3 + Z.of_nat n))).
  assert (a <= n)%nat as Ha by (subst a; lia).
  rewrite drop_app_le by done.
  rewrite !take_ge; [done| |].
  - rewrite length_drop. fold n. lia.
  - rewrite length_app, length_drop. fold n. simpl. lia.
Qed.

Lemma slice_last_length {A} (l : list A) :
  Py.len (Py.slice l (-3) (Py.len l)) = Z.min 3 (Py.len l).
Proof.
  unfold Py.slice, Py.clamp, Py.len.
  destruct (Z.ltb_spec (Z.of_nat (length l)) 0) as [?|_]; [lia|].
  simpl. rewrite length_take, length_drop. lia.
Qed.

(** X27.  A turn that finds context sends the system message, then at most
    three messages of the history as it was before the turn, its last
    ones, then the prompt alone, and then the prompt again under its
    context: the prompt is appended to the history before the history is
    cut to its last four messages.  Between three and six messages are
    sent, and the history grows by the prompt. *)
Theorem chat_turn_messages (model_encode : string -> list Q) (st : store)
  (selected : list string) (k : Z) (history : list message)
  (prompt : string) :
  selected <> [] ->
  chat_context model_encode st selected prompt k <> [] ->
  let older := Py.slice history (-3) (Py.len history) in
  let top := chat_context model_encode st selected prompt k in
  let sent :=
    (system_msg :: older
     ++ [user_message prompt;
         user_message (user_content (map chunk top) prompt)])%list in
  chat_turn model_encode st selected k history prompt
  = ((history ++ [user_message prompt])%list, Some sent) /\
  Py.len older = Z.min 3 (Py.len history) /\
  3 <= Py.len sent <= 6.
Proof.
  intros Hsel Htop older top sent. unfold chat_turn. fold top.
  assert (is_nil selected = false) as -> by by destruct selected.
  assert (is_nil top = false) as -> by (subst top; by destruct (chat_context _ _ _ _ _)).
  pose proof (slice_last_length history) as Hlen. fold older in Hlen.
  split_and!.
  - f_equal. f_equal. unfold chat_messages.
    assert (is_nil (history ++ [user_message prompt]) = false) as ->
      by by destruct history.
    rewrite slice_last_snoc. fold older. subst sent. simpl.
    by rewrite <- !app_assoc.
  - done.
  - subst sent. unfold Py.len in *. simpl. rewrite length_app. simpl. lia.
  - subst sent. unfold Py.len in *. simpl. rewrite length_app. simpl. lia.
Qed.

Lemma chat_turn_messages_witness :
  let history :=
    [user_message "q1"; {| role := "assistant"; content := "a1" |};
     user_message "q2"; {| role := "assistant"; content := "a2" |}] in
  chat_turn toy_encode docs3_store ["Docs"] 2 history "beta"
  = ((history ++ [user_message "beta"])%list,
     Some [system_msg;
           {| role := "assistant"; content := "a1" |};
           user_message "q2";
           {| role := "assistant"; content := "a2" |};
           user_message "beta";
           user_message (user_content ["beta"; "alpha"] "beta")]).
Proof.
  intros history.
  destruct (chat_turn_messages toy_encode docs3_store ["Docs"] 2 history
              "beta") as (Hturn & _); [discriminate|by vm_compute|].
  rewrite Hturn. reflexivity.
Defined.

(** ** The vector store of the learning phase *)

Lemma results_of_app repo a b :
  EducationalVectorDB.results_of repo (a ++ b)
  = match EducationalVectorDB.results_of repo a with
    | Ok ra =>
        match EducationalVectorDB.results_of repo b with
        | Ok rb => Ok (ra ++ rb)%list
        | Raise e => Raise e
        end
    | Raise e => Raise e
    end.
Proof.
  induction a as [|[dist idx] a IH]; simpl.
  - by destruct (EducationalVectorDB.results_of repo b).
  - unfold mbind, result_bind. destruct (Py.index repo idx); [|done].
    rewrite IH. destruct (EducationalVectorDB.results_of repo a); [|done].
    by destruct (EducationalVectorDB.results_of repo b).
Qed.

Lemma results_of_valid repo hits :
  Forall (fun h => 0 <= h.2 < Py.len repo) hits ->
  EducationalVectorDB.results_of repo hits
  = Ok (map (fun h => {| EducationalVectorDB.text := nth (Z.to_nat h.2) repo "";
                         EducationalVectorDB.similarity := h.1 |}) hits).
Proof.
  induction 1 as [|[dist idx] rest Hh Hrest IH]; simpl; [done|].
  simpl in Hh. by rewrite (index_nonneg repo idx "") by done; rewrite IH.
Qed.

Lemma index_last {A} (l : list A) (x : A) :
  last l = Some x -> Py.index l (-1) = Ok x.
Proof.
  intros Hlast. rewrite last_lookup in Hlast.
  assert (length l <> 0)%nat as Hne.
  { destruct l; [done|]. simpl. lia. }
  unfold Py.index, Py.len. change (-1 <? 0) with true. cbv iota zeta.
  assert ((-1 + Z.of_nat (length l) <? 0) = false) as -> by lia.
  assert ((Z.of_nat (length l) <=? -1 + Z.of_nat (length l)) = false) as ->
    by lia.
  simpl. replace (Z.to_nat (-1 + Z.of_nat (length l))) with (pred (length l))
    by lia.
  by rewrite Hlast.
Qed.

Lemma results_of_padding repo m c q :
  last repo = Some c ->
  EducationalVectorDB.results_of repo (replicate m (q, -1))
  = Ok (replicate m {| EducationalVectorDB.text := c;
                       EducationalVectorDB.similarity := q |}).
Proof.
  intros Hlast. induction m as [|m IH]; simpl; [done|].
  by rewrite (index_last _ _ Hlast), IH.
Qed.

Lemma search_nearest_run q k db :
  length q = Faiss.d (EducationalVectorDB.index db) -> 0 < k ->
  length (Faiss.xb (EducationalVectorDB.index db))
    = length (EducationalVectorDB.chunk_repository db) ->
  let repo := EducationalVectorDB.chunk_repository db in
  let ranked :=
    map (fun h => {| EducationalVectorDB.text := nth (Z.to_nat h.2) repo "";
                     EducationalVectorDB.similarity := h.1 |})
      (take (Z.to_nat k)
         (sort_desc fst
            (imap (fun i u => (Faiss.inner_product q u, Z.of_nat i))
               (Faiss.xb (EducationalVectorDB.index db))))) in
  EducationalVectorDB.search_nearest q k db
  = if k <=? Py.len repo then Ok ranked
    else match last repo with
         | Some c =>
             Ok (ranked
                 ++ replicate (Z.to_nat k - length repo)
                      {| EducationalVectorDB.text := c;
                         EducationalVectorDB.similarity := Faiss.neg_FLT_MAX |})%list
         | None => Raise (IndexError "list index out of range")
         end.
Proof.
  intros Hd Hk Hal repo ranked.
  unfold EducationalVectorDB.search_nearest, Faiss.search.
  rewrite (proj2 (Nat.eqb_eq _ _) Hd). simpl negb. cbv iota.
  destruct (Z.ltb_spec 0 k) as [_|?]; [|lia]. simpl negb. cbv iota.
  unfold mbind, result_bind. fold repo. rewrite results_of_app.
  rewrite results_of_valid.
  2:{ apply Forall_take. rewrite (sort_desc_perm fst).
      eapply Forall_impl;
        [apply (scored_positions q (Faiss.xb (EducationalVectorDB.index db)) 0)|].
      intros h. unfold Py.len, repo. rewrite Hal. simpl. lia. }
  fold ranked. rewrite length_take, sort_desc_length, length_imap, Hal.
  fold repo. unfold Py.len.
  destruct (Z.leb_spec k (Z.of_nat (length repo))) as [Hle|Hgt].
  - replace (Z.to_nat k - Z.to_nat k `min` length repo)%nat with 0%nat by lia.
    simpl. by rewrite app_nil_r.
  - replace (Z.to_nat k `min` length repo)%nat with (length repo) by lia.
    destruct (last repo) as [c|] eqn:Hlast.
    + by rewrite (results_of_padding _ _ _ _ Hlast).
    + apply last_None in Hlast. rewrite Hlast. simpl.
      destruct (Z.to_nat k - 0)%nat as [|m] eqn:Hm; [lia|]. done.
Qed.

(** X28.  [add_data] extends the chunk repository before it adds to the
    index.  When the index refuses the vectors, one of them not having its
    dimension, the call raises with the chunks already in the repository:
    a store whose chunks and vectors were aligned now holds more chunks
    than vectors, and so it does after every later call that adds as many
    vectors as chunks. *)
Theorem add_data_refused (chunks : list string) (vectors : list (list Q))
  (db : EducationalVectorDB.t) :
  Faiss.ntotal (EducationalVectorDB.index db)
    = Py.len (EducationalVectorDB.chunk_repository db) ->
  chunks <> [] ->
  forallb (fun v => (length v =? Faiss.d (EducationalVectorDB.index db))%nat)
    vectors = false ->
  exists db',
    EducationalVectorDB.add_data chunks vectors db
      = (Raise (AssertionError "d == self.d"), db') /\
    EducationalVectorDB.index db' = EducationalVectorDB.index db /\
    EducationalVectorDB.chunk_repository db'
      = (EducationalVectorDB.chunk_repository db ++ chunks)%list /\
    Faiss.ntotal (EducationalVectorDB.index db')
      < Py.len (EducationalVectorDB.chunk_repository db') /\
    forall chunks2 vectors2 db'',
      EducationalVectorDB.add_data chunks2 vectors2 db' = (Ok (), db'') ->
      length chunks2 = length vectors2 ->
      Faiss.ntotal (EducationalVectorDB.index db'')
        < Py.len (EducationalVectorDB.chunk_repository db'').
Proof.
  intros Hal Hne Hbad. eexists.
  unfold EducationalVectorDB.add_data at 1, Faiss.add. simpl. rewrite Hbad.
  split; [done|]. simpl.
  assert (0 < length chunks)%nat as Hpos.
  { destruct chunks; [done|]. simpl. lia. }
  unfold Faiss.ntotal, Py.len in *.
  split_and!; [done|done|rewrite length_app; lia|].
  intros chunks2 vectors2 db'' Hadd Hlen.
  unfold EducationalVectorDB.add_data, Faiss.add in Hadd. simpl in Hadd.
  destruct (forallb _ vectors2); [|done]. injection Hadd as <-. simpl.
  rewrite !length_app. lia.
Qed.

Lemma add_data_refused_witness :
  exists db',
    EducationalVectorDB.add_data ["gamma"] [[1%Q]] toy_db
      = (Raise (AssertionError "d == self.d"), db') /\
    EducationalVectorDB.chunk_repository db' = ["alpha"; "beta"; "gamma"] /\
    Faiss.ntotal (EducationalVectorDB.index db') = 2.
Proof.
  destruct (add_data_refused ["gamma"] [[1%Q]] toy_db)
    as (db' & Hadd & Hix & Hrepo & _); [reflexivity|discriminate|reflexivity|].
  exists db'. split; [exact Hadd|]. split; [exact Hrepo|].
  rewrite Hix. reflexivity.
Defined.

Lemma nth_seq_shift {A} (pre l : list A) (d : A) :
  map (fun i => nth i (pre ++ l) d) (seq (length pre) (length l)) = l.
Proof.
  revert pre. induction l as [|x l IH]; intros pre; simpl; [done|].
  f_equal.
  - rewrite app_nth2 by lia. by rewrite Nat.sub_diag.
  - specialize (IH (pre ++ [x])%list).
    rewrite length_app, Nat.add_1_r, <- app_assoc in IH. exact IH.
Qed.

(** What a search that returns has found, over a store with chunks and as
    many vectors: every chunk once, in some order, and after them the last
    chunk once for every slot that could not be filled. *)
Lemma search_nearest_found q k db raw :
  length (Faiss.xb (EducationalVectorDB.index db))
    = length (EducationalVectorDB.chunk_repository db) ->
  EducationalVectorDB.chunk_repository db <> [] ->
  Py.len (EducationalVectorDB.chunk_repository db) <= k ->
  EducationalVectorDB.search_nearest q k db = Ok raw ->
  exists ranked c,
    last (EducationalVectorDB.chunk_repository db) = Some c /\
    Permutation (map EducationalVectorDB.text ranked)
      (EducationalVectorDB.chunk_repository db) /\
    raw = (ranked
           ++ replicate
                (Z.to_nat k - length (EducationalVectorDB.chunk_repository db))
                {| EducationalVectorDB.text := c;
                   EducationalVectorDB.similarity := Faiss.neg_FLT_MAX |})%list.
Proof.
  intros Hal Hne Hk Hraw.
  set (repo := EducationalVectorDB.chunk_repository db) in *.
  assert (0 < length repo)%nat as Hpos.
  { destruct repo; [done|]. simpl. lia. }
  unfold Py.len in Hk.
  destruct (Nat.eqb_spec (length q) (Faiss.d (EducationalVectorDB.index db)))
    as [Hd|Hd].
  2:{ unfold EducationalVectorDB.search_nearest, Faiss.search in Hraw.
      apply Nat.eqb_neq in Hd. by rewrite Hd in Hraw. }
  rewrite (search_nearest_run q k db Hd) in Hraw by (done || lia).
  cbv zeta in Hraw. fold repo in Hraw. unfold Py.len in Hraw.
  set (all := imap (fun i u => (Faiss.inner_product q u, Z.of_nat i))
                (Faiss.xb (EducationalVectorDB.index db))) in *.
  assert (length (sort_desc fst all) = length repo) as Hsorted.
  { unfold all. by rewrite sort_desc_length, length_imap. }
  rewrite take_ge in Hraw by lia.
  destruct (last repo) as [c|] eqn:Hlast.
  2:{ apply last_None in Hlast. done. }
  set (ranked := map _ (sort_desc fst all)) in *.
  assert (Permutation (map EducationalVectorDB.text ranked) repo) as Hperm.
  { unfold ranked. rewrite map_map. simpl.
    rewrite !map_fmap, (sort_desc_perm fst), <- !map_fmap.
    rewrite <- (map_map (fun h : Q * Z => Z.to_nat h.2)
                  (fun i => nth i repo "")).
    unfold all. rewrite scored_labels, Hal.
    pose proof (nth_seq_shift [] repo "") as Hnth. simpl in Hnth.
    by rewrite Hnth. }
  exists ranked, c. split_and!; [done|done|].
  destruct (Z.leb_spec k (Z.of_nat (length repo))).
  - injection Hraw as <-.
    replace (Z.to_nat k - length repo)%nat with 0%nat by lia.
    simpl. by rewrite app_nil_r.
  - by injection Hraw as <-.
Qed.

Lemma search_nearest_empty q k db :
  Faiss.xb (EducationalVectorDB.index db) = [] ->
  EducationalVectorDB.chunk_repository db = [] ->
  is_ok (EducationalVectorDB.search_nearest q k db) = false /\
  (length q = Faiss.d (EducationalVectorDB.index db) -> 0 < k ->
   EducationalVectorDB.search_nearest q k db
   = Raise (IndexError "list index out of range")).
Proof.
  intros Hxb Hrepo. unfold EducationalVectorDB.search_nearest, Faiss.search.
  rewrite Hxb, Hrepo.
  destruct (length q =? Faiss.d (EducationalVectorDB.index db))%nat eqn:Hd;
    simpl.
  2:{ split; [done|]. intros E. apply Nat.eqb_neq in Hd. done. }
  destruct (Z.ltb_spec 0 k) as [Hk|Hk]; simpl.
  2:{ split; [done|]. intros _ ?. lia. }
  rewrite take_nil. simpl.
  destruct (Z.to_nat k - 0)%nat eqn:Hm; [lia|]. simpl. done.
Qed.



Lemma filter_replicate_false {A} (p : A -> bool) (m : nat) (x : A) :
  p x = false -> List.filter p (replicate m x) = [].
Proof. intros Hp. induction m as [|m IH]; simpl; [done|]. by rewrite Hp. Qed.


